(** * libusbsio: the HID request/response engine and the session registry

    A shallow embedding of [src/lpcusbsio.c] (the non-_WIN32 branches) and
    the properties of its transaction engine, error translator and handle
    registry.

    Integers of the C code are [Z] with the wrap-around of their width
    written out where a field stores them.  Pointers are addresses in [Z],
    [NULL] is 0.  The linked list [g_Ctrl.devList] is the list of its
    nodes, each with its address; a node's [next] field is the address of
    the node after it, or [NULL] for the last one.  The calls into hidapi,
    the allocator and pthread are answered by a script of replies that the
    run consumes in order, and every such call is logged in a trace. *)

From Stdlib Require Import ZArith List String Ascii Bool Lia.
From stdpp Require Import base option list pretty.
Import ListNotations.

Local Open Scope Z_scope.

(** ** Outcomes of a run *)

Inductive outcome (A : Type) : Type :=
| Ret (a : A)
| Fault   (* undefined behaviour: dereference of NULL or of a dead address,
             access outside an array, negative copy length *)
| Stuck.  (* no progress: the script holds no fitting reply, or the thread
             waits for a guard that nobody releases *)
Arguments Ret {A} a.
Arguments Fault {A}.
Arguments Stuck {A}.

(** ** Machine integers *)

Definition wrap (bits x : Z) : Z := x mod 2 ^ bits.
Definition uint8 (x : Z) : Z := wrap 8 x.
Definition uint32 (x : Z) : Z := wrap 32 x.
Definition INT32_MIN : Z := - 2 ^ 31.

(** [abs] of <stdlib.h>; undefined on the most negative int. *)
Definition abs (x : Z) : outcome Z :=
  if x =? INT32_MIN then Fault else Ret (Z.abs x).

(** Four bytes read as a host-endian (little-endian) [uint32_t]. *)
Definition le32 (b : list Z) : Z :=
  nth 0 b 0 + 2 ^ 8 * nth 1 b 0 + 2 ^ 16 * nth 2 b 0 + 2 ^ 24 * nth 3 b 0.

Definition to_le32 (x : Z) : list Z :=
  [x mod 2 ^ 8; (x / 2 ^ 8) mod 2 ^ 8; (x / 2 ^ 16) mod 2 ^ 8; (x / 2 ^ 24) mod 2 ^ 8].

(** The bytes of a C string: up to, not including, the first NUL. *)
Fixpoint cstr (b : list Z) : string :=
  match b with
  | [] => EmptyString
  | c :: b' => if c =? 0 then EmptyString
               else String (ascii_of_N (Z.to_N c)) (cstr b')
  end.

Definition is_Some_bool {A} (o : option A) : bool :=
  match o with Some _ => true | None => false end.

(** ** Constants of lpcusbsio.h and lpcusbsio.c *)

Definition ptr := Z.
Definition NULL : ptr := 0.

Definition LPCUSBSIO_OK : Z := 0.
Definition LPCUSBSIO_ERR_HID_LIB : Z := -1.
Definition LPCUSBSIO_ERR_BAD_HANDLE : Z := -2.
Definition LPCUSBSIO_ERR_SYNCHRONIZATION : Z := -3.
Definition LPCUSBSIO_ERR_MEM_ALLOC : Z := -4.
Definition LPCUSBSIO_ERR_MUTEX_CREATE : Z := -5.
Definition LPCUSBSIO_ERR_FATAL : Z := - 0x11.
Definition LPCUSBSIO_ERR_I2C_NAK : Z := - 0x12.
Definition LPCUSBSIO_ERR_I2C_BUS : Z := - 0x13.
Definition LPCUSBSIO_ERR_I2C_SLAVE_NAK : Z := - 0x14.
Definition LPCUSBSIO_ERR_I2C_ARBLOST : Z := - 0x15.
Definition LPCUSBSIO_ERR_TIMEOUT : Z := - 0x20.
Definition LPCUSBSIO_ERR_INVALID_CMD : Z := - 0x21.
Definition LPCUSBSIO_ERR_INVALID_PARAM : Z := - 0x22.
Definition LPCUSBSIO_ERR_PARTIAL_DATA : Z := - 0x23.

Definition NUM_LIB_ERR_STRINGS : Z := 6.
Definition NUM_FW_ERR_STRINGS : Z := 6.
Definition NUM_BRIDGE_ERR_STRINGS : Z := 4.
Definition MAX_FWVER_STRLEN : Z := 60.
Definition MAX_I2C_PORTS : Z := 8.
Definition MAX_SPI_PORTS : Z := 8.

Definition g_fwInitVer : string := "FW Ver Unavailable".

Definition g_LibErrMsgs : list string :=
  [ "No errors are recorded.";
    "HID library error.";
    "Handle passed to the function is invalid.";
    "Mutex Calls failed.";
    "Memory Allocation Error.";
    "Mutex Creation Error." ]%string.

Definition g_fwErrMsgs : list string :=
  [ "Firmware error.";
    "Fatal error happened";
    "Transfer aborted due to NAK";
    "Transfer aborted due to bus error";
    "No acknowledgement received from slave address";
    "I2C bus arbitration lost to other master" ]%string.

Definition g_BridgeErrMsgs : list string :=
  [ "Transaction timed out.";
    "Invalid HID_SIO Request or Request not supported in this version.";
    "Invalid parameters are provided for the given Request.";
    " Partial transfer completed.";
    " Unsupported Error Code" ]%string.

(** [tbl[i]] for an index the caller has range-checked. *)
Definition msg_at (tbl : list string) (i : Z) : string :=
  nth (Z.to_nat i) tbl EmptyString.

(** ** Error translator *)

Definition GetErrorString (err : Z) : outcome string :=
  let retStr := msg_at g_LibErrMsgs 0 in
  match abs err with
  | Ret index =>
      if index <? 0x10 then
        Ret (if index <? NUM_LIB_ERR_STRINGS then msg_at g_LibErrMsgs index
             else msg_at g_LibErrMsgs 0)
      else if index <? 0x20 then
        let index := index - 0x10 in
        Ret (if index <? NUM_FW_ERR_STRINGS then msg_at g_fwErrMsgs index
             else msg_at g_fwErrMsgs 0)
      else if index <? 0x30 then
        let index := index - 0x20 in
        Ret (if index <? NUM_BRIDGE_ERR_STRINGS then msg_at g_BridgeErrMsgs index
             else msg_at g_BridgeErrMsgs NUM_BRIDGE_ERR_STRINGS)
      else Ret retStr
  | Fault => Fault
  | Stuck => Stuck
  end.

(** ** The wire protocol

    [lpcusbsio_protocol.h] is not among the sources.  Its constants, the
    transfer-length macro and the widths of the report fields are the
    fields of this class; the engine below is stated over any instance. *)

Class Protocol : Type := {
  HID_SIO_PACKET_SZ : Z;
  HID_SIO_PACKET_HEADER_SZ : Z;
  HID_SIO_PACKET_DATA_SZ : Z;
  HID_SIO_CALC_TRANSFER_LEN : Z -> Z;
  HID_SIO_RES_OK : Z;
  HID_SIO_REQ_DEV_INFO : Z;
  HID_I2C_REQ_RESET : Z;
  HID_I2C_REQ_INIT_PORT : Z;
  HID_I2C_REQ_DEINIT_PORT : Z;
  HID_I2C_REQ_DEVICE_WRITE : Z;
  HID_SPI_REQ_RESET : Z;
  HID_SPI_REQ_INIT_PORT : Z;
  HID_SPI_REQ_DEINIT_PORT : Z;
  (* widths, in bits, of the report fields packet_num, packet_len, transfer_len *)
  PACKET_NUM_BITS : Z;
  PACKET_LEN_BITS : Z;
  TRANSFER_LEN_BITS : Z;
  (* the bytes of a HID_I2C_RW_PARAMS_T holding length, options, slaveAddr *)
  HID_I2C_RW_PARAMS_bytes : Z -> Z -> Z -> list Z;
}.

(** Modelled from the spec: a report of 64 bytes in total (section 6) whose
    payload capacity is the 60 bytes of the fragmentation scenario (section
    8), hence a 4-byte header; the declared transfer length counts every
    frame with its header, which is what the completion test of the read
    phase adds up.  The request codes are placeholders: no property below depends on their values. *)
Definition scenario_protocol : Protocol := {|
  HID_SIO_PACKET_SZ := 64;
  HID_SIO_PACKET_HEADER_SZ := 4;
  HID_SIO_PACKET_DATA_SZ := 60;
  HID_SIO_CALC_TRANSFER_LEN := fun n => n + Z.max 1 ((n + 59) / 60) * 4;
  HID_SIO_RES_OK := 0;
  HID_SIO_REQ_DEV_INFO := 0xF0;
  HID_I2C_REQ_RESET := 0;
  HID_I2C_REQ_INIT_PORT := 1;
  HID_I2C_REQ_DEINIT_PORT := 2;
  HID_I2C_REQ_DEVICE_WRITE := 3;
  HID_SPI_REQ_RESET := 0x10;
  HID_SPI_REQ_INIT_PORT := 0x11;
  HID_SPI_REQ_DEINIT_PORT := 0x12;
  PACKET_NUM_BITS := 8;
  PACKET_LEN_BITS := 16;
  TRANSFER_LEN_BITS := 16;
  HID_I2C_RW_PARAMS_bytes := fun len opt adr => [len mod 256; (len / 256) mod 256; opt; adr];
|}.

(** Where the port tables lie inside a [LPCUSBSIO_Ctrl_t]: the target's
    [sizeof(LPCUSBSIO_PortCtrl_t)] and [offsetof(LPCUSBSIO_Ctrl_t, i2cPorts)].
    [spiPorts] follows [i2cPorts] directly (two arrays of one element type). *)
Class Layout : Type := {
  sizeof_PortCtrl : Z;
  offsetof_i2cPorts : Z;
  sizeof_PortCtrl_pos : 0 < sizeof_PortCtrl;
}.

(** An LP64 target with reports of 64 bytes: two pointers (16 bytes),
    [peripheralId] (8), four one-byte fields, two 32-bit words (8),
    [fwBuild] (60) and two packets of 65 bytes end at offset 226, and the
    table of pointer-aligned entries starts at 232; an entry is a pointer
    and a byte, padded to 16. *)
Definition lp64_layout : Layout.
Proof. refine {| sizeof_PortCtrl := 16; offsetof_i2cPorts := 232 |}. reflexivity. Defined.

(** ** Data structures *)

Record LPCUSBSIO_PortCtrl_t : Type := mkPort {
  hUsbSio : ptr;
  portNum : Z;
}.

(** [pthread_mutex_t sioMutex]: zeroed memory, initialised and free, or held. *)
Inductive mutex : Type := MutexUninit | MutexFree | MutexHeld.

(** [outPacket] and [inPacket] are scratch buffers that every exchange
    rewrites before it reads them; their contents travel in the trace
    ([EvWrite], [EvRead]) instead of in the record.  [peripheralId] is
    never used.  [next] is the position in [g_devList]. *)
Record LPCUSBSIO_Ctrl_t : Type := mkCtrl {
  hidInfo : ptr;
  hidDev : ptr;
  transId : Z;
  maxI2CPorts : Z;
  maxSPIPorts : Z;
  maxGPIOPorts : Z;
  maxDataSize : Z;
  fwVersion : Z;
  fwBuild : string;
  i2cPorts : list LPCUSBSIO_PortCtrl_t;
  spiPorts : list LPCUSBSIO_PortCtrl_t;
  sioMutex : mutex;
}.

Definition set_transId (v : Z) (c : LPCUSBSIO_Ctrl_t) : LPCUSBSIO_Ctrl_t :=
  mkCtrl (hidInfo c) (hidDev c) v (maxI2CPorts c) (maxSPIPorts c) (maxGPIOPorts c)
         (maxDataSize c) (fwVersion c) (fwBuild c) (i2cPorts c) (spiPorts c) (sioMutex c).

Definition set_sioMutex (m : mutex) (c : LPCUSBSIO_Ctrl_t) : LPCUSBSIO_Ctrl_t :=
  mkCtrl (hidInfo c) (hidDev c) (transId c) (maxI2CPorts c) (maxSPIPorts c) (maxGPIOPorts c)
         (maxDataSize c) (fwVersion c) (fwBuild c) (i2cPorts c) (spiPorts c) m.

Definition set_i2cPorts (t : list LPCUSBSIO_PortCtrl_t) (c : LPCUSBSIO_Ctrl_t) : LPCUSBSIO_Ctrl_t :=
  mkCtrl (hidInfo c) (hidDev c) (transId c) (maxI2CPorts c) (maxSPIPorts c) (maxGPIOPorts c)
         (maxDataSize c) (fwVersion c) (fwBuild c) t (spiPorts c) (sioMutex c).

Definition set_spiPorts (t : list LPCUSBSIO_PortCtrl_t) (c : LPCUSBSIO_Ctrl_t) : LPCUSBSIO_Ctrl_t :=
  mkCtrl (hidInfo c) (hidDev c) (transId c) (maxI2CPorts c) (maxSPIPorts c) (maxGPIOPorts c)
         (maxDataSize c) (fwVersion c) (fwBuild c) (i2cPorts c) t (sioMutex c).

Definition set_fwBuild (s : string) (c : LPCUSBSIO_Ctrl_t) : LPCUSBSIO_Ctrl_t :=
  mkCtrl (hidInfo c) (hidDev c) (transId c) (maxI2CPorts c) (maxSPIPorts c) (maxGPIOPorts c)
         (maxDataSize c) (fwVersion c) s (i2cPorts c) (spiPorts c) (sioMutex c).

Definition set_devInfo (i2c spi gpio size ver : Z) (c : LPCUSBSIO_Ctrl_t) : LPCUSBSIO_Ctrl_t :=
  mkCtrl (hidInfo c) (hidDev c) (transId c) i2c spi gpio size ver
         (fwBuild c) (i2cPorts c) (spiPorts c) (sioMutex c).

(** [memset(dev, 0, sizeof(LPCUSBSIO_Ctrl_t))], then the two [hid] fields. *)
Definition zeroed_Ctrl (pHid cur_dev : ptr) : LPCUSBSIO_Ctrl_t :=
  mkCtrl cur_dev pHid 0 0 0 0 0 0 EmptyString
         (replicate (Z.to_nat MAX_I2C_PORTS) (mkPort NULL 0))
         (replicate (Z.to_nat MAX_SPI_PORTS) (mkPort NULL 0))
         MutexUninit.

Record HID_SIO_OUT_REPORT_T : Type := mkOut {
  out_transId : Z;
  out_sesId : Z;
  out_req : Z;
  out_transfer_len : Z;
  out_packet_num : Z;
  out_packet_len : Z;
  out_data : list Z;
}.

Record HID_SIO_IN_REPORT_T : Type := mkIn {
  in_transId : Z;
  in_resp : Z;
  in_transfer_len : Z;
  in_packet_num : Z;
  in_packet_len : Z;
  in_data : list Z;
}.

Record I2C_PORTCONFIG_T : Type := mkI2CConfig {
  ClockRate : Z;
  Options : Z;
}.

(** [HID_SPI_PORTCONFIG_T] is declared in the protocol header; its fields
    are taken to be those of [SPI_PORTCONFIG_T] in lpcusbsio.h. *)
Record HID_SPI_PORTCONFIG_T : Type := mkSPIConfig {
  busSpeed : Z;
  spiOptions : Z;
}.

Definition HID_SPI_PORTCONFIG_bytes (c : HID_SPI_PORTCONFIG_T) : list Z :=
  to_le32 (busSpeed c) ++ to_le32 (spiOptions c).

Definition I2C_PORTCONFIG_bytes (c : I2C_PORTCONFIG_T) : list Z :=
  to_le32 (ClockRate c) ++ to_le32 (Options c).

(** ** The environment: replies and trace *)

Inductive reply : Type :=
| RLock (rc : Z)                              (* pthread_mutex_lock *)
| RUnlock (rc : Z)                            (* pthread_mutex_unlock *)
| RMutexInit (rc : Z)                         (* pthread_mutex_init *)
| RWrite (res : Z)                            (* hid_write *)
| RRead (res : Z) (pkt : HID_SIO_IN_REPORT_T) (* hid_read_timeout and inPacket after it *)
| ROpenPath (hid : ptr)                       (* hid_open_path *)
| RMalloc (p : ptr).                          (* malloc *)

Inductive event : Type :=
| EvLock (dev : ptr) (rc : Z)
| EvUnlock (dev : ptr) (rc : Z)
| EvWrite (hid : ptr) (pkt : HID_SIO_OUT_REPORT_T) (res : Z)
| EvRead (hid : ptr) (res : Z) (pkt : HID_SIO_IN_REPORT_T)
| EvOpenPath (info : ptr) (hid : ptr).

(** [g_Ctrl], [g_lastError], what is left of the script, and the trace. *)
Record State : Type := mkState {
  g_devInfoList : list ptr;
  g_devList : list (ptr * LPCUSBSIO_Ctrl_t);
  g_lastError : Z;
  script : list reply;
  trace : list event;
}.

(** ** The monad of library calls *)

Definition M (A : Type) : Type := State -> outcome (A * State).

Definition ret {A} (a : A) : M A := fun s => Ret (a, s).

Definition bind {A B} (m : M A) (k : A -> M B) : M B :=
  fun s => match m s with
           | Ret (a, s') => k a s'
           | Fault => Fault
           | Stuck => Stuck
           end.

Notation "x <- m ;; k" := (bind m (fun x => k))
  (at level 100, m at next level, right associativity).
Notation "m ;;; k" := (bind m (fun _ => k))
  (at level 100, right associativity).

Definition fault {A} : M A := fun _ => Fault.
Definition stuck {A} : M A := fun _ => Stuck.
Definition lift {A} (o : outcome A) : M A :=
  fun s => match o with Ret a => Ret (a, s) | Fault => Fault | Stuck => Stuck end.

Definition get_devList : M (list (ptr * LPCUSBSIO_Ctrl_t)) :=
  fun s => Ret (g_devList s, s).
Definition put_devList (l : list (ptr * LPCUSBSIO_Ctrl_t)) : M unit :=
  fun s => Ret (tt, mkState (g_devInfoList s) l (g_lastError s) (script s) (trace s)).
Definition set_lastError (e : Z) : M unit :=
  fun s => Ret (tt, mkState (g_devInfoList s) (g_devList s) e (script s) (trace s)).
Definition emit (e : event) : M unit :=
  fun s => Ret (tt, mkState (g_devInfoList s) (g_devList s) (g_lastError s) (script s)
                            (trace s ++ [e])).
(** The next reply of the script. *)
Definition ask : M reply :=
  fun s => match script s with
           | [] => Stuck
           | r :: rest =>
               Ret (r, mkState (g_devInfoList s) (g_devList s) (g_lastError s) rest (trace s))
           end.
(** A bound on the calls a run can still make: each consumes a reply. *)
Definition replies_left : M nat := fun s => Ret (S (List.length (script s)), s).

(** ** Memory: the live control blocks *)

Fixpoint lookup_dev (a : ptr) (l : list (ptr * LPCUSBSIO_Ctrl_t)) : option LPCUSBSIO_Ctrl_t :=
  match l with
  | [] => None
  | (b, c) :: l' => if a =? b then Some c else lookup_dev a l'
  end.

Fixpoint update_dev (a : ptr) (c : LPCUSBSIO_Ctrl_t) (l : list (ptr * LPCUSBSIO_Ctrl_t))
  : list (ptr * LPCUSBSIO_Ctrl_t) :=
  match l with
  | [] => []
  | (b, c0) :: l' => if a =? b then (b, c) :: l' else (b, c0) :: update_dev a c l'
  end.

(** [*dev]: a fault unless [dev] is the address of a live block. *)
Definition load_dev (dev : ptr) : M LPCUSBSIO_Ctrl_t :=
  l <- get_devList ;;
  match lookup_dev dev l with
  | Some c => ret c
  | None => fault
  end.

Definition store_dev (dev : ptr) (c : LPCUSBSIO_Ctrl_t) : M unit :=
  l <- get_devList ;;
  match lookup_dev dev l with
  | Some _ => put_devList (update_dev dev c l)
  | None => fault
  end.

(** ** hidapi, pthread and the allocator *)

Definition hid_write (hid : ptr) (pkt : HID_SIO_OUT_REPORT_T) : M Z :=
  r <- ask ;;
  match r with
  | RWrite res => emit (EvWrite hid pkt res) ;;; ret res
  | _ => stuck
  end.

Definition hid_read_timeout (hid : ptr) : M (Z * HID_SIO_IN_REPORT_T) :=
  r <- ask ;;
  match r with
  | RRead res pkt => emit (EvRead hid res pkt) ;;; ret (res, pkt)
  | _ => stuck
  end.

Definition hid_open_path (info : ptr) : M ptr :=
  r <- ask ;;
  match r with
  | ROpenPath hid => emit (EvOpenPath info hid) ;;; ret hid
  | _ => stuck
  end.

Definition malloc : M ptr :=
  r <- ask ;;
  match r with
  | RMalloc p => ret p
  | _ => stuck
  end.

(** [pthread_mutex_lock(&dev->sioMutex)].  A guard that is held makes the
    caller wait; in a run of one thread nobody releases it. *)
Definition pthread_mutex_lock (dev : ptr) : M Z :=
  c <- load_dev dev ;;
  match sioMutex c with
  | MutexUninit => fault
  | MutexHeld => stuck
  | MutexFree =>
      r <- ask ;;
      match r with
      | RLock rc =>
          emit (EvLock dev rc) ;;;
          (if rc =? 0 then store_dev dev (set_sioMutex MutexHeld c) else ret tt) ;;;
          ret rc
      | _ => stuck
      end
  end.

Definition pthread_mutex_unlock (dev : ptr) : M Z :=
  c <- load_dev dev ;;
  match sioMutex c with
  | MutexHeld =>
      r <- ask ;;
      match r with
      | RUnlock rc =>
          emit (EvUnlock dev rc) ;;;
          (if rc =? 0 then store_dev dev (set_sioMutex MutexFree c) else ret tt) ;;;
          ret rc
      | _ => stuck
      end
  | _ => fault
  end.

Definition pthread_mutex_init (dev : ptr) : M Z :=
  c <- load_dev dev ;;
  r <- ask ;;
  match r with
  | RMutexInit rc =>
      (if rc =? 0 then store_dev dev (set_sioMutex MutexFree c) else ret tt) ;;;
      ret rc
  | _ => stuck
  end.

(** ** Handle validation *)

(** The address [curDev] holds when the rest of the list is [l]. *)
Definition head_ptr (l : list (ptr * LPCUSBSIO_Ctrl_t)) : ptr :=
  match l with
  | [] => NULL
  | (a, _) :: _ => a
  end.

(** [while (dev != curDev) curDev = curDev->next;] and the return statement.
    When [curDev] is [NULL] and differs from [dev], the loop body reads
    [curDev->next] through the null pointer. *)
Fixpoint validHandle_loop (dev : ptr) (l : list (ptr * LPCUSBSIO_Ctrl_t)) : outcome Z :=
  let curDev := head_ptr l in
  if dev =? curDev then Ret (if curDev =? NULL then 0 else 1)
  else match l with
       | [] => Fault
       | _ :: l' => validHandle_loop dev l'
       end.

Definition validHandle (dev : ptr) : M Z :=
  l <- get_devList ;;
  lift (validHandle_loop dev l).

(** The port tables and capability counts of a control block. *)
Definition same_ports (c c' : LPCUSBSIO_Ctrl_t) : Prop :=
  i2cPorts c' = i2cPorts c /\ spiPorts c' = spiPorts c
  /\ maxI2CPorts c' = maxI2CPorts c /\ maxSPIPorts c' = maxSPIPorts c.

Section WithLayout.
Context {abi : Layout}.

Definition i2cPorts_addr (dev : ptr) : Z := dev + offsetof_i2cPorts.

(** [&dev->i2cPorts[k]] for k below 8, [&dev->spiPorts[k - 8]] from 8 on. *)
Definition slot_addr (dev : ptr) (k : Z) : ptr := i2cPorts_addr dev + k * sizeof_PortCtrl.

Fixpoint validPortHandle_loop (portAdr : Z) (l : list (ptr * LPCUSBSIO_Ctrl_t)) : Z :=
  match l with
  | [] => 0
  | (curDev, _) :: l' =>
      let lowAdr := i2cPorts_addr curDev in
      let highAdr := lowAdr + (MAX_I2C_PORTS + MAX_SPI_PORTS) * sizeof_PortCtrl in
      if (portAdr >=? lowAdr) && (portAdr <=? highAdr) then 1
      else validPortHandle_loop portAdr l'
  end.

Definition validPortHandle (hPort : ptr) : M Z :=
  l <- get_devList ;;
  ret (validPortHandle_loop hPort l).

(** The control block and the slot number (0..15) a port pointer refers to:
    the first live block one of whose sixteen slots starts at that address. *)
Fixpoint find_slot (h : ptr) (l : list (ptr * LPCUSBSIO_Ctrl_t)) : option (ptr * Z) :=
  match l with
  | [] => None
  | (a, _) :: l' =>
      let off := h - i2cPorts_addr a in
      if (0 <=? off) && (off <? (MAX_I2C_PORTS + MAX_SPI_PORTS) * sizeof_PortCtrl)
         && (off mod sizeof_PortCtrl =? 0)
      then Some (a, off / sizeof_PortCtrl)
      else find_slot h l'
  end.

Definition get_slot (c : LPCUSBSIO_Ctrl_t) (k : Z) : option LPCUSBSIO_PortCtrl_t :=
  if k <? MAX_I2C_PORTS then i2cPorts c !! Z.to_nat k
  else spiPorts c !! Z.to_nat (k - MAX_I2C_PORTS).

Definition set_slot (c : LPCUSBSIO_Ctrl_t) (k : Z) (p : LPCUSBSIO_PortCtrl_t) : LPCUSBSIO_Ctrl_t :=
  if k <? MAX_I2C_PORTS then set_i2cPorts (<[Z.to_nat k := p]> (i2cPorts c)) c
  else set_spiPorts (<[Z.to_nat (k - MAX_I2C_PORTS) := p]> (spiPorts c)) c.

(** [*hPort] read through a port pointer. *)
Definition load_port (hPort : ptr) : M LPCUSBSIO_PortCtrl_t :=
  l <- get_devList ;;
  match find_slot hPort l with
  | Some (a, k) =>
      match lookup_dev a l with
      | Some c => match get_slot c k with Some p => ret p | None => fault end
      | None => fault
      end
  | None => fault
  end.

Definition store_port (hPort : ptr) (p : LPCUSBSIO_PortCtrl_t) : M unit :=
  l <- get_devList ;;
  match find_slot hPort l with
  | Some (a, k) =>
      match lookup_dev a l with
      | Some c => put_devList (update_dev a (set_slot c k p) l)
      | None => fault
      end
  | None => fault
  end.

(** The entry a port pointer refers to, if it refers to one. *)
Definition port_at (hPort : ptr) (s : State) : option LPCUSBSIO_PortCtrl_t :=
  match find_slot hPort (g_devList s) with
  | Some (a, k) =>
      match lookup_dev a (g_devList s) with
      | Some c => get_slot c k
      | None => None
      end
  | None => None
  end.

(** The registry after an exchange: the same blocks at the same addresses,
    each with its port tables and capability counts. *)
Definition ports_kept (l l' : list (ptr * LPCUSBSIO_Ctrl_t)) : Prop :=
  map fst l' = map fst l
  /\ forall a c, lookup_dev a l = Some c ->
                 exists c', lookup_dev a l' = Some c' /\ same_ports c c'.

End WithLayout.

(** ** The transaction engine *)

Section Engine.
Context {proto : Protocol}.

Definition ConvertResp (res : Z) : Z :=
  if res =? HID_SIO_RES_OK then LPCUSBSIO_OK else - (res + 0x10).

(** The completion test of the read phase, on the fields of one report. *)
Definition transfer_complete (pIn : HID_SIO_IN_REPORT_T) : bool :=
  in_packet_num pIn * HID_SIO_PACKET_SZ + in_packet_len pIn =? in_transfer_len pIn.

(** The [do ... while ((res > 0) && (outLen > 0))] loop.  [pOut] is the
    report header as the previous round left it, [outData] the bytes from
    the cursor on.  Every round makes one [hid_write], so [fuel] rounds are
    enough when [fuel] exceeds the replies left. *)
Fixpoint write_loop (fuel : nat) (hid : ptr) (pOut : HID_SIO_OUT_REPORT_T)
    (outData : list Z) (outLen : Z) : M Z :=
  match fuel with
  | O => stuck
  | S fuel' =>
      let oneTx := if outLen >? HID_SIO_PACKET_DATA_SZ then HID_SIO_PACKET_DATA_SZ else outLen in
      if Z.of_nat (List.length outData) <? oneTx then fault (* memcpy reads past the caller's buffer *)
      else
        let pkt := mkOut (out_transId pOut) (out_sesId pOut) (out_req pOut)
                         (out_transfer_len pOut) (out_packet_num pOut)
                         (wrap PACKET_LEN_BITS (oneTx + HID_SIO_PACKET_HEADER_SZ))
                         (take (Z.to_nat oneTx) outData
                            ++ replicate (Z.to_nat (HID_SIO_PACKET_DATA_SZ - oneTx)) 0) in
        res <- hid_write hid pkt ;;
        let outLen := outLen - oneTx in
        let outData := drop (Z.to_nat oneTx) outData in
        let pOut := mkOut (out_transId pkt) (out_sesId pkt) (out_req pkt)
                          (out_transfer_len pkt)
                          (wrap PACKET_NUM_BITS (out_packet_num pkt + 1))
                          (out_packet_len pkt) (out_data pkt) in
        if (res >? 0) && (outLen >? 0) then write_loop fuel' hid pOut outData outLen
        else ret res
  end.

(** The [while ((res > 0) && (read_pending))] loop, entered with
    [read_pending = 1].  [inLen] tells whether the caller passed a length
    pointer (and then a destination); [acc] is what has been copied to the
    destination so far, so [*inLen] is its length. *)
Fixpoint read_loop (fuel : nat) (hid : ptr) (tid : Z) (inLen : bool)
    (res : Z) (acc : list Z) : M (Z * list Z) :=
  if res >? 0 then
    match fuel with
    | O => stuck
    | S fuel' =>
        r <- hid_read_timeout hid ;;
        let res := fst r in
        let pIn := snd r in
        if res >? 0 then
          if negb (in_transId pIn =? tid) then
            (* may be a previous response: discard it *)
            read_loop fuel' hid tid inLen res acc
          else if in_resp pIn =? HID_SIO_RES_OK then
            let n := in_packet_len pIn - HID_SIO_PACKET_HEADER_SZ in
            if inLen && ((n <? 0) || (Z.of_nat (List.length (in_data pIn)) <? n)) then fault
            else
              let acc := if inLen then acc ++ take (Z.to_nat n) (in_data pIn) else acc in
              if transfer_complete pIn then ret (LPCUSBSIO_OK, acc)
              else read_loop fuel' hid tid inLen res acc
          else ret (ConvertResp (in_resp pIn), acc)
        else if res =? 0 then ret (LPCUSBSIO_ERR_TIMEOUT, acc)
        else ret (res, acc)
    end
  else ret (res, acc).

(** From the "Start Read" comment to the return statement: the read loop,
    the release of the guard, and the result. *)
Definition read_phase (dev hid : ptr) (tid : Z) (inLen : bool) (res : Z) : M (Z * list Z) :=
  fuel <- replies_left ;;
  r <- read_loop fuel hid tid inLen res [] ;;
  rc <- pthread_mutex_unlock dev ;;
  let res := if negb (rc =? 0) then LPCUSBSIO_ERR_SYNCHRONIZATION else fst r in
  set_lastError res ;;;
  ret (res, snd r).

(** [SIO_SendRequest].  [outData] is [None] for a null pointer; [inData]
    and [inLen] tell whether those pointers are non-null.  The result is
    the return value with the bytes stored through [inData] (the
    destination is the caller's: the function never learns its size). *)
Definition SIO_SendRequest (dev : ptr) (portNum req : Z) (outData : option (list Z))
    (outDataLen : Z) (inData inLen : bool) : M (Z * list Z) :=
  let outLen := outDataLen in
  if ((outLen >? 0) && negb (is_Some_bool outData)) || (inLen && negb inData) then
    set_lastError LPCUSBSIO_ERR_INVALID_PARAM ;;;
    ret (LPCUSBSIO_ERR_INVALID_PARAM, [])
  else
    rc <- pthread_mutex_lock dev ;;
    if negb (rc =? 0) then
      set_lastError LPCUSBSIO_ERR_SYNCHRONIZATION ;;;
      ret (LPCUSBSIO_ERR_SYNCHRONIZATION, [])
    else
      set_lastError LPCUSBSIO_OK ;;;
      c <- load_dev dev ;;
      let tid := transId c in
      store_dev dev (set_transId (uint8 (tid + 1)) c) ;;;
      let pOut := mkOut tid portNum req
                        (wrap TRANSFER_LEN_BITS (HID_SIO_CALC_TRANSFER_LEN outLen)) 0 0 [] in
      fuel <- replies_left ;;
      res <- write_loop fuel (hidDev c) pOut (default [] outData) outLen ;;
      read_phase dev (hidDev c) tid inLen res.

End Engine.

(** ** The public functions *)

Section Api.
Context {proto : Protocol} {abi : Layout}.

Definition get_devInfoList : M (list ptr) := fun s => Ret (g_devInfoList s, s).

(** [GetDevAtIndex]: [count] runs along the discovery list. *)
Fixpoint GetDevAtIndex_loop (cur : list ptr) (count index : Z) : ptr :=
  match cur with
  | [] => NULL
  | cur_dev :: rest =>
      if count =? index then cur_dev else GetDevAtIndex_loop rest (count + 1) index
  end.

Definition GetDevAtIndex (index : Z) : M ptr :=
  l <- get_devInfoList ;;
  ret (GetDevAtIndex_loop l 0 index).

(** The text [sprintf] builds from "FW %d.%d %s". *)
Definition fwBuild_text (ver : Z) (tail : list Z) : string :=
  ("FW " ++ pretty (Z.shiftr ver 16) ++ "." ++ pretty (Z.land ver 0xFFFF)
     ++ " " ++ cstr tail)%string.

(** The parsing of the device-info response in [LPCUSBSIO_Open]: [inData]
    is the zeroed buffer of [12 + MAX_FWVER_STRLEN] bytes after the
    exchange stored [got] at its start. *)
Definition parse_dev_info (dev : ptr) (got : list Z) : M unit :=
  let inLen := Z.of_nat (List.length got) in
  let inData := got ++ replicate (Z.to_nat (12 + MAX_FWVER_STRLEN - inLen)) 0 in
  if inLen >=? 12 then
    c <- load_dev dev ;;
    let ver := le32 (drop 8 inData) in
    let txt := fwBuild_text ver (drop 12 inData) in
    if MAX_FWVER_STRLEN <=? Z.of_nat (String.length txt) then fault (* sprintf past fwBuild *)
    else store_dev dev
           (set_fwBuild txt
              (set_devInfo (nth 0 inData 0) (nth 1 inData 0) (nth 2 inData 0)
                           (le32 (drop 4 inData)) ver c))
  else ret tt.

(** [LPCUSBSIO_Open].  [inData] is a block of [12 + MAX_FWVER_STRLEN]
    bytes; the exchange stores the response there without knowing its
    size, whatever its result. *)
Definition LPCUSBSIO_Open (index : Z) : M ptr :=
  cur_dev <- GetDevAtIndex index ;;
  if cur_dev =? NULL then ret NULL
  else
    pHid <- hid_open_path cur_dev ;;
    if pHid =? NULL then ret NULL
    else
      dev <- malloc ;;
      if dev =? NULL then ret NULL
      else
        l <- get_devList ;;
        match lookup_dev dev l with
        | Some _ => stuck (* no allocator hands out a block that is still live *)
        | None =>
            set_lastError LPCUSBSIO_OK ;;;
            (* insert at top *)
            put_devList ((dev, zeroed_Ctrl pHid cur_dev) :: l) ;;;
            inData <- malloc ;;
            res <- pthread_mutex_init dev ;;
            if negb (res =? 0) then
              set_lastError LPCUSBSIO_ERR_MUTEX_CREATE ;;;
              ret NULL
            else if inData =? NULL then ret dev
            else
              r <- SIO_SendRequest dev 0 HID_SIO_REQ_DEV_INFO None 0 true true ;;
              let inLen := Z.of_nat (List.length (snd r)) in
              if 12 + MAX_FWVER_STRLEN <? inLen then
                fault (* the response went past the block of inData *)
              else
                (if fst r =? LPCUSBSIO_OK then parse_dev_info dev (snd r)
                 else (c <- load_dev dev ;; store_dev dev (set_fwBuild g_fwInitVer c))) ;;;
                ret dev
        end.

(** [tbl[k] = p] on one of the two port tables of a control block. *)
Definition table_store (tbl : list LPCUSBSIO_PortCtrl_t) (k : Z) (p : LPCUSBSIO_PortCtrl_t)
  : option (list LPCUSBSIO_PortCtrl_t) :=
  if (0 <=? k) && (k <? Z.of_nat (List.length tbl)) then Some (<[Z.to_nat k := p]> tbl)
  else None.

Definition I2C_Open (hUsbSio : ptr) (config : option I2C_PORTCONFIG_T) (portNum : Z) : M ptr :=
  let dev := hUsbSio in
  let reject := set_lastError LPCUSBSIO_ERR_INVALID_PARAM ;;; ret NULL in
  v <- validHandle hUsbSio ;;
  if v =? 0 then reject
  else
    match config with
    | None => reject
    | Some cfg =>
        c <- load_dev dev ;;
        if portNum >=? maxI2CPorts c then reject
        else
          outData <- malloc ;;
          if outData =? NULL then ret NULL
          else
            let bytes := I2C_PORTCONFIG_bytes cfg in
            r <- SIO_SendRequest dev portNum HID_I2C_REQ_INIT_PORT (Some bytes)
                                 (Z.of_nat (List.length bytes)) false false ;;
            if fst r =? LPCUSBSIO_OK then
              c <- load_dev dev ;;
              match table_store (i2cPorts c) portNum (mkPort dev portNum) with
              | Some t =>
                  store_dev dev (set_i2cPorts t c) ;;;
                  ret (slot_addr dev portNum)
              | None => fault
              end
            else ret NULL
    end.

Definition I2C_Close (hI2C : ptr) : M Z :=
  v <- validPortHandle hI2C ;;
  if v =? 0 then
    set_lastError LPCUSBSIO_ERR_BAD_HANDLE ;;; ret LPCUSBSIO_ERR_BAD_HANDLE
  else
    devI2c <- load_port hI2C ;;
    r <- SIO_SendRequest (hUsbSio devI2c) (portNum devI2c) HID_I2C_REQ_DEINIT_PORT
                         None 0 false false ;;
    let res := fst r in
    (if res =? LPCUSBSIO_OK then store_port hI2C (mkPort NULL 0) else ret tt) ;;;
    ret res.

Definition I2C_Reset (hI2C : ptr) : M Z :=
  v <- validPortHandle hI2C ;;
  if v =? 0 then
    set_lastError LPCUSBSIO_ERR_BAD_HANDLE ;;; ret LPCUSBSIO_ERR_BAD_HANDLE
  else
    devI2c <- load_port hI2C ;;
    r <- SIO_SendRequest (hUsbSio devI2c) (portNum devI2c) HID_I2C_REQ_RESET
                         None 0 false false ;;
    ret (fst r).

(** [buffer] is [None] for a null pointer, else the caller's bytes. *)
Definition I2C_DeviceWrite (hI2C : ptr) (deviceAddress : Z) (buffer : option (list Z))
    (sizeToTransfer options : Z) : M Z :=
  v <- validPortHandle hI2C ;;
  if v =? 0 then
    set_lastError LPCUSBSIO_ERR_BAD_HANDLE ;;; ret LPCUSBSIO_ERR_BAD_HANDLE
  else
    devI2c <- load_port hI2C ;;
    let dev := hUsbSio devI2c in
    c <- load_dev dev ;;
    if (sizeToTransfer >? maxDataSize c)
       || ((sizeToTransfer >? 0) && negb (is_Some_bool buffer))
       || (deviceAddress >? 127) then
      set_lastError LPCUSBSIO_ERR_INVALID_PARAM ;;; ret LPCUSBSIO_ERR_INVALID_PARAM
    else
      let param := HID_I2C_RW_PARAMS_bytes sizeToTransfer options deviceAddress in
      outData <- malloc ;;
      if outData =? NULL then
        set_lastError LPCUSBSIO_ERR_MEM_ALLOC ;;; ret LPCUSBSIO_ERR_MEM_ALLOC
      else
        let data := default [] buffer in
        if Z.of_nat (List.length data) <? sizeToTransfer then fault
        else
          let bytes := param ++ take (Z.to_nat sizeToTransfer) data in
          r <- SIO_SendRequest dev (portNum devI2c) HID_I2C_REQ_DEVICE_WRITE (Some bytes)
                               (Z.of_nat (List.length param) + sizeToTransfer) false false ;;
          ret (if fst r =? LPCUSBSIO_OK then sizeToTransfer else fst r).

Definition SPI_Open (hUsbSio : ptr) (config : option HID_SPI_PORTCONFIG_T) (portNum : Z) : M ptr :=
  let dev := hUsbSio in
  let reject := set_lastError LPCUSBSIO_ERR_INVALID_PARAM ;;; ret NULL in
  v <- validHandle hUsbSio ;;
  if v =? 0 then reject
  else
    match config with
    | None => reject
    | Some cfg =>
        c <- load_dev dev ;;
        if portNum >=? maxSPIPorts c then reject
        else
          outData <- malloc ;;
          if outData =? NULL then ret NULL
          else
            let bytes := HID_SPI_PORTCONFIG_bytes cfg in
            r <- SIO_SendRequest dev portNum HID_SPI_REQ_INIT_PORT (Some bytes)
                                 (Z.of_nat (List.length bytes)) false false ;;
            if fst r =? LPCUSBSIO_OK then
              c <- load_dev dev ;;
              match table_store (spiPorts c) portNum (mkPort dev portNum) with
              | Some t =>
                  store_dev dev (set_spiPorts t c) ;;;
                  ret (slot_addr dev (MAX_I2C_PORTS + portNum))
              | None => fault
              end
            else ret NULL
    end.

Definition SPI_Close (hSPI : ptr) : M Z :=
  v <- validPortHandle hSPI ;;
  if v =? 0 then
    set_lastError LPCUSBSIO_ERR_BAD_HANDLE ;;; ret LPCUSBSIO_ERR_BAD_HANDLE
  else
    devSPI <- load_port hSPI ;;
    r <- SIO_SendRequest (hUsbSio devSPI) (portNum devSPI) HID_SPI_REQ_DEINIT_PORT
                         None 0 false false ;;
    let res := fst r in
    (if res =? LPCUSBSIO_OK then store_port hSPI (mkPort NULL 0) else ret tt) ;;;
    ret res.

End Api.

(** ** Vocabulary of the statements *)

Definition st_devList (l : list (ptr * LPCUSBSIO_Ctrl_t)) (s : State) : State :=
  mkState (g_devInfoList s) l (g_lastError s) (script s) (trace s).
Definition st_lastError (e : Z) (s : State) : State :=
  mkState (g_devInfoList s) (g_devList s) e (script s) (trace s).
Definition st_io (sc : list reply) (tr : list event) (s : State) : State :=
  mkState (g_devInfoList s) (g_devList s) (g_lastError s) sc tr.

(** The guard of the session at [dev], if that session is live. *)
Definition guard_of (dev : ptr) (s : State) : option mutex :=
  sioMutex <$> lookup_dev dev (g_devList s).

(** An outcome that is a message of the given table. *)
Definition msg_in (tbl : list string) (o : outcome string) : Prop :=
  exists s, o = Ret s /\ In s tbl.

Definition RRead' (r : Z * HID_SIO_IN_REPORT_T) : reply := RRead (fst r) (snd r).
Definition EvRead' (hid : ptr) (r : Z * HID_SIO_IN_REPORT_T) : event :=
  EvRead hid (fst r) (snd r).

(** The state once the reads [rs] are consumed and logged, [rest] being
    what is left of the script. *)
Definition after_reads (hid : ptr) (rs : list (Z * HID_SIO_IN_REPORT_T)) (rest : list reply)
    (s : State) : State :=
  mkState (g_devInfoList s) (g_devList s) (g_lastError s) rest
          (trace s ++ map (EvRead' hid) rs).

Section EngineVocabulary.
Context {proto : Protocol}.

(** The size of the chunk the write loop sends when [outLen] bytes are left. *)
Definition oneTx_of (outLen : Z) : Z :=
  if outLen >? HID_SIO_PACKET_DATA_SZ then HID_SIO_PACKET_DATA_SZ else outLen.

(** The number of frames a payload of [outLen] bytes takes: one per full
    chunk, one for what is left, and one in any case. *)
Definition frames_needed (outLen : Z) : nat :=
  Z.to_nat (Z.max 1 ((outLen + HID_SIO_PACKET_DATA_SZ - 1) / HID_SIO_PACKET_DATA_SZ)).

(** The completion identity in the words of the specification: sequence
    number times the per-frame payload capacity, plus the packet length. *)
Definition spec_transfer_complete (pIn : HID_SIO_IN_REPORT_T) : bool :=
  in_packet_num pIn * HID_SIO_PACKET_DATA_SZ + in_packet_len pIn =? in_transfer_len pIn.

(** The payload bytes of a report, as the read loop copies them. *)
Definition payload_of (pIn : HID_SIO_IN_REPORT_T) : list Z :=
  take (Z.to_nat (in_packet_len pIn - HID_SIO_PACKET_HEADER_SZ)) (in_data pIn).

(** The copy of the payload stays inside the report ([inLen] non-null). *)
Definition copy_ok (inLen : bool) (pIn : HID_SIO_IN_REPORT_T) : bool :=
  negb (inLen && ((in_packet_len pIn - HID_SIO_PACKET_HEADER_SZ <? 0)
                  || (Z.of_nat (List.length (in_data pIn))
                      <? in_packet_len pIn - HID_SIO_PACKET_HEADER_SZ))).

(** A read that delivered a report of some other transaction. *)
Definition stale (tid : Z) (r : Z * HID_SIO_IN_REPORT_T) : bool :=
  (fst r >? 0) && negb (in_transId (snd r) =? tid).

(** A read that delivered a report of this transaction with status OK. *)
Definition accepted (tid : Z) (inLen : bool) (r : Z * HID_SIO_IN_REPORT_T) : bool :=
  (fst r >? 0) && (in_transId (snd r) =? tid) && (in_resp (snd r) =? HID_SIO_RES_OK)
  && copy_ok inLen (snd r).

(** A read after which the loop reads again. *)
Definition keeps_reading (tid : Z) (inLen : bool) (r : Z * HID_SIO_IN_REPORT_T) : bool :=
  stale tid r || (accepted tid inLen r && negb (transfer_complete (snd r))).

(** What a sequence of reads appends to the caller's buffer. *)
Definition gathered (tid : Z) (inLen : bool) (rs : list (Z * HID_SIO_IN_REPORT_T)) : list Z :=
  flat_map (fun r => if stale tid r then [] else if inLen then payload_of (snd r) else []) rs.

(** The value [res] holds after a sequence of reads. *)
Definition last_res (res : Z) (rs : list (Z * HID_SIO_IN_REPORT_T)) : Z :=
  List.last (map fst rs) res.

End EngineVocabulary.


(** What a phase leaves alone: the registry and the log so far. *)
Definition io_only (s s' : State) : Prop :=
  g_devInfoList s' = g_devInfoList s /\ g_devList s' = g_devList s
  /\ exists tr, trace s' = trace s ++ tr.

Definition is_write (e : event) : Prop :=
  match e with EvWrite _ _ _ => True | _ => False end.

(** The value a run returns, without the state. *)
Definition returned {A} (o : outcome (A * State)) : outcome A :=
  match o with
  | Ret (a, _) => Ret a
  | Fault => Fault
  | Stuck => Stuck
  end.

(** The reports written to the transport, in order. *)
Definition writes_of (tr : list event) : list HID_SIO_OUT_REPORT_T :=
  flat_map (fun e => match e with EvWrite _ pkt _ => [pkt] | _ => [] end) tr.

(** The state with a new script of replies for the calls to come. *)
Definition with_script (sc : list reply) (s : State) : State := st_io sc (trace s) s.

(** ** Scenarios *)

(** A report of transaction 3, received while transaction 7 is outstanding. *)
Definition stale_report : HID_SIO_IN_REPORT_T := mkIn 3 0 4 0 4 [].

(** A live session at 0x1000: guard free, transaction counter at 7, four
    I2C ports and two SPI ports reported by the device. *)
Definition session0 : LPCUSBSIO_Ctrl_t :=
  mkCtrl 0x500 0x600 7 4 2 1 1024 0x10003 "FW 1.3"
         (replicate 8 (mkPort NULL 0)) (replicate 8 (mkPort NULL 0)) MutexFree.

Definition world0 (sc : list reply) : State :=
  mkState [0x500] [(0x1000, session0)] 0 sc [].

(** The same world in the middle of an exchange: the guard is held. *)
Definition world0_held (sc : list reply) : State :=
  mkState [0x500] [(0x1000, set_sioMutex MutexHeld session0)] 0 sc [].

(** The session with I2C port 0 open, and the handle [I2C_Open] returned
    for it. *)
Definition session_open : LPCUSBSIO_Ctrl_t :=
  set_i2cPorts (<[0%nat := mkPort 0x1000 0]> (i2cPorts session0)) session0.

Definition world_open (sc : list reply) : State :=
  mkState [0x500] [(0x1000, session_open)] 0 sc [].

Definition port0_handle : ptr := @slot_addr lp64_layout 0x1000 0.

(** A status-only report of transaction [t] with status OK. *)
Definition ack (t : Z) : HID_SIO_IN_REPORT_T := mkIn t 0 4 0 4 [].

(** A response of 80 payload bytes in two reports of transaction 7: a full
    one (60 bytes) and one with the remaining 20; the transfer length 88
    counts both headers. *)
Definition first_report : HID_SIO_IN_REPORT_T := mkIn 7 0 88 0 64 (replicate 60 1).
Definition second_report : HID_SIO_IN_REPORT_T := mkIn 7 0 88 1 24 (replicate 60 2).

(** A second report whose transfer length is the one the capacity-based
    identity asks for: 1 * 60 + 24. *)
Definition capacity_report : HID_SIO_IN_REPORT_T := mkIn 7 0 84 1 24 (replicate 60 2).

(** A device-info response that reports nine I2C ports. *)
Definition nine_ports_info : HID_SIO_IN_REPORT_T :=
  mkIn 0 0 20 0 20 [9; 2; 1; 0;  0; 4; 0; 0;  3; 0; 1; 0;  65; 66; 0; 0].

(** No session open, one device in the discovery list. *)
Definition world_closed (sc : list reply) : State := mkState [0x500] [] 0 sc [].


(** ** Vocabulary of the exchange *)

Definition EvWrite' (hid : ptr) (x : HID_SIO_OUT_REPORT_T * Z) : event :=
  EvWrite hid (fst x) (snd x).

(** The state in which the read phase starts: the guard held, the
    transaction counter advanced, the frames [tw] logged. *)
Definition written (dev : ptr) (c : LPCUSBSIO_Ctrl_t) (rest : list reply) (tw : list event)
    (s : State) : State :=
  mkState (g_devInfoList s)
          (update_dev dev (set_transId (uint8 (transId c + 1)) (set_sioMutex MutexHeld c))
                      (g_devList s))
          LPCUSBSIO_OK rest (trace s ++ EvLock dev 0 :: tw).

(** The parameter check at the head of [SIO_SendRequest]. *)
Definition rejects (outData : option (list Z)) (outDataLen : Z) (inData inLen : bool) : bool :=
  ((outDataLen >? 0) && negb (is_Some_bool outData)) || (inLen && negb inData).

(** A request is well formed: the pointers the lengths ask for are there,
    and [outData] holds the bytes its length announces. *)
Definition request_ok (outData : option (list Z)) (outDataLen : Z) (inData inLen : bool) : Prop :=
  rejects outData outDataLen inData inLen = false
  /\ 0 <= outDataLen <= Z.of_nat (List.length (default [] outData)).

(** Two output reports with the same transaction id, port, request and
    transfer length. *)
Definition same_header (p f : HID_SIO_OUT_REPORT_T) : Prop :=
  out_transId f = out_transId p /\ out_sesId f = out_sesId p /\ out_req f = out_req p
  /\ out_transfer_len f = out_transfer_len p.

Section ExchangeVocabulary.
Context {proto : Protocol}.

(** What a read that ends the loop makes of the exchange: the return value
    and the bytes it adds to the caller's buffer. *)
Definition ends (tid : Z) (inLen : bool) (r : Z * HID_SIO_IN_REPORT_T) : option (Z * list Z) :=
  if fst r >? 0 then
    if negb (in_transId (snd r) =? tid) then None
    else if in_resp (snd r) =? HID_SIO_RES_OK then
      if copy_ok inLen (snd r) && transfer_complete (snd r)
      then Some (LPCUSBSIO_OK, if inLen then payload_of (snd r) else [])
      else None
    else Some (ConvertResp (in_resp (snd r)), [])
  else if fst r =? 0 then Some (LPCUSBSIO_ERR_TIMEOUT, [])
  else Some (fst r, []).

(** The part of a frame's data field that its packet length announces. *)
Definition used_of (f : HID_SIO_OUT_REPORT_T) : list Z :=
  take (Z.to_nat (out_packet_len f - HID_SIO_PACKET_HEADER_SZ)) (out_data f).

(** The packet numbers of [n] frames in a row, the first being [start]. *)
Fixpoint packet_numbers (start : Z) (n : nat) : list Z :=
  match n with
  | O => []
  | S n' => start :: packet_numbers (wrap PACKET_NUM_BITS (start + 1)) n'
  end.

(** The three ways an exchange returns. *)
Inductive exchange (dev : ptr) (portNum req : Z) (outData : option (list Z)) (outDataLen : Z)
    (inData inLen : bool) (s : State) (r : Z * list Z) (s' : State) : Prop :=
| ex_rejected :
    rejects outData outDataLen inData inLen = true ->
    r = (LPCUSBSIO_ERR_INVALID_PARAM, []) ->
    s' = st_lastError LPCUSBSIO_ERR_INVALID_PARAM s ->
    exchange dev portNum req outData outDataLen inData inLen s r s'
| ex_no_guard c rc sc :
    rejects outData outDataLen inData inLen = false ->
    lookup_dev dev (g_devList s) = Some c -> sioMutex c = MutexFree ->
    script s = RLock rc :: sc -> rc <> 0 ->
    r = (LPCUSBSIO_ERR_SYNCHRONIZATION, []) ->
    s' = mkState (g_devInfoList s) (g_devList s) LPCUSBSIO_ERR_SYNCHRONIZATION sc
                 (trace s ++ [EvLock dev rc]) ->
    exchange dev portNum req outData outDataLen inData inLen s r s'
| ex_done c sc w s2 r0 s3 rc sc' :
    rejects outData outDataLen inData inLen = false ->
    lookup_dev dev (g_devList s) = Some c -> sioMutex c = MutexFree ->
    script s = RLock 0 :: sc ->
    write_loop (S (List.length sc)) (hidDev c)
      (mkOut (transId c) portNum req
             (wrap TRANSFER_LEN_BITS (HID_SIO_CALC_TRANSFER_LEN outDataLen)) 0 0 [])
      (default [] outData) outDataLen (written dev c sc [] s) = Ret (w, s2) ->
    read_loop (S (List.length (script s2))) (hidDev c) (transId c) inLen w [] s2 = Ret (r0, s3) ->
    script s3 = RUnlock rc :: sc' ->
    r = (if rc =? 0 then fst r0 else LPCUSBSIO_ERR_SYNCHRONIZATION, snd r0) ->
    s' = mkState (g_devInfoList s)
           (update_dev dev
              (set_sioMutex (if rc =? 0 then MutexFree else MutexHeld)
                 (set_transId (uint8 (transId c + 1)) c))
              (g_devList s))
           (fst r) sc' (trace s3 ++ [EvUnlock dev rc]) ->
    exchange dev portNum req outData outDataLen inData inLen s r s'.

End ExchangeVocabulary.


(** ** Vocabulary of the registry *)

(** What [LPCUSBSIO_Open] puts in the block it creates and nothing
    changes afterwards. *)
Definition fresh_block (pHid cur_dev : ptr) (c : LPCUSBSIO_Ctrl_t) : Prop :=
  hidInfo c = cur_dev /\ hidDev c = pHid
  /\ i2cPorts c = replicate (Z.to_nat MAX_I2C_PORTS) (mkPort NULL 0)
  /\ spiPorts c = replicate (Z.to_nat MAX_SPI_PORTS) (mkPort NULL 0)
  /\ sioMutex c <> MutexUninit.

(** The capability fields as [memset] left them. *)
Definition no_capabilities (c : LPCUSBSIO_Ctrl_t) : Prop :=
  maxI2CPorts c = 0 /\ maxSPIPorts c = 0 /\ maxGPIOPorts c = 0 /\ maxDataSize c = 0
  /\ fwVersion c = 0.

(** The capability fields as parsed from the response [got]. *)
Definition capabilities_from (got : list Z) (c : LPCUSBSIO_Ctrl_t) : Prop :=
  12 <= Z.of_nat (List.length got)
  /\ maxI2CPorts c = nth 0 got 0 /\ maxSPIPorts c = nth 1 got 0 /\ maxGPIOPorts c = nth 2 got 0
  /\ maxDataSize c = le32 (drop 4 got) /\ fwVersion c = le32 (drop 8 got)
  /\ fwBuild c
     = fwBuild_text (fwVersion c)
         (drop 12 got
            ++ replicate (Z.to_nat (12 + MAX_FWVER_STRLEN - Z.of_nat (List.length got))) 0)
  /\ (String.length (fwBuild c) < Z.to_nat MAX_FWVER_STRLEN)%nat.

(** No table of another live block overlaps the table of the block at [h]. *)
Definition table_alone {abi : Layout} (h : ptr) (l : list (ptr * LPCUSBSIO_Ctrl_t)) : Prop :=
  Forall (fun x => fst x = h
                   \/ fst x + (MAX_I2C_PORTS + MAX_SPI_PORTS) * sizeof_PortCtrl <= h
                   \/ h + (MAX_I2C_PORTS + MAX_SPI_PORTS) * sizeof_PortCtrl <= fst x) l.

(** Opening device 0: the transport opens, both allocations succeed, and
    the device answers the information request. *)
Definition open_script : list reply :=
  [ROpenPath 0x600; RMalloc 0x1000; RMalloc 0x2000; RMutexInit 0;
   RLock 0; RWrite 65; RRead 64 (mkIn 0 0 20 0 20 [4; 2; 1; 0;  0; 4; 0; 0;  3; 0; 1; 0;  65; 66; 0; 0]);
   RUnlock 0].


(** ** Closing a session *)

Definition put_devInfoList (l : list ptr) : M unit :=
  fun s => Ret (tt, mkState l (g_devList s) (g_lastError s) (script s) (trace s)).

(** [pthread_mutex_destroy(&dev->sioMutex)]; the result is not looked at.
    Destroying a mutex that is locked, or one that was never initialised,
    is undefined. *)
Definition pthread_mutex_destroy (dev : ptr) : M unit :=
  c <- load_dev dev ;;
  match sioMutex c with
  | MutexFree => store_dev dev (set_sioMutex MutexUninit c)
  | _ => fault
  end.

(** The list without the block at [dev]: the head replaced by its
    successor, or the predecessor relinked. *)
Fixpoint remove_dev (dev : ptr) (l : list (ptr * LPCUSBSIO_Ctrl_t))
  : list (ptr * LPCUSBSIO_Ctrl_t) :=
  match l with
  | [] => []
  | (b, c) :: l' => if dev =? b then l' else (b, c) :: remove_dev dev l'
  end.

(** [freeDevice]: unlink, [free(dev)], and when no session is left free the
    discovery list and clear its pointer.  ([LibCleanup] then may call
    [hid_exit], which leaves no mark in this state.) *)
Definition freeDevice (dev : ptr) : M unit :=
  l <- get_devList ;;
  match lookup_dev dev l with
  | None => fault (* free of an address that is no live block *)
  | Some _ =>
      let l' := remove_dev dev l in
      put_devList l' ;;;
      match l' with
      | [] => put_devInfoList []
      | _ => ret tt
      end
  end.

(** A call keeps the addresses of the live blocks and the discovery list. *)
Definition addrs_kept (s s' : State) : Prop :=
  map fst (g_devList s') = map fst (g_devList s) /\ g_devInfoList s' = g_devInfoList s.

Section CloseSession.
Context {proto : Protocol} {abi : Layout}.

(** One of the two [for (i = 0; i < dev->max...Ports; i++)] loops of
    [LPCUSBSIO_Close]: [count] and [table] select the capability count and
    the port table, [close] is [I2C_Close] or [SPI_Close], and [base] the
    slot number of the table's first entry.  The index is a [uint8_t];
    an index outside the table is an access outside the array. *)
Fixpoint close_ports_loop (fuel : nat) (dev : ptr)
    (count : LPCUSBSIO_Ctrl_t -> Z) (table : LPCUSBSIO_Ctrl_t -> list LPCUSBSIO_PortCtrl_t)
    (close : ptr -> M Z) (base : Z) (i : Z) : M unit :=
  match fuel with
  | O => stuck
  | S fuel' =>
      c <- load_dev dev ;;
      if i <? count c then
        match table c !! Z.to_nat i with
        | None => fault
        | Some p =>
            (if hUsbSio p =? dev then close (slot_addr dev (base + i)) ;;; ret tt
             else ret tt) ;;;
            close_ports_loop fuel' dev count table close base (uint8 (i + 1))
        end
      else ret tt
  end.

(** [hid_close(dev->hidDev)] returns nothing and leaves no mark in this
    state. *)
Definition LPCUSBSIO_Close (hUsbSio : ptr) : M Z :=
  let dev := hUsbSio in
  v <- validHandle hUsbSio ;;
  if v =? 0 then
    set_lastError LPCUSBSIO_ERR_BAD_HANDLE ;;; ret LPCUSBSIO_ERR_BAD_HANDLE
  else
    close_ports_loop 257 dev maxI2CPorts i2cPorts I2C_Close 0 0 ;;;
    close_ports_loop 257 dev maxSPIPorts spiPorts SPI_Close MAX_I2C_PORTS 0 ;;;
    pthread_mutex_destroy dev ;;;
    freeDevice dev ;;;
    ret LPCUSBSIO_OK.

End CloseSession.

(** ** Enumeration of HID devices

    [g_hidapiEnums] is a chain of enumeration objects of its own, apart
    from [g_Ctrl].  The functions below pass it explicitly.  What the
    environment supplies is an argument: the device chain [hid_enumerate]
    returns, the block [calloc] returns, the handle [hid_open_path]
    returns if it is asked. *)

(** [struct hid_device_info], the fields the library reads; a device chain
    is a list of them. *)
Record hid_device_info : Type := mkHidInfo {
  path : option string;
  vendor_id : Z;
  product_id : Z;
  serial_number : option string;
  release_number : Z;
  manufacturer_string : option string;
  product_string : option string;
  interface_number : Z;
}.

Record HIDAPI_DEVICE_INFO_EX : Type := mkInfoEx {
  is_valid : Z;
  output_report_length : Z;
  input_report_length : Z;
  usage_page : Z;
  usage : Z;
}.

Record HIDAPI_DEVICE_INFO_T : Type := mkDevInfo {
  info_path : option string;
  info_serial_number : option string;
  info_manufacturer_string : option string;
  info_product_string : option string;
  info_interface_number : Z;
  info_vendor_id : Z;
  info_product_id : Z;
  info_release_number : Z;
  ex : HIDAPI_DEVICE_INFO_EX;
}.

(** [HIDAPI_ENUM_T]: [pos] points into the chain that starts at [head], so
    it is the rest of that chain from some device on, empty for NULL;
    [next_enum] is the position in [g_hidapiEnums]. *)
Record HIDAPI_ENUM_T : Type := mkEnum {
  enum_head : list hid_device_info;
  enum_pos : list hid_device_info;
  enum_ex_info : Z;
}.

Definition hidapiEnums := list (ptr * HIDAPI_ENUM_T).

Fixpoint lookup_enum (a : ptr) (g : hidapiEnums) : option HIDAPI_ENUM_T :=
  match g with
  | [] => None
  | (b, e) :: g' => if a =? b then Some e else lookup_enum a g'
  end.

Fixpoint update_enum (a : ptr) (e : HIDAPI_ENUM_T) (g : hidapiEnums) : hidapiEnums :=
  match g with
  | [] => []
  | (b, e0) :: g' => if a =? b then (b, e) :: g' else (b, e0) :: update_enum a e g'
  end.

(** [hid_get_report_lengths] and [hid_get_usage] of hid_api/freebsd/hid.c:
    constant answers. *)
Definition hid_get_report_lengths : Z * Z := (64, 64).
Definition hid_get_usage : Z * Z := (0, 0).

(** [memset(pInfo, 0, sizeof( *pInfo))], then the eight fields of the device. *)
Definition copied_info (dev : hid_device_info) (e : HIDAPI_DEVICE_INFO_EX)
  : HIDAPI_DEVICE_INFO_T :=
  mkDevInfo (path dev) (serial_number dev) (manufacturer_string dev) (product_string dev)
            (interface_number dev) (vendor_id dev) (product_id dev) (release_number dev) e.

(** [HIDAPI_Enumerate]: [devs] is what [hid_enumerate (vid, pid)] returned,
    [enm] what [calloc] returned. *)
Definition HIDAPI_Enumerate (devs : list hid_device_info) (enm : ptr) (read_ex_info : Z)
    (g : hidapiEnums) : outcome (ptr * hidapiEnums) :=
  if enm =? NULL then Ret (NULL, g)
  else match lookup_enum enm g with
       | Some _ => Stuck (* no allocator hands out a block that is still live *)
       | None => Ret (enm, (enm, mkEnum devs devs read_ex_info) :: g)
       end.

(** [HIDAPI_EnumerateNext]: [dd] is what [hid_open_path (dev->path)]
    returns if it is called; [pInfo] is the caller's structure before the
    call.  The result is the return value, [*pInfo] and the chain. *)
Definition HIDAPI_EnumerateNext (dd : ptr) (hHidEnum : ptr) (pInfo : HIDAPI_DEVICE_INFO_T)
    (g : hidapiEnums) : outcome (Z * HIDAPI_DEVICE_INFO_T * hidapiEnums) :=
  if hHidEnum =? NULL then Ret (0, pInfo, g)
  else
    match lookup_enum hHidEnum g with
    | None => Fault (* enm->head through a pointer to no live object *)
    | Some enm =>
        match enum_head enm, enum_pos enm with
        | [], _ | _, [] => Ret (0, pInfo, g)
        | _ :: _, dev :: next =>
            let g := update_enum hHidEnum (mkEnum (enum_head enm) next (enum_ex_info enm)) g in
            let e :=
              if negb (enum_ex_info enm =? 0) && is_Some_bool (path dev) then
                if negb (dd =? NULL) then
                  mkInfoEx 1 (fst hid_get_report_lengths) (snd hid_get_report_lengths)
                           (fst hid_get_usage) (snd hid_get_usage)
                else mkInfoEx 0 0 0 0 0
              else mkInfoEx 0 0 0 0 0 in
            Ret (1, copied_info dev e, g)
        end
    end.

Definition HIDAPI_EnumerateRewind (hHidEnum : ptr) (g : hidapiEnums)
  : outcome (Z * hidapiEnums) :=
  if hHidEnum =? NULL then Ret (0, g)
  else
    match lookup_enum hHidEnum g with
    | None => Fault
    | Some enm =>
        match enum_head enm with
        | [] => Ret (0, g)
        | _ :: _ =>
            Ret (1, update_enum hHidEnum
                      (mkEnum (enum_head enm) (enum_head enm) (enum_ex_info enm)) g)
        end
    end.

(** The walk along [g_hidapiEnums] through [ppE]: the chain without the
    first object at [enm], and whether there was one. *)
Fixpoint unlink_enum (enm : ptr) (g : hidapiEnums) : Z * hidapiEnums :=
  match g with
  | [] => (0, [])
  | (b, e) :: g' =>
      if b =? enm then (1, g')
      else let r := unlink_enum enm g' in (fst r, (b, e) :: snd r)
  end.

(** [HIDAPI_EnumerateFree]; the handle is compared, never dereferenced,
    until it is found in the chain. *)
Definition HIDAPI_EnumerateFree (hHidEnum : ptr) (g : hidapiEnums) : Z * hidapiEnums :=
  unlink_enum hHidEnum g.

(** [n] calls of [HIDAPI_EnumerateNext] in a row on one handle and one
    structure: the return value and the structure after each call. *)
Fixpoint EnumerateNext_times (n : nat) (dd hHidEnum : ptr) (pInfo : HIDAPI_DEVICE_INFO_T)
    (g : hidapiEnums) : outcome (list (Z * HIDAPI_DEVICE_INFO_T) * hidapiEnums) :=
  match n with
  | O => Ret ([], g)
  | S n' =>
      match HIDAPI_EnumerateNext dd hHidEnum pInfo g with
      | Ret (r, pInfo', g') =>
          match EnumerateNext_times n' dd hHidEnum pInfo' g' with
          | Ret (rs, g'') => Ret ((r, pInfo') :: rs, g'')
          | Fault => Fault
          | Stuck => Stuck
          end
      | Fault => Fault
      | Stuck => Stuck
      end
  end.

(** The extended information [HIDAPI_EnumerateNext] reports for a device. *)
Definition ex_of (dd : ptr) (ex_info : Z) (dev : hid_device_info) : HIDAPI_DEVICE_INFO_EX :=
  if negb (ex_info =? 0) && is_Some_bool (path dev) && negb (dd =? NULL)
  then mkInfoEx 1 64 64 0 0 else mkInfoEx 0 0 0 0 0.

(** Two devices as [hid_enumerate] may report them. *)
Definition probe_a : hid_device_info :=
  mkHidInfo (Some "/dev/uhid0"%string) 0x1FC9 0x0090 (Some "A1"%string) 0x100
            (Some "NXP"%string) (Some "LPCSIO"%string) 0.
Definition probe_b : hid_device_info :=
  mkHidInfo None 0x1FC9 0x0143 None 0x100 (Some "NXP"%string) (Some "MCUSIO"%string) 1.

(** ** Discovery

    [hid_enumerate] hands back a chain of [struct hid_device_info] nodes
    in memory; [LPCUSBSIO_GetNumPorts] unlinks and frees the nodes that
    are no Serial-I/O device, in place.  A heap maps the address of a
    node to its fields and its [next] pointer. *)

Record hid_node : Type := mkNode {
  node_info : hid_device_info;
  node_next : ptr;
}.

Definition hid_heap := ptr -> option hid_node.

Definition heap_store (h : hid_heap) (a : ptr) (n : hid_node) : hid_heap :=
  fun b => if b =? a then Some n else h b.

Definition heap_free (h : hid_heap) (a : ptr) : hid_heap :=
  fun b => if b =? a then None else h b.

(** [wcsncmp (s, name, 6) == 0] for a [name] of six characters. *)
Definition wcsncmp6_eq (s name : string) : bool := String.eqb (substring 0 6 s) name.

(** The loop of [LPCUSBSIO_GetNumPorts] (the branch for platforms other
    than macOS, where the product string tells the interface).
    [free_hid_dev (cur_dev)] clears the node's [next] and frees it.  Each
    round moves [cur_dev] one node on, so [fuel] rounds are enough when
    [fuel] exceeds the length of the chain. *)
Fixpoint GetNumPorts_loop (fuel : nat) (h : hid_heap) (devInfoList prev_dev cur_dev : ptr)
    (count : Z) : outcome (hid_heap * ptr * Z) :=
  match fuel with
  | O => Stuck
  | S fuel' =>
      if cur_dev =? NULL then Ret (h, devInfoList, count)
      else
        match h cur_dev with
        | None => Fault
        | Some n =>
            match product_string (node_info n) with
            | None => Fault (* wcsncmp reads through a null pointer *)
            | Some ps =>
                if negb (wcsncmp6_eq ps "LPCSIO") && negb (wcsncmp6_eq ps "MCUSIO") then
                  let temp_dev := node_next n in
                  (* Update head pointer if the head is removed *)
                  let devInfoList := if devInfoList =? cur_dev then temp_dev else devInfoList in
                  (* If previously valid device found then point it to next node *)
                  let relinked :=
                    if negb (prev_dev =? NULL) then
                      match h prev_dev with
                      | Some p => Ret (heap_store h prev_dev (mkNode (node_info p) temp_dev))
                      | None => Fault
                      end
                    else Ret h in
                  match relinked with
                  | Ret h' =>
                      GetNumPorts_loop fuel' (heap_free h' cur_dev) devInfoList prev_dev
                                       temp_dev count
                  | Fault => Fault
                  | Stuck => Stuck
                  end
                else GetNumPorts_loop fuel' h devInfoList cur_dev (node_next n) (count + 1)
            end
        end
  end.

(** [LPCUSBSIO_GetNumPorts] from the return of [hid_enumerate] on: [h] is
    the heap and [enumerated] the head of the chain at that point (the
    previous list, if any, has been freed).  The result is the heap,
    [g_Ctrl.devInfoList] and the count returned. *)
Definition LPCUSBSIO_GetNumPorts (fuel : nat) (h : hid_heap) (enumerated : ptr)
  : outcome (hid_heap * ptr * Z) :=
  GetNumPorts_loop fuel h enumerated NULL enumerated 0.

(** The chain of the nodes [l] (address and fields) from [p] to [q]. *)
Fixpoint chain_seg (h : hid_heap) (p : ptr) (l : list (ptr * hid_device_info)) (q : ptr)
  : Prop :=
  match l with
  | [] => p = q
  | (a, i) :: l' =>
      p = a /\ a <> NULL /\ exists nx, h a = Some (mkNode i nx) /\ chain_seg h nx l' q
  end.

(** A device the library keeps: its product string starts with LPCSIO or
    MCUSIO. *)
Definition is_sio (x : ptr * hid_device_info) : bool :=
  match product_string (snd x) with
  | Some ps => wcsncmp6_eq ps "LPCSIO" || wcsncmp6_eq ps "MCUSIO"
  | None => false
  end.

(** The heap that holds the chain of the nodes [l]. *)
Fixpoint heap_of (l : list (ptr * hid_device_info)) : hid_heap :=
  match l with
  | [] => fun _ => None
  | (a, i) :: l' =>
      heap_store (heap_of l') a (mkNode i (match l' with [] => NULL | x :: _ => fst x end))
  end.

(** Four HID devices, two of them Serial-I/O bridges. *)
Definition probe_k : hid_device_info :=
  mkHidInfo (Some "/dev/uhid1"%string) 0x046D 0xC31C None 0x100 None
            (Some "USB Keyboard"%string) 0.
Definition probe_c : hid_device_info :=
  mkHidInfo (Some "/dev/uhid2"%string) 0x1FC9 0x0090 None 0x100 None
            (Some "LPCSI"%string) 0.
Definition probes : list (ptr * hid_device_info) :=
  [(0x10, probe_k); (0x20, probe_a); (0x30, probe_c); (0x40, probe_b)].

(** ** Transfers and GPIO

    The request codes these functions send are declared in
    lpcusbsio_protocol.h, like those of [Protocol]. *)

Class Requests : Type := {
  HID_I2C_REQ_DEVICE_READ : Z;
  HID_GPIO_REQ_PORT_VALUE : Z;
  HID_GPIO_REQ_PORT_DIR : Z;
  HID_GPIO_REQ_TOGGLE_PIN : Z;
  HID_GPIO_REQ_IOCONFIG : Z;
}.

(** Codes for the scenarios; no property below depends on their values. *)
Definition scenario_requests : Requests := {|
  HID_I2C_REQ_DEVICE_READ := 4;
  HID_GPIO_REQ_PORT_VALUE := 0x20;
  HID_GPIO_REQ_PORT_DIR := 0x21;
  HID_GPIO_REQ_TOGGLE_PIN := 0x22;
  HID_GPIO_REQ_IOCONFIG := 0x23;
|}.

(** [1 << pin] on [int]: defined when the result fits. *)
Definition shl1 (pin : Z) : outcome Z :=
  if (0 <=? pin) && (pin <? 31) then Ret (Z.shiftl 1 pin) else Fault.

Section Transfers.
Context {proto : Protocol} {reqs : Requests} {abi : Layout}.

(** [GPIO_SendCmd].  [junk] is what the four bytes of the fresh block
    [inData] hold ([malloc] does not clear them); [status] is [*status]
    before the call, and the result carries it after the call.  The
    exchange stores its response in [inData] without knowing its size. *)
Definition GPIO_SendCmd (junk : list Z) (hUsbSio : ptr) (port cmd setPins clrPins : Z)
    (status : Z) : M (Z * Z) :=
  let dev := hUsbSio in
  v <- validHandle hUsbSio ;;
  if v =? 0 then
    set_lastError LPCUSBSIO_ERR_BAD_HANDLE ;;; ret (LPCUSBSIO_ERR_BAD_HANDLE, status)
  else
    outData <- malloc ;;
    inData <- malloc ;;
    if negb (outData =? NULL) && negb (inData =? NULL) then
      r <- SIO_SendRequest dev port cmd (Some (to_le32 setPins ++ to_le32 clrPins)) 8
                           true true ;;
      let inLen := Z.of_nat (List.length (snd r)) in
      if 4 <? inLen then fault (* the response went past the four bytes of inData *)
      else if fst r =? LPCUSBSIO_OK then
        ret (inLen,
             if negb (inLen =? 0)
             then le32 (snd r ++ drop (List.length (snd r)) junk)
             else status)
      else ret (fst r, status)
    else
      set_lastError LPCUSBSIO_ERR_MEM_ALLOC ;;; ret (LPCUSBSIO_ERR_MEM_ALLOC, status).

Definition GPIO_ReadPort (junk : list Z) (hUsbSio : ptr) (port : Z) (status : Z) : M (Z * Z) :=
  GPIO_SendCmd junk hUsbSio port HID_GPIO_REQ_PORT_VALUE 0 0 status.

Definition GPIO_WritePort (junk : list Z) (hUsbSio : ptr) (port : Z) (status : Z)
  : M (Z * Z) :=
  let setPins := status in
  GPIO_SendCmd junk hUsbSio port HID_GPIO_REQ_PORT_VALUE setPins (uint32 (Z.lnot setPins))
               status.

Definition GPIO_SetPort (junk : list Z) (hUsbSio : ptr) (port pins : Z) : M Z :=
  r <- GPIO_SendCmd junk hUsbSio port HID_GPIO_REQ_PORT_VALUE pins 0 0 ;;
  ret (fst r).

Definition GPIO_ClearPort (junk : list Z) (hUsbSio : ptr) (port pins : Z) : M Z :=
  r <- GPIO_SendCmd junk hUsbSio port HID_GPIO_REQ_PORT_VALUE 0 pins 0 ;;
  ret (fst r).

Definition GPIO_SetPin (junk : list Z) (hUsbSio : ptr) (port pin : Z) : M Z :=
  m <- lift (shl1 pin) ;;
  r <- GPIO_SendCmd junk hUsbSio port HID_GPIO_REQ_PORT_VALUE (uint32 m) 0 0 ;;
  ret (fst r).

Definition GPIO_ClearPin (junk : list Z) (hUsbSio : ptr) (port pin : Z) : M Z :=
  m <- lift (shl1 pin) ;;
  r <- GPIO_SendCmd junk hUsbSio port HID_GPIO_REQ_PORT_VALUE 0 (uint32 m) 0 ;;
  ret (fst r).

(** [GPIO_GetPin]: the shift is evaluated only when the command returned
    a positive value. *)
Definition GPIO_GetPin (junk : list Z) (hUsbSio : ptr) (port pin : Z) : M Z :=
  r <- GPIO_SendCmd junk hUsbSio port HID_GPIO_REQ_PORT_VALUE 0 0 0 ;;
  let res := fst r in
  let status := snd r in
  if res >? 0 then
    m <- lift (shl1 pin) ;;
    ret (if negb (Z.land status (uint32 m) =? 0) then 1 else 0)
  else ret res.

Definition GPIO_TogglePin (hUsbSio : ptr) (port pin : Z) : M Z :=
  let dev := hUsbSio in
  v <- validHandle hUsbSio ;;
  if v =? 0 then
    set_lastError LPCUSBSIO_ERR_BAD_HANDLE ;;; ret LPCUSBSIO_ERR_BAD_HANDLE
  else
    r <- SIO_SendRequest dev port HID_GPIO_REQ_TOGGLE_PIN (Some [pin]) 1 false false ;;
    ret (fst r).

Definition GPIO_ConfigIOPin (hUsbSio : ptr) (port pin mode : Z) : M Z :=
  let dev := hUsbSio in
  v <- validHandle hUsbSio ;;
  if v =? 0 then
    set_lastError LPCUSBSIO_ERR_BAD_HANDLE ;;; ret LPCUSBSIO_ERR_BAD_HANDLE
  else
    let outData := [Z.land (Z.shiftr mode 0) 0xff; Z.land (Z.shiftr mode 8) 0xff;
                    Z.land (Z.shiftr mode 16) 0xff; Z.land (Z.shiftr mode 24) 0xff; pin] in
    r <- SIO_SendRequest dev port HID_GPIO_REQ_IOCONFIG (Some outData) 5 false false ;;
    ret (fst r).

(** [I2C_DeviceRead].  [buffer] is the caller's buffer ([None] for a null
    pointer) and comes back as the call leaves it.  [inData] has room for
    [sizeToTransfer] bytes; the exchange stores its response there without
    knowing that.  A copy of no bytes is taken to do nothing. *)
Definition I2C_DeviceRead (hI2C : ptr) (deviceAddress : Z) (buffer : option (list Z))
    (sizeToTransfer options : Z) : M (Z * option (list Z)) :=
  v <- validPortHandle hI2C ;;
  if v =? 0 then
    set_lastError LPCUSBSIO_ERR_BAD_HANDLE ;;; ret (LPCUSBSIO_ERR_BAD_HANDLE, buffer)
  else
    devI2c <- load_port hI2C ;;
    let dev := hUsbSio devI2c in
    c <- load_dev dev ;;
    if (sizeToTransfer >? maxDataSize c)
       || ((sizeToTransfer >? 0) && negb (is_Some_bool buffer))
       || (deviceAddress >? 127) then
      set_lastError LPCUSBSIO_ERR_INVALID_PARAM ;;; ret (LPCUSBSIO_ERR_INVALID_PARAM, buffer)
    else
      let param := HID_I2C_RW_PARAMS_bytes sizeToTransfer options deviceAddress in
      outData <- malloc ;;
      inData <- malloc ;;
      if negb (outData =? NULL) && negb (inData =? NULL) then
        r <- SIO_SendRequest dev (portNum devI2c) HID_I2C_REQ_DEVICE_READ (Some param)
                             (Z.of_nat (List.length param)) true true ;;
        let inLen := Z.of_nat (List.length (snd r)) in
        if sizeToTransfer <? inLen then fault (* the response went past inData *)
        else if fst r =? LPCUSBSIO_OK then
          match buffer with
          | None => if inLen =? 0 then ret (inLen, None) else fault
          | Some b =>
              if Z.of_nat (List.length b) <? inLen then fault
              else ret (inLen, Some (snd r ++ drop (List.length (snd r)) b))
          end
        else ret (fst r, buffer)
      else
        set_lastError LPCUSBSIO_ERR_MEM_ALLOC ;;; ret (LPCUSBSIO_ERR_MEM_ALLOC, buffer).

End Transfers.

(** A GPIO port value of 5 as the device reports it, and three bytes read
    from an I2C device. *)
Definition gpio_reply : HID_SIO_IN_REPORT_T := mkIn 7 0 8 0 8 (5 :: replicate 59 0).
Definition gpio_script : list reply :=
  [RMalloc 0x3000; RMalloc 0x3100; RLock 0; RWrite 65; RRead 64 gpio_reply; RUnlock 0].
Definition read_reply : HID_SIO_IN_REPORT_T := mkIn 7 0 7 0 7 ([7; 8; 9] ++ replicate 57 0).
Definition read_script : list reply :=
  [RMalloc 0x3000; RMalloc 0x3100; RLock 0; RWrite 65; RRead 64 read_reply; RUnlock 0].

(** ** Session information *)

Definition LPCUSBSIO_GetLastError : M Z := fun s => Ret (g_lastError s, s).

(** The four capability getters return [uint32_t]: the error code they
    assign to [g_lastError] comes back converted to unsigned. *)
Definition LPCUSBSIO_GetNumI2CPorts (hUsbSio : ptr) : M Z :=
  v <- validHandle hUsbSio ;;
  if v =? 0 then
    set_lastError LPCUSBSIO_ERR_BAD_HANDLE ;;; ret (uint32 LPCUSBSIO_ERR_BAD_HANDLE)
  else c <- load_dev hUsbSio ;; ret (maxI2CPorts c).

Definition LPCUSBSIO_GetNumSPIPorts (hUsbSio : ptr) : M Z :=
  v <- validHandle hUsbSio ;;
  if v =? 0 then
    set_lastError LPCUSBSIO_ERR_BAD_HANDLE ;;; ret (uint32 LPCUSBSIO_ERR_BAD_HANDLE)
  else c <- load_dev hUsbSio ;; ret (maxSPIPorts c).

Definition LPCUSBSIO_GetNumGPIOPorts (hUsbSio : ptr) : M Z :=
  v <- validHandle hUsbSio ;;
  if v =? 0 then
    set_lastError LPCUSBSIO_ERR_BAD_HANDLE ;;; ret (uint32 LPCUSBSIO_ERR_BAD_HANDLE)
  else c <- load_dev hUsbSio ;; ret (maxGPIOPorts c).

Definition LPCUSBSIO_GetMaxDataSize (hUsbSio : ptr) : M Z :=
  v <- validHandle hUsbSio ;;
  if v =? 0 then
    set_lastError LPCUSBSIO_ERR_BAD_HANDLE ;;; ret (uint32 LPCUSBSIO_ERR_BAD_HANDLE)
  else c <- load_dev hUsbSio ;; ret (maxDataSize c).

(** [LPCUSBSIO_Error].  [hid_error] is the transport's own message for a
    device handle. *)
Definition LPCUSBSIO_Error (hid_error : ptr -> string) (hUsbSio : ptr) : M string :=
  let dev := hUsbSio in
  e <- LPCUSBSIO_GetLastError ;;
  if LPCUSBSIO_ERR_HID_LIB =? e then
    c <- load_dev dev ;;
    ret (hid_error (hidDev c))
  else lift (GetErrorString e).

(** [memcpy (&buf[index], src, strlen (src))] into a buffer of characters. *)
Definition store_chars (buf : list ascii) (index : nat) (src : list ascii)
  : outcome (list ascii) :=
  if (List.length buf <? index + List.length src)%nat then Fault
  else Ret (take index buf ++ src ++ drop (index + List.length src) buf).

(** The text a caller reads at the start of a buffer: the characters
    before the first NUL; none inside the buffer is a read past its end. *)
Fixpoint text_of (buf : list ascii) : outcome string :=
  match buf with
  | [] => Fault
  | c :: buf' =>
      if Ascii.eqb c Ascii.zero then Ret EmptyString
      else match text_of buf' with
           | Ret s => Ret (String c s)
           | Fault => Fault
           | Stuck => Stuck
           end
  end.

(** [LPCUSBSIO_GetVersion].  [g_LibVersion] carries the date and time of
    the build; [g_Version] is the static buffer of 128 characters, which
    the call returns a pointer to.  No terminator is written. *)
Definition LPCUSBSIO_GetVersion (g_LibVersion : string) (hUsbSio : ptr)
    (g_Version : list ascii) : M (list ascii) :=
  let dev := hUsbSio in
  let lib := list_ascii_of_string g_LibVersion in
  b1 <- lift (store_chars g_Version 0 lib) ;;
  let index := List.length lib in
  v <- validHandle hUsbSio ;;
  if negb (v =? 0) then
    c <- load_dev dev ;;
    b2 <- lift (store_chars b1 index ["/"%char]) ;;
    let index := S index in
    lift (store_chars b2 index (list_ascii_of_string (fwBuild c)))
  else ret b1.
(** * Properties *)

(** ** Running the monad *)

Lemma bind_Ret {A B} (m : M A) (k : A -> M B) s a s' :
  m s = Ret (a, s') -> bind m k s = k a s'.
Proof. intros E. unfold bind. now rewrite E. Qed.

Lemma bind_inv {A B} (m : M A) (k : A -> M B) s b s2 :
  bind m k s = Ret (b, s2) ->
  exists a s1, m s = Ret (a, s1) /\ k a s1 = Ret (b, s2).
Proof.
  unfold bind. destruct (m s) as [[a s1]| |]; try discriminate.
  intros E. now exists a, s1.
Qed.

Ltac mrun :=
  cbv beta iota zeta delta
    [bind ret fault stuck lift get_devList put_devList set_lastError emit ask
     replies_left load_dev store_dev hid_write hid_read_timeout malloc hid_open_path
     get_devInfoList st_devList st_lastError st_io];
  cbn [g_devInfoList g_devList g_lastError script trace fst snd].

Lemma lookup_update_eq a c c0 l :
  lookup_dev a l = Some c0 -> lookup_dev a (update_dev a c l) = Some c.
Proof.
  induction l as [|[b d] l IH]; simpl; [discriminate|].
  destruct (Z.eqb_spec a b) as [->|Hne]; simpl.
  - now rewrite Z.eqb_refl.
  - destruct (Z.eqb_spec a b); [contradiction|]. exact IH.
Qed.

Lemma lookup_update_ne a b c l :
  a <> b -> lookup_dev b (update_dev a c l) = lookup_dev b l.
Proof.
  intros Hne. induction l as [|[x d] l IH]; simpl; [reflexivity|].
  destruct (Z.eqb_spec a x) as [->|Hax]; simpl.
  - destruct (Z.eqb_spec b x); [congruence|reflexivity].
  - destruct (Z.eqb_spec b x); [reflexivity|exact IH].
Qed.

Lemma load_dev_run dev c s :
  lookup_dev dev (g_devList s) = Some c -> load_dev dev s = Ret (c, s).
Proof. intros E. mrun. now rewrite E. Qed.

Lemma store_dev_run dev c c0 s :
  lookup_dev dev (g_devList s) = Some c0 ->
  store_dev dev c s = Ret (tt, st_devList (update_dev dev c (g_devList s)) s).
Proof. intros E. mrun. now rewrite E. Qed.

Lemma pthread_mutex_lock_run dev c s rc sc :
  lookup_dev dev (g_devList s) = Some c -> sioMutex c = MutexFree ->
  script s = RLock rc :: sc ->
  pthread_mutex_lock dev s
  = Ret (rc, st_devList (if rc =? 0 then update_dev dev (set_sioMutex MutexHeld c) (g_devList s)
                         else g_devList s)
              (st_io sc (trace s ++ [EvLock dev rc]) s)).
Proof.
  intros E Hm Hs. unfold pthread_mutex_lock. mrun.
  rewrite E, Hm, Hs. destruct (rc =? 0); mrun; rewrite ?E; reflexivity.
Qed.

Lemma pthread_mutex_unlock_run dev c s rc sc :
  lookup_dev dev (g_devList s) = Some c -> sioMutex c = MutexHeld ->
  script s = RUnlock rc :: sc ->
  pthread_mutex_unlock dev s
  = Ret (rc, st_devList (if rc =? 0 then update_dev dev (set_sioMutex MutexFree c) (g_devList s)
                         else g_devList s)
              (st_io sc (trace s ++ [EvUnlock dev rc]) s)).
Proof.
  intros E Hm Hs. unfold pthread_mutex_unlock. mrun.
  rewrite E, Hm, Hs. destruct (rc =? 0); mrun; rewrite ?E; reflexivity.
Qed.

Lemma wrap_small bits x : 0 <= x < 2 ^ bits -> wrap bits x = x.
Proof. intros H. unfold wrap. now apply Z.mod_small. Qed.

(** ** Error translator *)

Lemma GetErrorString_abs err :
  err <> INT32_MIN ->
  GetErrorString err = GetErrorString (Z.abs err).
Proof.
  intros Hne. unfold GetErrorString, abs.
  destruct (Z.eqb_spec err INT32_MIN) as [|_]; [contradiction|].
  destruct (Z.eqb_spec (Z.abs err) INT32_MIN) as [E|_].
  - unfold INT32_MIN in E. lia.
  - now rewrite Z.abs_idemp.
Qed.

Lemma msg_at_In tbl i :
  0 <= i < Z.of_nat (List.length tbl) -> In (msg_at tbl i) tbl.
Proof. intros H. unfold msg_at. apply nth_In. lia. Qed.

(** The three tables share no message: the table a message comes from
    tells the range of the code. *)
Lemma error_tables_disjoint :
  NoDup (g_LibErrMsgs ++ g_fwErrMsgs ++ g_BridgeErrMsgs).
Proof. apply (bool_decide_unpack _). vm_compute. reflexivity. Qed.

(** C7, as the code has it.  The absolute value of the code selects one
    of three disjoint ranges, each with its own table; inside a range, a
    code beyond the table's entries gets the fallback of that range:
    entry 0 of the library table ("No errors are recorded.") in
    [6, 0x0F], the catch-all "Firmware error." in [0x16, 0x1F], and
    " Unsupported Error Code" in [0x24, 0x2F]. *)
Theorem GetErrorString_ranges (err : Z) :
  let i := Z.abs err in
  (0 <= i <= 0x0F -> msg_in g_LibErrMsgs (GetErrorString err)
                     /\ (NUM_LIB_ERR_STRINGS <= i ->
                         GetErrorString err = Ret "No errors are recorded."%string))
  /\ (0x10 <= i <= 0x1F -> msg_in g_fwErrMsgs (GetErrorString err)
                     /\ (0x10 + NUM_FW_ERR_STRINGS <= i ->
                         GetErrorString err = Ret "Firmware error."%string))
  /\ (0x20 <= i <= 0x2F -> msg_in g_BridgeErrMsgs (GetErrorString err)
                     /\ (0x20 + NUM_BRIDGE_ERR_STRINGS <= i ->
                         GetErrorString err = Ret " Unsupported Error Code"%string)).
Proof.
  intros i.
  assert (Hmin : i <= 0x2F -> err <> INT32_MIN) by (unfold INT32_MIN; subst i; lia).
  unfold msg_in.
  repeat split; intros; rewrite GetErrorString_abs by (apply Hmin; lia); fold i;
    unfold GetErrorString, abs;
    (destruct (Z.eqb_spec i INT32_MIN) as [E|_]; [unfold INT32_MIN in E; lia|]);
    rewrite (Z.abs_eq i) by lia;
    unfold NUM_LIB_ERR_STRINGS, NUM_FW_ERR_STRINGS, NUM_BRIDGE_ERR_STRINGS in *;
    repeat match goal with
           | |- context [?a <? ?b] => destruct (Z.ltb_spec a b); try lia
           end;
    try reflexivity;
    (eexists; split; [reflexivity|]);
    first [ apply msg_at_In; simpl; lia | simpl; tauto ].
Qed.

(** The theorem at the code -7, inside the library range and beyond its
    six entries. *)
Lemma GetErrorString_ranges_witness :
  0 <= Z.abs (-7) <= 0x0F /\ NUM_LIB_ERR_STRINGS <= Z.abs (-7)
  /\ GetErrorString (-7) = Ret "No errors are recorded."%string.
Proof.
  assert (R : 0 <= Z.abs (-7) <= 0x0F) by (simpl; lia).
  assert (L : NUM_LIB_ERR_STRINGS <= Z.abs (-7)) by (unfold NUM_LIB_ERR_STRINGS; simpl; lia).
  refine (conj R (conj L _)).
  exact (proj2 (proj1 (GetErrorString_ranges (-7)) R) L).
Defined.

(** C7 as the specification words it fails at -7: the code lies in the
    library range, outside its known entries, and its message is not the
    "unsupported error code" one. *)
Lemma GetErrorString_lib_fallback_is_not_unsupported :
  0 <= Z.abs (-7) <= 0x0F
  /\ NUM_LIB_ERR_STRINGS <= Z.abs (-7)
  /\ GetErrorString (-7) = Ret "No errors are recorded."%string
  /\ GetErrorString (-7) <> Ret " Unsupported Error Code"%string.
Proof. repeat split; try discriminate; simpl; unfold NUM_LIB_ERR_STRINGS; lia. Qed.

(** ** The write phase *)

Section EngineFacts.
Context {proto : Protocol}.

(** One round of the write loop. *)
Lemma write_loop_step fuel hid pOut outData outLen s w sc :
  script s = RWrite w :: sc ->
  oneTx_of outLen <= Z.of_nat (List.length outData) ->
  let oneTx := oneTx_of outLen in
  let pkt := mkOut (out_transId pOut) (out_sesId pOut) (out_req pOut)
                   (out_transfer_len pOut) (out_packet_num pOut)
                   (wrap PACKET_LEN_BITS (oneTx + HID_SIO_PACKET_HEADER_SZ))
                   (take (Z.to_nat oneTx) outData
                      ++ replicate (Z.to_nat (HID_SIO_PACKET_DATA_SZ - oneTx)) 0) in
  let s' := mkState (g_devInfoList s) (g_devList s) (g_lastError s) sc
                    (trace s ++ [EvWrite hid pkt w]) in
  write_loop (S fuel) hid pOut outData outLen s
  = if (w >? 0) && (outLen - oneTx >? 0)
    then write_loop fuel hid
           (mkOut (out_transId pOut) (out_sesId pOut) (out_req pOut) (out_transfer_len pOut)
                  (wrap PACKET_NUM_BITS (out_packet_num pOut + 1))
                  (out_packet_len pkt) (out_data pkt))
           (drop (Z.to_nat oneTx) outData) (outLen - oneTx) s'
    else Ret (w, s').
Proof.
  intros Hs Hlen. cbn zeta. unfold oneTx_of in *.
  unfold write_loop at 1; fold write_loop.
  destruct (Z.ltb_spec (Z.of_nat (List.length outData))
              (if outLen >? HID_SIO_PACKET_DATA_SZ then HID_SIO_PACKET_DATA_SZ else outLen));
    [lia|].
  mrun. rewrite Hs.
  cbn [out_transId out_sesId out_req out_transfer_len out_packet_num out_packet_len out_data].
  destruct ((w >? 0) && _); reflexivity.
Qed.

(** A round that sends a full chunk of 60 bytes. *)
Ltac write_round Hone :=
  erewrite write_loop_step;
    [ | reflexivity | rewrite Hone by lia; rewrite ?length_drop; lia ];
  rewrite Hone by lia;
  cbn [out_transId out_sesId out_req out_transfer_len out_packet_num out_packet_len
       out_data script trace g_devInfoList g_devList g_lastError];
  change (Z.to_nat 60) with 60%nat.

(** The loop test after a round whose write returned a positive [w]. *)
Ltac write_again H :=
  match goal with
  | |- context [Z.pos ?a - 60] =>
      let v := eval vm_compute in (Z.pos a - 60) in change (Z.pos a - 60) with v
  end;
  match goal with
  | |- context [(?w >? 0) && (?n >? 0)] =>
      replace ((w >? 0) && (n >? 0)) with true
        by (symmetry; apply andb_true_intro; split; apply Z.gtb_lt; [exact H | reflexivity])
  end;
  cbv iota.

(** C1.  A request of 300 payload bytes, with a frame capacity of 60: once
    the guard is taken and as long as the transport accepts the frames,
    the engine writes exactly five frames and then enters the read phase.
    The frames carry the packet numbers 0 to 4, the same transaction id
    (the session counter before the call) and the same transfer length;
    each has packet length 60 + header size, and the last one carries the
    last 60 bytes of the payload. *)
Theorem SIO_SendRequest_300_bytes_in_five_frames
    (dev portNum req : Z) (payload : list Z) (inData inLen : bool)
    (s : State) (c : LPCUSBSIO_Ctrl_t) (w0 w1 w2 w3 w4 : Z) (rest : list reply) :
  HID_SIO_PACKET_DATA_SZ = 60 ->
  3 <= PACKET_NUM_BITS ->
  0 <= 60 + HID_SIO_PACKET_HEADER_SZ < 2 ^ PACKET_LEN_BITS ->
  List.length payload = 300%nat ->
  (inLen = true -> inData = true) ->
  lookup_dev dev (g_devList s) = Some c ->
  sioMutex c = MutexFree ->
  script s = RLock 0 :: RWrite w0 :: RWrite w1 :: RWrite w2 :: RWrite w3 :: RWrite w4 :: rest ->
  0 < w0 -> 0 < w1 -> 0 < w2 -> 0 < w3 ->
  let total := wrap TRANSFER_LEN_BITS (HID_SIO_CALC_TRANSFER_LEN 300) in
  let frame (k : nat) :=
    mkOut (transId c) portNum req total (Z.of_nat k) (60 + HID_SIO_PACKET_HEADER_SZ)
          (take 60 (drop (60 * k) payload)) in
  exists s5,
    SIO_SendRequest dev portNum req (Some payload) 300 inData inLen s
    = read_phase dev (hidDev c) (transId c) inLen w4 s5
    /\ script s5 = rest
    /\ trace s5 = trace s ++ [EvLock dev 0;
                              EvWrite (hidDev c) (frame 0%nat) w0;
                              EvWrite (hidDev c) (frame 1%nat) w1;
                              EvWrite (hidDev c) (frame 2%nat) w2;
                              EvWrite (hidDev c) (frame 3%nat) w3;
                              EvWrite (hidDev c) (frame 4%nat) w4]
    /\ out_data (frame 4%nat) = drop 240 payload
    /\ List.length (out_data (frame 4%nat)) = 60%nat.
Proof.
  intros Hsz Hnum Hlen Hpay Hin E Hm Hs H0 H1 H2 H3 total frame.
  assert (Hchk : inLen && negb inData = false).
  { destruct inLen, inData; try reflexivity. now specialize (Hin eq_refl). }
  unfold SIO_SendRequest.
  replace ((300 >? 0) && negb (is_Some_bool (Some payload)) || inLen && negb inData)
    with false by (now rewrite Hchk).
  rewrite (bind_Ret _ _ _ _ _ (pthread_mutex_lock_run _ _ _ _ _ E Hm Hs)).
  change (negb (0 =? 0)) with false. cbv iota.
  set (c1 := set_sioMutex MutexHeld c).
  set (s1 := st_devList _ _).
  assert (E1 : lookup_dev dev (g_devList s1) = Some c1).
  { subst s1. cbn. now apply lookup_update_eq with (c0 := c). }
  mrun. rewrite E1. mrun. rewrite E1. mrun.
  assert (Hs1 : script s1 = RWrite w0 :: RWrite w1 :: RWrite w2 :: RWrite w3 :: RWrite w4 :: rest)
    by reflexivity.
  rewrite Hs1. cbn [List.length default from_option id]. unfold id.
  assert (Hone : forall n, 60 <= n -> oneTx_of n = 60).
  { intros n Hn. unfold oneTx_of. rewrite Hsz. destruct (Z.gtb_spec n 60); lia. }
  assert (Hw : forall k, 0 <= k < 8 -> wrap PACKET_NUM_BITS k = k).
  { intros k Hk. apply wrap_small. split; [lia|].
    apply Z.lt_le_trans with (2 ^ 3); [simpl; lia|].
    apply Z.pow_le_mono_r; lia. }
  assert (Hpad : replicate (Z.to_nat (HID_SIO_PACKET_DATA_SZ - 60)) 0 = []).
  { rewrite Hsz. reflexivity. }
  change (hidDev c1) with (hidDev c). change (transId c1) with (transId c).
  eexists. split.
  - write_round Hone. write_again H0. write_round Hone. write_again H1.
    write_round Hone. write_again H2. write_round Hone. write_again H3.
    write_round Hone. change (60 - 60 >? 0) with false. rewrite andb_false_r.
    rewrite !Hpad, !app_nil_r, !drop_drop.
    rewrite !Hw by lia. rewrite (wrap_small PACKET_LEN_BITS) by exact Hlen.
    reflexivity.
  - cbn [script trace]. subst s1 frame. cbn [st_devList st_io trace].
    repeat split.
    + rewrite <- !app_assoc. reflexivity.
    + cbn [out_data]. apply take_ge. rewrite length_drop. lia.
    + cbn [out_data]. rewrite length_take, length_drop. lia.
Qed.

End EngineFacts.

(** ** The read phase *)

Section ReadFacts.
Context {proto : Protocol}.


Lemma read_loop_keep fuel hid tid inLen res acc s r sc :
  0 < res ->
  script s = RRead' r :: sc ->
  keeps_reading tid inLen r = true ->
  read_loop (S fuel) hid tid inLen res acc s
  = read_loop fuel hid tid inLen (fst r) (acc ++ gathered tid inLen [r])
              (after_reads hid [r] sc s).
Proof.
  intros Hres Hs Hk. destruct r as [n pIn].
  unfold keeps_reading, stale, accepted, copy_ok in Hk. cbn [fst snd] in Hk.
  unfold gathered, stale, payload_of, after_reads. cbn [flat_map fst snd map].
  unfold read_loop at 1; fold read_loop.
  replace (res >? 0) with true by (symmetry; apply Z.gtb_lt; exact Hres).
  mrun. rewrite Hs. cbn [RRead' fst snd]. unfold EvRead'. cbn [fst snd].
  destruct (n >? 0); [|discriminate Hk].
  destruct (in_transId pIn =? tid); cbn [negb andb orb] in Hk |- *.
  - destruct (in_resp pIn =? HID_SIO_RES_OK); [|discriminate Hk].
    cbn [andb] in Hk. apply andb_prop in Hk as [Hc Hn].
    apply negb_true_iff in Hc. rewrite Hc.
    apply negb_true_iff in Hn. rewrite Hn.
    destruct inLen; rewrite ?app_nil_r; reflexivity.
  - rewrite app_nil_r. reflexivity.
Qed.

Lemma last_res_pos tid inLen res rs :
  0 < res -> Forall (fun r => keeps_reading tid inLen r = true) rs -> 0 < last_res res rs.
Proof.
  unfold last_res. intros Hres H. revert res Hres.
  induction H as [|r rs Hr _ IH]; intros res Hres; [exact Hres|].
  cbn [map]. destruct rs as [|r' rs'].
  - cbn. unfold keeps_reading, stale, accepted in Hr.
    destruct (Z.gtb_spec (fst r) 0); [lia|]. discriminate Hr.
  - change (List.last (fst r :: map fst (r' :: rs')) res) with (List.last (map fst (r' :: rs')) res).
    now apply IH.
Qed.

Lemma last_res_cons res r rs : last_res res (r :: rs) = last_res (fst r) rs.
Proof.
  unfold last_res. cbn [map]. destruct rs as [|r' rs']; [reflexivity|].
  cbn [map]. revert r'. induction rs' as [|x xs IH]; intros r'; [reflexivity|].
  cbn [map List.last] in *. apply IH.
Qed.

(** A run of reads after each of which the loop reads again. *)
Lemma read_loop_prefix rs : forall fuel hid tid inLen res acc s rest,
  0 < res ->
  Forall (fun r => keeps_reading tid inLen r = true) rs ->
  script s = map RRead' rs ++ rest ->
  read_loop (List.length rs + fuel) hid tid inLen res acc s
  = read_loop fuel hid tid inLen (last_res res rs) (acc ++ gathered tid inLen rs)
              (after_reads hid rs rest s).
Proof.
  induction rs as [|r rs IH]; intros fuel hid tid inLen res acc s rest Hres Hall Hs.
  - cbn in *. unfold after_reads, gathered. cbn. rewrite !app_nil_r.
    destruct s; cbn in *. now subst.
  - inversion Hall as [|? ? Hr Hrs]; subst.
    cbn [List.length Nat.add].
    rewrite (read_loop_keep _ _ _ _ _ _ _ r (map RRead' rs ++ rest)); [|exact Hres|exact Hs|exact Hr].
    rewrite (IH fuel hid tid inLen (fst r) _ _ rest).
    + rewrite last_res_cons. unfold gathered, after_reads.
      cbn [flat_map map g_devInfoList g_devList g_lastError script trace].
      rewrite <- !app_assoc. cbn [app]. reflexivity.
    + unfold keeps_reading, stale, accepted in Hr.
      destruct (Z.gtb_spec (fst r) 0); [lia|]. discriminate Hr.
    + exact Hrs.
    + reflexivity.
Qed.

Lemma read_loop_timeout fuel hid tid inLen res acc s pIn sc :
  0 < res ->
  script s = RRead 0 pIn :: sc ->
  read_loop (S fuel) hid tid inLen res acc s
  = Ret ((LPCUSBSIO_ERR_TIMEOUT, acc), after_reads hid [(0, pIn)] sc s).
Proof.
  intros Hres Hs. unfold read_loop at 1; fold read_loop.
  replace (res >? 0) with true by (symmetry; apply Z.gtb_lt; exact Hres).
  mrun. rewrite Hs. reflexivity.
Qed.

Lemma read_loop_complete fuel hid tid inLen res acc s r sc :
  0 < res ->
  script s = RRead' r :: sc ->
  accepted tid inLen r = true ->
  transfer_complete (snd r) = true ->
  read_loop (S fuel) hid tid inLen res acc s
  = Ret ((LPCUSBSIO_OK, acc ++ gathered tid inLen [r]), after_reads hid [r] sc s).
Proof.
  intros Hres Hs Ha Hc. destruct r as [n pIn].
  unfold accepted, copy_ok in Ha. cbn [fst snd] in Ha, Hc.
  unfold gathered, stale, payload_of, after_reads. cbn [flat_map fst snd map].
  unfold read_loop at 1; fold read_loop.
  replace (res >? 0) with true by (symmetry; apply Z.gtb_lt; exact Hres).
  mrun. rewrite Hs. cbn [RRead' fst snd]. unfold EvRead'. cbn [fst snd].
  destruct (n >? 0); [|discriminate Ha].
  destruct (in_transId pIn =? tid); [|discriminate Ha].
  destruct (in_resp pIn =? HID_SIO_RES_OK); [|discriminate Ha].
  cbn [andb negb] in Ha |- *. apply negb_true_iff in Ha. rewrite Ha, Hc.
  destruct inLen; rewrite ?app_nil_r; reflexivity.
Qed.

Lemma gathered_stale tid inLen rs :
  Forall (fun r => stale tid r = true) rs -> gathered tid inLen rs = [].
Proof.
  induction 1 as [|r rs Hr _ IH]; [reflexivity|].
  unfold gathered in *. cbn [flat_map]. now rewrite Hr, IH.
Qed.

(** The two completion identities cannot both hold for a report after the
    first, whenever a report is larger than its payload area. *)
Lemma completion_identities_disagree (pIn : HID_SIO_IN_REPORT_T) :
  HID_SIO_PACKET_DATA_SZ < HID_SIO_PACKET_SZ ->
  0 < in_packet_num pIn ->
  transfer_complete pIn = true -> spec_transfer_complete pIn = false.
Proof.
  unfold transfer_complete, spec_transfer_complete. intros Hsz Hnum Hc.
  apply Z.eqb_eq in Hc. apply Z.eqb_neq. nia.
Qed.

(** C2, as the code has it.  On a stream of reports of the outstanding
    transaction with status OK, the read loop ends with [LPCUSBSIO_OK] at
    the first report whose own fields satisfy
    [packet_num * HID_SIO_PACKET_SZ + packet_len = transfer_len], the
    multiplier being the size of a whole report, header included; after a
    report that does not satisfy it, the loop reads again.  [rs] are the
    reports before [r], none of which satisfies the identity. *)
Theorem read_loop_completes_by_report_size
    (hid : ptr) (tid : Z) (inLen : bool) (res : Z) (acc : list Z) (s : State)
    (rs : list (Z * HID_SIO_IN_REPORT_T)) (r : Z * HID_SIO_IN_REPORT_T)
    (rest : list reply) (fuel : nat) :
  0 < res ->
  Forall (fun x => accepted tid inLen x = true) (rs ++ [r]) ->
  Forall (fun x => in_packet_num (snd x) * HID_SIO_PACKET_SZ + in_packet_len (snd x)
                   <> in_transfer_len (snd x)) rs ->
  script s = map RRead' rs ++ RRead' r :: rest ->
  read_loop (List.length rs + S fuel) hid tid inLen res acc s
  = if in_packet_num (snd r) * HID_SIO_PACKET_SZ + in_packet_len (snd r)
       =? in_transfer_len (snd r)
    then Ret ((LPCUSBSIO_OK, acc ++ gathered tid inLen (rs ++ [r])),
              after_reads hid (rs ++ [r]) rest s)
    else read_loop fuel hid tid inLen (fst r) (acc ++ gathered tid inLen (rs ++ [r]))
                   (after_reads hid (rs ++ [r]) rest s).
Proof.
  intros Hres Hacc Hinc Hs.
  apply Forall_app in Hacc as [Hacc Hr]. inversion Hr as [|? ? Hr' _]; subst.
  assert (Hkeep : Forall (fun x => keeps_reading tid inLen x = true) rs).
  { rewrite Forall_forall in *. intros x Hx. unfold keeps_reading.
    rewrite (Hacc x Hx). unfold transfer_complete.
    destruct (Z.eqb_spec (in_packet_num (snd x) * HID_SIO_PACKET_SZ + in_packet_len (snd x))
                         (in_transfer_len (snd x))) as [E|_].
    - now elim (Hinc x Hx).
    - apply orb_true_r. }
  rewrite (read_loop_prefix rs (S fuel) hid tid inLen res acc s (RRead' r :: rest) Hres Hkeep Hs).
  assert (Hpos : 0 < last_res res rs) by (eapply last_res_pos; eauto).
  assert (Hg : gathered tid inLen (rs ++ [r]) = gathered tid inLen rs ++ gathered tid inLen [r]).
  { unfold gathered. rewrite flat_map_app. reflexivity. }
  assert (Hst : after_reads hid [r] rest (after_reads hid rs (RRead' r :: rest) s)
                = after_reads hid (rs ++ [r]) rest s).
  { unfold after_reads. cbn [g_devInfoList g_devList g_lastError script trace].
    rewrite map_app, app_assoc. reflexivity. }
  fold (transfer_complete (snd r)).
  destruct (transfer_complete (snd r)) eqn:Hc.
  - rewrite (read_loop_complete fuel hid tid inLen _ _ (after_reads hid rs (RRead' r :: rest) s) r rest Hpos eq_refl Hr' Hc).
    now rewrite Hg, app_assoc, Hst.
  - rewrite (read_loop_keep fuel hid tid inLen _ _ (after_reads hid rs (RRead' r :: rest) s) r rest Hpos eq_refl).
    + now rewrite Hg, app_assoc, Hst.
    + unfold keeps_reading. rewrite Hr', Hc. apply orb_true_r.
Qed.

(** C3.  Reports whose transaction id differs from the outstanding one
    are discarded: after any run [junk] of them the loop reads on, with
    the accumulated payload [acc] (and so its length) as it was. *)
Theorem read_loop_discards_other_transactions
    (hid : ptr) (tid : Z) (inLen : bool) (res : Z) (acc : list Z) (s : State)
    (junk : list (Z * HID_SIO_IN_REPORT_T)) (rest : list reply) (fuel : nat) :
  0 < res ->
  Forall (fun r => 0 < fst r /\ in_transId (snd r) <> tid) junk ->
  script s = map RRead' junk ++ rest ->
  read_loop (List.length junk + fuel) hid tid inLen res acc s
  = read_loop fuel hid tid inLen (last_res res junk) acc (after_reads hid junk rest s).
Proof.
  intros Hres Hjunk Hs.
  assert (Hst : Forall (fun r => stale tid r = true) junk).
  { rewrite Forall_forall in *. intros r Hr. destruct (Hjunk r Hr) as [Hn Ht].
    unfold stale. apply andb_true_intro. split.
    - apply Z.gtb_lt. exact Hn.
    - apply negb_true_iff. now apply Z.eqb_neq. }
  assert (Hkeep : Forall (fun r => keeps_reading tid inLen r = true) junk).
  { rewrite Forall_forall in *. intros r Hr. unfold keeps_reading. now rewrite (Hst r Hr). }
  rewrite (read_loop_prefix junk fuel hid tid inLen res acc s rest Hres Hkeep Hs).
  now rewrite (gathered_stale tid inLen junk Hst), app_nil_r.
Qed.

End ReadFacts.

Lemma read_loop_discards_other_transactions_witness :
  @read_loop scenario_protocol (1 + 5) 0x600 7 true 65 [1; 2]
     (mkState [] [] 0 [RRead 64 stale_report; RRead 0 stale_report] [])
  = @read_loop scenario_protocol 5 0x600 7 true 64 [1; 2]
     (mkState [] [] 0 [RRead 0 stale_report] [EvRead 0x600 64 stale_report]).
Proof.
  apply (@read_loop_discards_other_transactions scenario_protocol 0x600 7 true 65 [1; 2]
           (mkState [] [] 0 [RRead 64 stale_report; RRead 0 stale_report] [])
           [(64, stale_report)] [RRead 0 stale_report] 5%nat).
  - lia.
  - repeat constructor; simpl; lia.
  - reflexivity.
Defined.


(** ** The write phase, any length *)

Section WriteAll.
Context {proto : Protocol}.

Lemma frames_needed_small outLen :
  0 < HID_SIO_PACKET_DATA_SZ -> 0 <= outLen <= HID_SIO_PACKET_DATA_SZ ->
  frames_needed outLen = 1%nat.
Proof.
  intros Hd H. unfold frames_needed.
  assert ((outLen + HID_SIO_PACKET_DATA_SZ - 1) / HID_SIO_PACKET_DATA_SZ <= 1).
  { apply Z.lt_succ_r. apply Z.div_lt_upper_bound; lia. }
  lia.
Qed.

Lemma frames_needed_big outLen :
  0 < HID_SIO_PACKET_DATA_SZ -> HID_SIO_PACKET_DATA_SZ < outLen ->
  frames_needed outLen = S (frames_needed (outLen - HID_SIO_PACKET_DATA_SZ)).
Proof.
  intros Hd H. unfold frames_needed.
  replace (outLen + HID_SIO_PACKET_DATA_SZ - 1)
    with ((outLen - HID_SIO_PACKET_DATA_SZ + HID_SIO_PACKET_DATA_SZ - 1)
          + 1 * HID_SIO_PACKET_DATA_SZ) by lia.
  rewrite Z.div_add by lia.
  assert (1 <= (outLen - HID_SIO_PACKET_DATA_SZ + HID_SIO_PACKET_DATA_SZ - 1)
               / HID_SIO_PACKET_DATA_SZ).
  { apply Z.div_le_lower_bound; lia. }
  lia.
Qed.

(** The write loop when the transport accepts every frame: it makes
    [frames_needed outLen] writes and ends with the result of the last. *)
Lemma write_loop_all_accepted ws : forall fuel hid pOut outData outLen s rest,
  0 < HID_SIO_PACKET_DATA_SZ ->
  0 <= outLen <= Z.of_nat (List.length outData) ->
  Forall (fun w => 0 < w) ws ->
  List.length ws = frames_needed outLen ->
  script s = map RWrite ws ++ rest ->
  (List.length ws <= fuel)%nat ->
  exists tw,
    write_loop fuel hid pOut outData outLen s
    = Ret (List.last ws 0,
           mkState (g_devInfoList s) (g_devList s) (g_lastError s) rest (trace s ++ tw))
    /\ List.length tw = List.length ws
    /\ Forall is_write tw.
Proof.
  induction ws as [|w ws IH]; intros fuel hid pOut outData outLen s rest Hd Hlen Hpos Hn Hs Hfuel.
  - unfold frames_needed in Hn. cbn in Hn. lia.
  - destruct fuel as [|fuel]; [cbn in Hfuel; lia|].
    inversion Hpos as [|? ? Hw Hws]; subst.
    assert (Hone : oneTx_of outLen <= Z.of_nat (List.length outData)).
    { unfold oneTx_of. destruct (Z.gtb_spec outLen HID_SIO_PACKET_DATA_SZ); lia. }
    rewrite (write_loop_step fuel hid pOut outData outLen s w (map RWrite ws ++ rest) Hs Hone).
    replace (w >? 0) with true by (symmetry; apply Z.gtb_lt; exact Hw). cbn [andb].
    unfold oneTx_of in *.
    destruct (Z.gtb_spec outLen HID_SIO_PACKET_DATA_SZ) as [Hbig|Hsmall].
    + (* a full frame, more to send *)
      destruct (Z.gtb_spec (outLen - HID_SIO_PACKET_DATA_SZ) 0); [|lia].
      rewrite (frames_needed_big outLen Hd Hbig) in Hn. cbn [List.length] in Hn.
      match goal with
      | |- context [write_loop fuel hid ?p ?d ?l ?st] =>
          destruct (IH fuel hid p d l st rest) as (tw & Hrun & Htl & Htw);
            [exact Hd| |exact Hws| |reflexivity| |]
      end.
      * rewrite length_drop. lia.
      * lia.
      * cbn [List.length] in Hfuel. lia.
      * rewrite Hrun. cbn [g_devInfoList g_devList g_lastError script trace].
        eexists. split; [|split].
        -- destruct ws as [|w' ws']; [cbn in Hn; unfold frames_needed in Hn; lia|].
           cbn [List.last]. rewrite <- app_assoc. reflexivity.
        -- cbn [List.length app]. now rewrite Htl.
        -- constructor; [exact I|exact Htw].
    + (* the last frame *)
      destruct (Z.gtb_spec (outLen - outLen) 0); [lia|].
      rewrite (frames_needed_small outLen Hd) in Hn by lia.
      destruct ws as [|? ?]; [|cbn in Hn; lia]. cbn [map app List.last].
      eexists. split; [reflexivity|]. split; [reflexivity|].
      constructor; [exact I|constructor].
Qed.

End WriteAll.

(** ** Fuel *)

Section FuelFacts.
Context {proto : Protocol}.

(** Every round of either loop consumes a reply, so any fuel above the
    length of the script gives the same run: the loops never stop for
    lack of fuel. *)
Lemma write_loop_fuel fuel : forall fuel' hid pOut outData outLen s,
  (List.length (script s) < fuel)%nat -> (List.length (script s) < fuel')%nat ->
  write_loop fuel hid pOut outData outLen s = write_loop fuel' hid pOut outData outLen s.
Proof.
  induction fuel as [|fuel IH]; intros [|fuel'] hid pOut outData outLen s H1 H2; try lia.
  unfold write_loop; fold write_loop.
  destruct (_ <? _); [reflexivity|].
  mrun. destruct (script s) as [|[] sc] eqn:Hs; try reflexivity.
  destruct ((res >? 0) && _); [|reflexivity].
  apply IH; cbn [script List.length] in *; lia.
Qed.

Lemma read_loop_fuel fuel : forall fuel' hid tid inLen res acc s,
  (List.length (script s) < fuel)%nat -> (List.length (script s) < fuel')%nat ->
  read_loop fuel hid tid inLen res acc s = read_loop fuel' hid tid inLen res acc s.
Proof.
  induction fuel as [|fuel IH]; intros [|fuel'] hid tid inLen res acc s H1 H2; try lia.
  unfold read_loop; fold read_loop.
  destruct (res >? 0); [|reflexivity].
  mrun. destruct (script s) as [|[] sc] eqn:Hs; try reflexivity. mrun.
  assert (Hrec : forall r a,
             read_loop fuel hid tid inLen r a
               (mkState (g_devInfoList s) (g_devList s) (g_lastError s) sc
                        (trace s ++ [EvRead hid res0 pkt]))
             = read_loop fuel' hid tid inLen r a
               (mkState (g_devInfoList s) (g_devList s) (g_lastError s) sc
                        (trace s ++ [EvRead hid res0 pkt]))).
  { intros r a. apply IH; cbn [script List.length] in *; lia. }
  destruct (res0 >? 0); [|reflexivity].
  destruct (negb _); [apply Hrec|].
  destruct (in_resp pkt =? HID_SIO_RES_OK); [|reflexivity].
  destruct (inLen && _); [reflexivity|].
  destruct (transfer_complete pkt); [reflexivity|apply Hrec].
Qed.

End FuelFacts.

(** ** The guard *)

Lemma pthread_mutex_lock_inv dev s rc s1 :
  pthread_mutex_lock dev s = Ret (rc, s1) ->
  exists c sc, lookup_dev dev (g_devList s) = Some c /\ sioMutex c = MutexFree
               /\ script s = RLock rc :: sc.
Proof.
  unfold pthread_mutex_lock. mrun.
  destruct (lookup_dev dev (g_devList s)) as [c|] eqn:E; [|discriminate].
  destruct (sioMutex c) eqn:Hm; try discriminate.
  destruct (script s) as [|[] sc]; try discriminate.
  intros H. exists c, sc.
  assert (rc0 = rc); [|subst; now repeat split].
  destruct (rc0 =? 0); revert H; mrun; rewrite ?E; intros H; now inversion H.
Qed.

Lemma pthread_mutex_unlock_inv dev s rc s1 :
  pthread_mutex_unlock dev s = Ret (rc, s1) ->
  exists c sc, lookup_dev dev (g_devList s) = Some c /\ sioMutex c = MutexHeld
               /\ script s = RUnlock rc :: sc.
Proof.
  unfold pthread_mutex_unlock. mrun.
  destruct (lookup_dev dev (g_devList s)) as [c|] eqn:E; [|discriminate].
  destruct (sioMutex c) eqn:Hm; try discriminate.
  destruct (script s) as [|[] sc]; try discriminate.
  intros H. exists c, sc.
  assert (rc0 = rc); [|subst; now repeat split].
  destruct (rc0 =? 0); revert H; mrun; rewrite ?E; intros H; now inversion H.
Qed.

Lemma load_dev_inv dev s c s' :
  load_dev dev s = Ret (c, s') -> s' = s /\ lookup_dev dev (g_devList s) = Some c.
Proof.
  mrun. destruct (lookup_dev dev (g_devList s)); [|discriminate].
  intros H. now inversion H.
Qed.

Lemma store_dev_inv dev c s u s' :
  store_dev dev c s = Ret (u, s') ->
  s' = st_devList (update_dev dev c (g_devList s)) s
  /\ exists c0, lookup_dev dev (g_devList s) = Some c0.
Proof.
  mrun. destruct (lookup_dev dev (g_devList s)) as [c0|]; [|discriminate].
  intros H. inversion H. split; [reflexivity|now exists c0].
Qed.

Lemma io_only_refl s : io_only s s.
Proof. repeat split. exists []. now rewrite app_nil_r. Qed.

Lemma io_only_trans s1 s2 s3 : io_only s1 s2 -> io_only s2 s3 -> io_only s1 s3.
Proof.
  intros (A1 & B1 & t1 & C1) (A2 & B2 & t2 & C2). repeat split; try congruence.
  exists (t1 ++ t2). now rewrite C2, C1, app_assoc.
Qed.

Section GuardFacts.
Context {proto : Protocol}.

Lemma write_loop_io_only fuel : forall hid pOut outData outLen s w s',
  write_loop fuel hid pOut outData outLen s = Ret (w, s') -> io_only s s'.
Proof.
  induction fuel as [|fuel IH]; intros hid pOut outData outLen s w s'; [discriminate|].
  unfold write_loop; fold write_loop.
  destruct (_ <? _); [discriminate|].
  mrun. destruct (script s) as [|[] sc] eqn:Hs; try discriminate.
  destruct ((res >? 0) && _).
  - intros H. apply IH in H. eapply io_only_trans; [|exact H].
    repeat split. eexists. reflexivity.
  - intros H. inversion H; subst. repeat split. eexists. reflexivity.
Qed.

Lemma read_loop_io_only fuel : forall hid tid inLen res acc s r s',
  read_loop fuel hid tid inLen res acc s = Ret (r, s') -> io_only s s'.
Proof.
  induction fuel as [|fuel IH]; intros hid tid inLen res acc s r s'.
  - cbn. destruct (res >? 0); [discriminate|]. intros H. inversion H. apply io_only_refl.
  - unfold read_loop; fold read_loop.
    destruct (res >? 0); [|intros H; inversion H; apply io_only_refl].
    mrun. destruct (script s) as [|[] sc] eqn:Hs; try discriminate. mrun.
    assert (Hio : io_only s (mkState (g_devInfoList s) (g_devList s) (g_lastError s) sc
                                     (trace s ++ [EvRead hid res0 pkt]))).
    { repeat split. eexists. reflexivity. }
    destruct (res0 >? 0).
    + destruct (negb _).
      * intros H. apply IH in H. eapply io_only_trans; eauto.
      * destruct (in_resp pkt =? HID_SIO_RES_OK).
        -- destruct (inLen && _); [discriminate|].
           destruct (transfer_complete pkt).
           ++ intros H. inversion H; subst. exact Hio.
           ++ intros H. apply IH in H. eapply io_only_trans; eauto.
        -- intros H. inversion H; subst. exact Hio.
    + destruct (res0 =? 0); intros H; inversion H; subst; exact Hio.
Qed.

Lemma guard_of_update dev c c0 l s :
  lookup_dev dev l = Some c0 ->
  g_devList s = update_dev dev c l ->
  guard_of dev s = Some (sioMutex c).
Proof.
  intros E H. unfold guard_of. rewrite H, (lookup_update_eq _ _ _ _ E). reflexivity.
Qed.

(** The read phase when a zero-byte read follows reads that kept the loop
    going: the timeout is returned and the guard released. *)
Lemma read_phase_timeout dev hid tid inLen res s c rs pIn rest :
  0 < res ->
  lookup_dev dev (g_devList s) = Some c -> sioMutex c = MutexHeld ->
  Forall (fun r => keeps_reading tid inLen r = true) rs ->
  script s = map RRead' rs ++ RRead 0 pIn :: RUnlock 0 :: rest ->
  exists s',
    read_phase dev hid tid inLen res s
    = Ret ((LPCUSBSIO_ERR_TIMEOUT, gathered tid inLen rs), s')
    /\ guard_of dev s' = Some MutexFree
    /\ g_lastError s' = LPCUSBSIO_ERR_TIMEOUT
    /\ script s' = rest.
Proof.
  intros Hres E Hm Hkeep Hs.
  unfold read_phase, bind at 1, replies_left.
  rewrite Hs.
  replace (S (List.length (map RRead' rs ++ RRead 0 pIn :: RUnlock 0 :: rest)))
    with (List.length rs + S (S (S (List.length rest))))%nat
    by (rewrite length_app, length_map; cbn [List.length]; lia).
  unfold bind at 1.
  rewrite (read_loop_prefix rs _ hid tid inLen res [] s (RRead 0 pIn :: RUnlock 0 :: rest)
             Hres Hkeep Hs).
  rewrite (read_loop_timeout _ hid tid inLen _ _
             (after_reads hid rs (RRead 0 pIn :: RUnlock 0 :: rest) s) pIn (RUnlock 0 :: rest)
             (last_res_pos tid inLen res rs Hres Hkeep) eq_refl).
  set (s2 := after_reads hid [(0, pIn)] _ _).
  assert (E2 : lookup_dev dev (g_devList s2) = Some c) by exact E.
  rewrite (bind_Ret _ _ _ _ _ (pthread_mutex_unlock_run dev c s2 0 rest E2 Hm eq_refl)).
  cbn [negb Z.eqb fst snd app]. mrun.
  eexists. split; [reflexivity|]. repeat split.
  apply (guard_of_update dev (set_sioMutex MutexFree c) c (g_devList s2)); [exact E2|reflexivity].
Qed.

Lemma last_positive (ws : list Z) :
  ws <> [] -> Forall (fun w => 0 < w) ws -> 0 < List.last ws 0.
Proof.
  induction ws as [|w ws IH]; [congruence|]. intros _ H.
  inversion H as [|? ? Hw Hws]; subst.
  destruct ws as [|w' ws']; [exact Hw|]. apply IH; [discriminate|exact Hws].
Qed.

(** C4.  (1) A request on a session whose guard is free, all of whose
    frames the transport accepts, and whose read phase meets a zero-byte
    read after any reads that kept it going, returns
    [LPCUSBSIO_ERR_TIMEOUT] with the guard released.  (2) On every exit
    path of [SIO_SendRequest] on which the guard was taken, the last thing
    the call does is the unlock, and when the unlock succeeds the guard is
    free on return.  (3) With the guard free, the lock of the next request
    on that session succeeds. *)
Theorem SIO_SendRequest_timeout_and_guard_release :
  (forall dev portNum req outData outDataLen inData inLen s c ws rs pIn rest,
     0 < HID_SIO_PACKET_DATA_SZ ->
     ((outDataLen >? 0) && negb (is_Some_bool outData)) || (inLen && negb inData) = false ->
     0 <= outDataLen <= Z.of_nat (List.length (default [] outData)) ->
     lookup_dev dev (g_devList s) = Some c -> sioMutex c = MutexFree ->
     Forall (fun w => 0 < w) ws ->
     List.length ws = frames_needed outDataLen ->
     Forall (fun r => keeps_reading (transId c) inLen r = true) rs ->
     script s = RLock 0 :: map RWrite ws ++ map RRead' rs
                        ++ RRead 0 pIn :: RUnlock 0 :: rest ->
     exists s',
       SIO_SendRequest dev portNum req outData outDataLen inData inLen s
       = Ret ((LPCUSBSIO_ERR_TIMEOUT, gathered (transId c) inLen rs), s')
       /\ guard_of dev s' = Some MutexFree
       /\ g_lastError s' = LPCUSBSIO_ERR_TIMEOUT
       /\ script s' = rest)
  /\ (forall dev portNum req outData outDataLen inData inLen s r s' tr,
        SIO_SendRequest dev portNum req outData outDataLen inData inLen s = Ret (r, s') ->
        trace s' = trace s ++ tr ->
        In (EvLock dev 0) tr ->
        exists tr0 rc, tr = tr0 ++ [EvUnlock dev rc]
                       /\ (rc = 0 -> guard_of dev s' = Some MutexFree))
  /\ (forall dev s sc,
        guard_of dev s = Some MutexFree ->
        script s = RLock 0 :: sc ->
        exists s', pthread_mutex_lock dev s = Ret (0, s')
                   /\ guard_of dev s' = Some MutexHeld /\ script s' = sc).
Proof.
  split; [|split].
  - intros dev portNum req outData outDataLen inData inLen s c ws rs pIn rest
           Hd Hchk Hlen E Hm Hpos Hn Hkeep Hs.
    unfold SIO_SendRequest. rewrite Hchk.
    rewrite (bind_Ret _ _ _ _ _ (pthread_mutex_lock_run _ _ _ _ _ E Hm Hs)).
    change (negb (0 =? 0)) with false. cbv iota.
    set (c1 := set_sioMutex MutexHeld c).
    set (s1 := st_devList _ _).
    assert (E1 : lookup_dev dev (g_devList s1) = Some c1).
    { subst s1. cbn. now apply lookup_update_eq with (c0 := c). }
    rewrite (bind_Ret _ _ _ _ _ (eq_refl : set_lastError LPCUSBSIO_OK s1
                                           = Ret (tt, st_lastError LPCUSBSIO_OK s1))).
    rewrite (bind_Ret _ _ _ _ _ (load_dev_run dev c1 (st_lastError LPCUSBSIO_OK s1) E1)).
    rewrite (bind_Ret _ _ _ _ _ (store_dev_run dev _ c1 (st_lastError LPCUSBSIO_OK s1) E1)).
    set (c2 := set_transId _ c1).
    set (s2 := st_devList _ _).
    assert (E2 : lookup_dev dev (g_devList s2) = Some c2).
    { subst s2. cbn [g_devList st_devList st_lastError]. exact (lookup_update_eq _ _ _ _ E1). }
    assert (Hs2 : script s2 = map RWrite ws ++ (map RRead' rs ++ RRead 0 pIn :: RUnlock 0 :: rest))
      by reflexivity.
    unfold bind at 1, replies_left.
    assert (Hws : ws <> []).
    { intros ->. unfold frames_needed in Hn. cbn in Hn. lia. }
    destruct (write_loop_all_accepted ws (S (List.length (script s2))) (hidDev c1)
                (mkOut (transId c1) portNum req
                       (wrap TRANSFER_LEN_BITS (HID_SIO_CALC_TRANSFER_LEN outDataLen)) 0 0 [])
                (default [] outData) outDataLen s2 _ Hd Hlen Hpos Hn Hs2)
      as (tw & Hrun & _ & _).
    { rewrite Hs2, length_app, length_map. lia. }
    rewrite (bind_Ret _ _ _ _ _ Hrun).
    apply (read_phase_timeout dev (hidDev c1) (transId c1) inLen (List.last ws 0) _ c2 rs pIn rest).
    + now apply last_positive.
    + exact E2.
    + reflexivity.
    + exact Hkeep.
    + reflexivity.
  - intros dev portNum req outData outDataLen inData inLen s r s' tr.
    unfold SIO_SendRequest.
    destruct (_ || _).
    + mrun. intros H. inversion H; subst. cbn [trace]. intros Htr Hin.
      assert (tr = []) by (apply (app_inv_head (trace s)); now rewrite app_nil_r).
      subst. destruct Hin.
    + intros H. apply bind_inv in H as (rc & s1 & Hlock & H).
      destruct (pthread_mutex_lock_inv _ _ _ _ Hlock) as (c & sc & E & Hm & Hs).
      rewrite (pthread_mutex_lock_run _ _ _ _ _ E Hm Hs) in Hlock.
      inversion Hlock as [Hs1]; clear Hlock.
      destruct (Z.eqb_spec rc 0) as [->|Hrc]; cbn [negb] in H.
      * (* the guard is held *)
        cbn [Z.eqb] in Hs1.
        apply bind_inv in H as ([] & s2 & H2 & H). revert H2. mrun. intros H2.
        inversion H2 as [Hs2]; clear H2.
        apply bind_inv in H as (c1 & s3 & H3 & H).
        apply bind_inv in H as ([] & s4 & H4 & H).
        apply bind_inv in H as (fuel & s5 & H5 & H).
        apply bind_inv in H as (w & s6 & H6 & H).
        unfold read_phase in H.
        apply bind_inv in H as (fuel' & s7 & H7 & H).
        apply bind_inv in H as (r0 & s8 & H8 & H).
        apply bind_inv in H as (rc' & s9 & H9 & H).
        apply load_dev_inv in H3 as [-> E3].
        apply store_dev_inv in H4 as [-> _].
        inversion H5; subst fuel s5; clear H5.
        apply write_loop_io_only in H6 as (_ & D6 & t6 & T6).
        inversion H7; subst fuel' s7; clear H7.
        apply read_loop_io_only in H8 as (_ & D8 & t8 & T8).
        destruct (pthread_mutex_unlock_inv _ _ _ _ H9) as (c8 & sc8 & E8 & Hm8 & Hs8).
        rewrite (pthread_mutex_unlock_run _ _ _ _ _ E8 Hm8 Hs8) in H9.
        inversion H9 as [Hs9]; clear H9.
        revert H. mrun. intros H. inversion H; subst r s'; clear H.
        subst s9 s2 s1. cbn [trace g_devList st_devList st_io] in *.
        rewrite T8, T6. cbn [trace]. intros Htr _.
        rewrite <- !app_assoc in Htr. apply app_inv_head in Htr. subst tr.
        exists ([EvLock dev 0] ++ t6 ++ t8), rc'. split.
        -- now rewrite <- !app_assoc.
        -- intros ->. cbn [Z.eqb].
           apply (guard_of_update dev (set_sioMutex MutexFree c8) c8 (g_devList s8));
             [exact E8|reflexivity].
      * (* the lock failed *)
        revert H. mrun. intros H. inversion H; subst r s'; clear H.
        subst s1. cbn [trace st_devList st_io]. intros Htr Hin.
        apply app_inv_head in Htr. subst tr.
        destruct Hin as [Hin|[]]. inversion Hin. congruence.
  - intros dev s sc Hg Hs. unfold guard_of in Hg.
    destruct (lookup_dev dev (g_devList s)) as [c|] eqn:E; [|discriminate].
    cbn in Hg. inversion Hg as [Hm].
    rewrite (pthread_mutex_lock_run _ _ _ _ _ E Hm Hs).
    eexists. split; [reflexivity|]. split; [|reflexivity].
    apply (guard_of_update dev (set_sioMutex MutexHeld c) c (g_devList s));
      [exact E|reflexivity].
Qed.

End GuardFacts.


(** A reset request whose reply never arrives: one stale report, then
    the timeout. *)
Lemma SIO_SendRequest_timeout_and_guard_release_witness :
  exists s',
    @SIO_SendRequest scenario_protocol 0x1000 0 0 None 0 false false
      (world0 [RLock 0; RWrite 65; RRead 64 stale_report; RRead 0 stale_report; RUnlock 0;
               RLock 0])
    = Ret ((LPCUSBSIO_ERR_TIMEOUT, []), s')
    /\ guard_of 0x1000 s' = Some MutexFree
    /\ g_lastError s' = LPCUSBSIO_ERR_TIMEOUT
    /\ script s' = [RLock 0].
Proof.
  apply (proj1 (@SIO_SendRequest_timeout_and_guard_release scenario_protocol)
           0x1000 0 0 None 0 false false
           (world0 [RLock 0; RWrite 65; RRead 64 stale_report; RRead 0 stale_report; RUnlock 0;
                    RLock 0])
           session0 [65] [(64, stale_report)] stale_report [RLock 0]).
  - reflexivity.
  - reflexivity.
  - simpl. lia.
  - reflexivity.
  - reflexivity.
  - repeat constructor.
  - reflexivity.
  - repeat constructor.
  - reflexivity.
Defined.

(** ** What an exchange leaves of the registry *)

Lemma update_update a c1 c2 l :
  update_dev a c2 (update_dev a c1 l) = update_dev a c2 l.
Proof.
  induction l as [|[b d] l IH]; [reflexivity|]. simpl.
  destruct (Z.eqb_spec a b) as [->|Hne]; simpl.
  - now rewrite Z.eqb_refl.
  - destruct (Z.eqb_spec a b); [contradiction|]. now rewrite IH.
Qed.

Lemma update_dev_addrs a c l : map fst (update_dev a c l) = map fst l.
Proof.
  induction l as [|[b d] l IH]; [reflexivity|]. simpl.
  destruct (a =? b); simpl; [reflexivity|now rewrite IH].
Qed.

Lemma same_ports_refl c : same_ports c c.
Proof. now repeat split. Qed.

Lemma same_ports_trans c1 c2 c3 : same_ports c1 c2 -> same_ports c2 c3 -> same_ports c1 c3.
Proof. unfold same_ports. intuition congruence. Qed.

Lemma validHandle_loop_addrs dev l l' :
  map fst l' = map fst l -> validHandle_loop dev l' = validHandle_loop dev l.
Proof.
  revert l'. induction l as [|[b d] l IH]; intros [|[b' d'] l'] H; try discriminate.
  - reflexivity.
  - cbn in H. inversion H; subst. cbn. destruct (dev =? b); [reflexivity|]. now apply IH.
Qed.

Section RegistryFacts.
Context {proto : Protocol} {abi : Layout}.


Lemma find_slot_addrs h l l' :
  map fst l' = map fst l -> find_slot h l' = find_slot h l.
Proof.
  revert l'. induction l as [|[b d] l IH]; intros [|[b' d'] l'] H; try discriminate.
  - reflexivity.
  - cbn in H. inversion H; subst. cbn. destruct (_ && _); [reflexivity|]. now apply IH.
Qed.

Lemma validPortHandle_loop_addrs h l l' :
  map fst l' = map fst l -> validPortHandle_loop h l' = validPortHandle_loop h l.
Proof.
  revert l'. induction l as [|[b d] l IH]; intros [|[b' d'] l'] H; try discriminate.
  - reflexivity.
  - cbn in H. inversion H; subst. cbn. destruct (_ && _); [reflexivity|]. now apply IH.
Qed.

Lemma find_slot_valid h l a k :
  find_slot h l = Some (a, k) -> validPortHandle_loop h l = 1.
Proof.
  induction l as [|[b d] l IH]; [discriminate|]. cbn.
  pose proof sizeof_PortCtrl_pos as Hpos.
  destruct (Z.leb_spec 0 (h - i2cPorts_addr b)); cbn [andb].
  - destruct (Z.ltb_spec (h - i2cPorts_addr b) ((MAX_I2C_PORTS + MAX_SPI_PORTS) * sizeof_PortCtrl));
      cbn [andb].
    + intros _.
      destruct (Z.geb_spec h (i2cPorts_addr b)); [|lia].
      destruct (Z.leb_spec h (i2cPorts_addr b + (MAX_I2C_PORTS + MAX_SPI_PORTS) * sizeof_PortCtrl));
        [reflexivity|lia].
    + intros H'. destruct (_ && _); [reflexivity|]. now apply IH.
  - intros H'. destruct (_ && _); [reflexivity|]. now apply IH.
Qed.

Lemma ports_kept_refl l : ports_kept l l.
Proof. split; [reflexivity|]. intros a c H. exists c. split; [exact H|apply same_ports_refl]. Qed.

Lemma ports_kept_update dev c c' l :
  lookup_dev dev l = Some c -> same_ports c c' -> ports_kept l (update_dev dev c' l).
Proof.
  intros E Hp. split; [apply update_dev_addrs|].
  intros a ca Ha. destruct (Z.eq_dec dev a) as [->|Hne].
  - exists c'. rewrite (lookup_update_eq _ _ _ _ E). split; [reflexivity|]. congruence.
  - exists ca. rewrite (lookup_update_ne _ _ _ _ Hne). split; [exact Ha|apply same_ports_refl].
Qed.

Lemma SIO_SendRequest_ports_kept dev portNum req outData outDataLen inData inLen s r s' :
  SIO_SendRequest dev portNum req outData outDataLen inData inLen s = Ret (r, s') ->
  ports_kept (g_devList s) (g_devList s').
Proof.
  unfold SIO_SendRequest.
  destruct (_ || _).
  { mrun. intros H. inversion H; subst. apply ports_kept_refl. }
  intros H. apply bind_inv in H as (rc & s1 & Hlock & H).
  destruct (pthread_mutex_lock_inv _ _ _ _ Hlock) as (c & sc & E & Hm & Hs).
  rewrite (pthread_mutex_lock_run _ _ _ _ _ E Hm Hs) in Hlock.
  inversion Hlock as [Hs1]; clear Hlock.
  destruct (Z.eqb_spec rc 0) as [->|Hrc]; cbn [negb] in H.
  - cbn [Z.eqb] in Hs1.
    apply bind_inv in H as ([] & s2 & H2 & H). revert H2. mrun. intros H2.
    inversion H2 as [Hs2]; clear H2.
    apply bind_inv in H as (c1 & s3 & H3 & H).
    apply bind_inv in H as ([] & s4 & H4 & H).
    apply bind_inv in H as (fuel & s5 & H5 & H).
    apply bind_inv in H as (w & s6 & H6 & H).
    unfold read_phase in H.
    apply bind_inv in H as (fuel' & s7 & H7 & H).
    apply bind_inv in H as (r0 & s8 & H8 & H).
    apply bind_inv in H as (rc' & s9 & H9 & H).
    apply load_dev_inv in H3 as [-> E3].
    apply store_dev_inv in H4 as [-> _].
    inversion H5; subst fuel s5; clear H5.
    apply write_loop_io_only in H6 as (_ & D6 & _).
    inversion H7; subst fuel' s7; clear H7.
    apply read_loop_io_only in H8 as (_ & D8 & _).
    destruct (pthread_mutex_unlock_inv _ _ _ _ H9) as (c8 & sc8 & E8 & Hm8 & Hs8).
    rewrite (pthread_mutex_unlock_run _ _ _ _ _ E8 Hm8 Hs8) in H9.
    inversion H9 as [Hs9]; clear H9.
    revert H. mrun. intros H. inversion H; subst r s'; clear H.
    subst s9 s2 s1. cbn [g_devList st_devList st_io] in *.
    rewrite D8, D6 in *. cbn [g_devList] in *.
    rewrite (lookup_update_eq _ _ _ _ E) in E3. inversion E3; subst c1; clear E3.
    rewrite update_update in *.
    rewrite (lookup_update_eq _ _ _ _ E) in E8. inversion E8; subst c8; clear E8.
    destruct (rc' =? 0).
    + rewrite !update_update. apply (ports_kept_update dev c _ _ E). now repeat split.
    + rewrite ?update_update. apply (ports_kept_update dev c _ _ E). now repeat split.
  - revert H. mrun. intros H. inversion H; subst r s'; clear H.
    subst s1. cbn [g_devList st_devList st_io]. apply ports_kept_refl.
Qed.

End RegistryFacts.

(** ** Closing and opening ports *)

Section PortFacts.
Context {proto : Protocol} {abi : Layout}.

Lemma load_port_run h s p : port_at h s = Some p -> load_port h s = Ret (p, s).
Proof.
  unfold port_at, load_port. mrun.
  destruct (find_slot h (g_devList s)) as [[a k]|]; [|discriminate].
  destruct (lookup_dev a (g_devList s)); [|discriminate].
  intros ->. reflexivity.
Qed.

Lemma get_slot_same c c' k : same_ports c c' -> get_slot c' k = get_slot c k.
Proof. intros (A & B & _). unfold get_slot. now rewrite A, B. Qed.

Lemma get_set_slot c k p p0 :
  0 <= k -> get_slot c k = Some p0 -> get_slot (set_slot c k p) k = Some p.
Proof.
  intros Hk. unfold get_slot, set_slot. destruct (k <? MAX_I2C_PORTS); cbn; intros H.
  - apply list_lookup_insert_eq. now apply lookup_lt_Some in H.
  - apply list_lookup_insert_eq. now apply lookup_lt_Some in H.
Qed.

Lemma find_slot_nonneg h l a k : find_slot h l = Some (a, k) -> 0 <= k.
Proof.
  pose proof sizeof_PortCtrl_pos as Hpos.
  induction l as [|[b d] l IH]; [discriminate|]. cbn.
  destruct (Z.leb_spec 0 (h - i2cPorts_addr b)); cbn [andb]; [|exact IH].
  destruct (_ && _); [|exact IH].
  intros H'. inversion H'; subst. apply Z.div_pos; lia.
Qed.

Lemma port_at_kept h s s1 a k c p :
  find_slot h (g_devList s) = Some (a, k) ->
  lookup_dev a (g_devList s) = Some c ->
  get_slot c k = Some p ->
  ports_kept (g_devList s) (g_devList s1) ->
  exists c1, find_slot h (g_devList s1) = Some (a, k)
             /\ lookup_dev a (g_devList s1) = Some c1
             /\ same_ports c c1
             /\ port_at h s1 = Some p.
Proof.
  intros Hf E Hg [Haddr Hk]. destruct (Hk a c E) as (c1 & E1 & Hsame).
  exists c1. assert (Hf1 : find_slot h (g_devList s1) = Some (a, k))
    by (now rewrite (find_slot_addrs h _ _ Haddr)).
  split; [exact Hf1|]. split; [exact E1|]. split; [exact Hsame|].
  unfold port_at. rewrite Hf1, E1. now rewrite (get_slot_same _ _ _ Hsame).
Qed.

(** The body shared by [I2C_Close] and [SPI_Close], for the deinit request [req]. *)
Lemma close_port_run (req : Z) (h : ptr) (s : State) (p : LPCUSBSIO_PortCtrl_t)
    (r : Z * list Z) (s1 : State) :
  port_at h s = Some p ->
  SIO_SendRequest (hUsbSio p) (portNum p) req None 0 false false s = Ret (r, s1) ->
  exists s2,
    (v <- validPortHandle h ;;
     if v =? 0 then
       set_lastError LPCUSBSIO_ERR_BAD_HANDLE ;;; ret LPCUSBSIO_ERR_BAD_HANDLE
     else
       devI2c <- load_port h ;;
       r <- SIO_SendRequest (hUsbSio devI2c) (portNum devI2c) req None 0 false false ;;
       let res := fst r in
       (if res =? LPCUSBSIO_OK then store_port h (mkPort NULL 0) else ret tt) ;;;
       ret res) s
    = Ret (fst r, s2)
    /\ trace s2 = trace s1
    /\ port_at h s2 = Some (if fst r =? LPCUSBSIO_OK then mkPort NULL 0 else p).
Proof.
  intros Hp Hx.
  assert (Hp' := Hp). unfold port_at in Hp'.
  destruct (find_slot h (g_devList s)) as [[a k]|] eqn:Hf; [|discriminate].
  destruct (lookup_dev a (g_devList s)) as [c|] eqn:E; [|discriminate].
  pose proof (find_slot_valid _ _ _ _ Hf) as Hv.
  pose proof (find_slot_nonneg _ _ _ _ Hf) as Hk.
  destruct (port_at_kept h s s1 a k c p Hf E Hp' (SIO_SendRequest_ports_kept _ _ _ _ _ _ _ _ _ _ Hx))
    as (c1 & Hf1 & E1 & Hsame & Hp1).
  rewrite (bind_Ret _ _ _ _ _
             (eq_refl : validPortHandle h s = Ret (validPortHandle_loop h (g_devList s), s))).
  rewrite Hv. cbn [Z.eqb].
  rewrite (bind_Ret _ _ _ _ _ (load_port_run _ _ _ Hp)).
  rewrite (bind_Ret _ _ _ _ _ Hx). cbv zeta.
  destruct (fst r =? LPCUSBSIO_OK).
  - unfold store_port. mrun. rewrite Hf1, E1. mrun.
    eexists. split; [reflexivity|]. split; [reflexivity|].
    unfold port_at. cbn [g_devList].
    rewrite (find_slot_addrs h _ _ (update_dev_addrs a _ _)), Hf1.
    rewrite (lookup_update_eq _ _ _ _ E1).
    apply get_set_slot with (p0 := p); [exact Hk|].
    now rewrite (get_slot_same _ _ _ Hsame).
  - mrun. exists s1. repeat split. exact Hp1.
Qed.

(** C5, as the code has it.  For a handle that refers to a port entry [p],
    [I2C_Close] and [SPI_Close] run the deinit exchange on the session and
    port number stored in the entry and return its result; the entry is
    cleared (back-reference NULL, port number 0) when that result is
    [LPCUSBSIO_OK], and is left as it was when the exchange failed.  The
    call logs nothing beyond the exchange. *)
Theorem ClosePort_clears_only_on_success
    (h : ptr) (s : State) (p : LPCUSBSIO_PortCtrl_t) (r : Z * list Z) (s1 : State) :
  port_at h s = Some p ->
  (SIO_SendRequest (hUsbSio p) (portNum p) HID_I2C_REQ_DEINIT_PORT None 0 false false s
   = Ret (r, s1) ->
   exists s2, I2C_Close h s = Ret (fst r, s2)
              /\ trace s2 = trace s1
              /\ port_at h s2 = Some (if fst r =? LPCUSBSIO_OK then mkPort NULL 0 else p))
  /\ (SIO_SendRequest (hUsbSio p) (portNum p) HID_SPI_REQ_DEINIT_PORT None 0 false false s
      = Ret (r, s1) ->
      exists s2, SPI_Close h s = Ret (fst r, s2)
                 /\ trace s2 = trace s1
                 /\ port_at h s2 = Some (if fst r =? LPCUSBSIO_OK then mkPort NULL 0 else p)).
Proof.
  intros Hp. split; intros Hx.
  - exact (close_port_run HID_I2C_REQ_DEINIT_PORT h s p r s1 Hp Hx).
  - exact (close_port_run HID_SPI_REQ_DEINIT_PORT h s p r s1 Hp Hx).
Qed.

End PortFacts.

Section OpenFacts.
Context {proto : Protocol} {abi : Layout}.

Lemma validHandle_run h s v :
  validHandle_loop h (g_devList s) = Ret v -> validHandle h s = Ret (v, s).
Proof. intros H. unfold validHandle. mrun. now rewrite H. Qed.

Lemma slot_addr_inj dev p1 p2 : slot_addr dev p1 = slot_addr dev p2 -> p1 = p2.
Proof.
  unfold slot_addr. pose proof sizeof_PortCtrl_pos as Hpos. intros H.
  assert (E : p1 * sizeof_PortCtrl = p2 * sizeof_PortCtrl) by lia.
  apply Z.mul_cancel_r in E; lia.
Qed.

(** [I2C_Open] on a valid device handle.  (1) A port number at or above
    the session's I2C count yields NULL with [g_lastError] set to
    [LPCUSBSIO_ERR_INVALID_PARAM] and nothing else changed.  (2) A port
    number below the count, with the init-port exchange returning
    [LPCUSBSIO_OK]: when it is also below [MAX_I2C_PORTS] the call yields
    the address of slot [portNum] of the session's table, and that slot
    then holds the back-reference and the port number; from
    [MAX_I2C_PORTS] on, which the count allows when the device reported
    more ports than the table has slots, the store goes past the table.
    (3) Distinct port numbers give distinct addresses. *)
Lemma I2C_Open_range_and_slot :
  (forall s hUsbSio config portNum c,
     validHandle_loop hUsbSio (g_devList s) = Ret 1 ->
     lookup_dev hUsbSio (g_devList s) = Some c ->
     maxI2CPorts c <= portNum ->
     I2C_Open hUsbSio config portNum s
     = Ret (NULL, st_lastError LPCUSBSIO_ERR_INVALID_PARAM s))
  /\ (forall s hUsbSio cfg portNum c q sc r s1,
        validHandle_loop hUsbSio (g_devList s) = Ret 1 ->
        lookup_dev hUsbSio (g_devList s) = Some c ->
        List.length (i2cPorts c) = Z.to_nat MAX_I2C_PORTS ->
        0 <= portNum < maxI2CPorts c ->
        script s = RMalloc q :: sc -> q <> NULL ->
        SIO_SendRequest hUsbSio portNum HID_I2C_REQ_INIT_PORT
          (Some (I2C_PORTCONFIG_bytes cfg)) (Z.of_nat (List.length (I2C_PORTCONFIG_bytes cfg)))
          false false (st_io sc (trace s) s)
        = Ret (r, s1) ->
        fst r = LPCUSBSIO_OK ->
        (portNum < MAX_I2C_PORTS ->
         exists s2 c2,
           I2C_Open hUsbSio (Some cfg) portNum s = Ret (slot_addr hUsbSio portNum, s2)
           /\ lookup_dev hUsbSio (g_devList s2) = Some c2
           /\ i2cPorts c2 !! Z.to_nat portNum = Some (mkPort hUsbSio portNum)
           /\ trace s2 = trace s1)
        /\ (MAX_I2C_PORTS <= portNum -> I2C_Open hUsbSio (Some cfg) portNum s = Fault))
  /\ (forall dev p1 p2, p1 <> p2 -> slot_addr dev p1 <> slot_addr dev p2).
Proof.
  split; [|split].
  - intros s h config portNum c Hv E Hge. unfold I2C_Open.
    rewrite (bind_Ret _ _ _ _ _ (validHandle_run _ _ _ Hv)). cbn [Z.eqb].
    destruct config as [cfg|]; [|reflexivity].
    rewrite (bind_Ret _ _ _ _ _ (load_dev_run _ _ _ E)).
    destruct (Z.geb_spec portNum (maxI2CPorts c)); [reflexivity|lia].
  - intros s h cfg portNum c q sc r s1 Hv E Hlen Hrange Hs Hq Hx Hok.
    destruct (SIO_SendRequest_ports_kept _ _ _ _ _ _ _ _ _ _ Hx) as [_ Hk].
    destruct (Hk h c E) as (c1 & E1 & (Hi & _)).
    split; intros Hslot; unfold I2C_Open;
      rewrite (bind_Ret _ _ _ _ _ (validHandle_run _ _ _ Hv)); cbn [Z.eqb];
      rewrite (bind_Ret _ _ _ _ _ (load_dev_run _ _ _ E));
      (destruct (Z.geb_spec portNum (maxI2CPorts c)); [lia|]);
      unfold bind at 1, malloc, bind at 1, ask; rewrite Hs; unfold ret at 1;
      (destruct (Z.eqb_spec q NULL); [contradiction|]);
      fold (st_io sc (trace s) s);
      rewrite (bind_Ret _ _ _ _ _ Hx); rewrite Hok; cbn [Z.eqb LPCUSBSIO_OK];
      rewrite (bind_Ret _ _ _ _ _ (load_dev_run _ _ _ E1));
      unfold table_store; rewrite Hi, Hlen;
      unfold MAX_I2C_PORTS in *;
      (destruct (Z.leb_spec 0 portNum); [|lia]).
    + destruct (Z.ltb_spec portNum (Z.of_nat (Z.to_nat 8))); [|lia].
      cbn [andb].
      rewrite (bind_Ret _ _ _ _ _ (store_dev_run _ _ _ _ E1)).
      eexists. eexists. split; [reflexivity|]. cbn [g_devList st_devList trace].
      split; [apply (lookup_update_eq _ _ _ _ E1)|]. split; [|reflexivity].
      cbn [i2cPorts set_i2cPorts]. apply list_lookup_insert_eq. lia.
    + destruct (Z.ltb_spec portNum (Z.of_nat (Z.to_nat 8))); [lia|reflexivity].
  - intros dev p1 p2 Hne H. apply Hne. exact (slot_addr_inj _ _ _ H).
Qed.

End OpenFacts.

(** ** Handle validation *)

(** C8 fails on the code.  A handle that is not NULL and not in the live
    list makes [validHandle] walk to the end of the list and read
    [curDev->next] through the null pointer: the loop has no test for the
    end, although the return statement expects [curDev == NULL]. *)
Theorem validHandle_stranger_dereferences_null (dev : ptr) (l : list (ptr * LPCUSBSIO_Ctrl_t)) :
  dev <> NULL -> lookup_dev dev l = None -> validHandle_loop dev l = Fault.
Proof.
  intros Hnull. induction l as [|[a c] l IH]; cbn.
  - intros _. destruct (Z.eqb_spec dev NULL); [contradiction|reflexivity].
  - destruct (dev =? a); [intros H; discriminate H|]. exact IH.
Qed.

Lemma validHandle_stranger_dereferences_null_witness :
  0x2000 <> NULL /\ lookup_dev 0x2000 [(0x1000, session0)] = None
  /\ validHandle_loop 0x2000 [(0x1000, session0)] = Fault.
Proof.
  assert (N : 0x2000 <> NULL) by discriminate.
  assert (L : lookup_dev 0x2000 [(0x1000, session0)] = None) by reflexivity.
  exact (conj N (conj L (validHandle_stranger_dereferences_null 0x2000 _ N L))).
Defined.

(** What the traversal does get right: members and the null handle. *)
Lemma validHandle_member dev l c :
  dev <> NULL -> lookup_dev dev l = Some c -> validHandle_loop dev l = Ret 1.
Proof.
  intros Hnull. induction l as [|[a d] l IH]; cbn; [discriminate|].
  destruct (Z.eqb_spec dev a) as [<-|_]; [|exact IH].
  intros _. destruct (Z.eqb_spec dev NULL); [contradiction|reflexivity].
Qed.

Lemma validHandle_null l :
  lookup_dev NULL l = None -> validHandle_loop NULL l = Ret 0.
Proof.
  unfold NULL. induction l as [|[a d] l IH]; [reflexivity|].
  destruct a; cbn; [intros H; discriminate H|exact IH|exact IH].
Qed.

(** ** Opening a session *)

Section OpenNull.
Context {proto : Protocol}.

(** The ways [LPCUSBSIO_Open] returns NULL: before anything is linked
    (no such index, the transport open failed, no memory), with the
    registry as it was; or after a failed [pthread_mutex_init], with the
    new block at the head of the list. *)
Lemma LPCUSBSIO_Open_null_paths index s s' :
  LPCUSBSIO_Open index s = Ret (NULL, s') ->
  g_devList s' = g_devList s
  \/ exists dev pHid cur_dev,
       dev <> NULL /\ g_devList s' = (dev, zeroed_Ctrl pHid cur_dev) :: g_devList s
       /\ g_lastError s' = LPCUSBSIO_ERR_MUTEX_CREATE.
Proof.
  unfold LPCUSBSIO_Open. intros H.
  apply bind_inv in H as (cur_dev & s1 & K1 & H).
  revert K1. unfold GetDevAtIndex. mrun. intros K1. inversion K1 as [[Kc Ks]]; subst s1; clear K1.
  destruct (cur_dev =? NULL).
  { inversion H. now left. }
  apply bind_inv in H as (pHid & s2 & K2 & H).
  assert (D2 : g_devList s2 = g_devList s).
  { revert K2. mrun. destruct (script s) as [|[] sc]; try discriminate.
    intros K2. now inversion K2. }
  destruct (pHid =? NULL).
  { inversion H. subst. now left. }
  apply bind_inv in H as (dev & s3 & K3 & H).
  assert (D3 : g_devList s3 = g_devList s).
  { revert K3. mrun. destruct (script s2) as [|[] sc]; try discriminate.
    intros K3. inversion K3. subst. exact D2. }
  destruct (Z.eqb_spec dev NULL) as [|Hdev].
  { inversion H. subst. now left. }
  apply bind_inv in H as (l & s4 & K4 & H).
  inversion K4; subst l s4; clear K4.
  destruct (lookup_dev dev (g_devList s3)) eqn:Hfresh; [discriminate|].
  apply bind_inv in H as ([] & s5 & K5 & H). inversion K5; subst s5; clear K5.
  apply bind_inv in H as ([] & s6 & K6 & H). inversion K6; subst s6; clear K6.
  apply bind_inv in H as (inData & s7 & K7 & H).
  assert (D7 : g_devList s7 = (dev, zeroed_Ctrl pHid cur_dev) :: g_devList s).
  { revert K7. mrun. destruct (script s3) as [|[] sc]; try discriminate.
    intros K7. inversion K7. cbn. now rewrite D3. }
  apply bind_inv in H as (res & s8 & K8 & H).
  destruct (res =? 0) eqn:Hres; cbn [negb] in H.
  - (* the mutex exists: the call returns the new handle, not NULL *)
    destruct (inData =? NULL).
    + inversion H. congruence.
    + apply bind_inv in H as (r & s9 & _ & H). cbv zeta in H.
      destruct (12 + MAX_FWVER_STRLEN <? Z.of_nat (List.length (snd r))); [discriminate|].
      apply bind_inv in H as (u & s10 & _ & H). inversion H. congruence.
  - right. exists dev, pHid, cur_dev. split; [exact Hdev|].
    revert H. mrun. intros H. inversion H; subst s'; clear H. cbn.
    revert K8. unfold pthread_mutex_init. mrun. rewrite D7. cbn [lookup_dev].
    rewrite Z.eqb_refl.
    destruct (script s7) as [|[] sc]; try discriminate.
    intros K8. assert (rc = res); [|subst rc].
    { destruct (rc =? 0); revert K8; mrun; rewrite ?D7; cbn [lookup_dev];
        rewrite ?Z.eqb_refl; intros K8; now inversion K8. }
    rewrite Hres in K8. inversion K8. cbn. split; [exact D7|reflexivity].
Qed.

End OpenNull.

(** ** Scenarios *)

Section Scenarios.
#[local] Existing Instance scenario_protocol.
#[local] Existing Instance lp64_layout.


(** C10 fails on the code.  When [pthread_mutex_init] fails, the call
    returns NULL after the new block was linked at the head of the list,
    and the block stays there with its guard uninitialised. *)
Theorem LPCUSBSIO_Open_mutex_failure_leaves_session_linked :
  let s := world_closed [ROpenPath 0x600; RMalloc 0x1000; RMalloc 0x2000; RMutexInit 1] in
  exists s',
    LPCUSBSIO_Open 0 s = Ret (NULL, s')
    /\ g_devList s = []
    /\ g_devList s' = [(0x1000, zeroed_Ctrl 0x600 0x500)]
    /\ guard_of 0x1000 s' = Some MutexUninit
    /\ g_lastError s' = LPCUSBSIO_ERR_MUTEX_CREATE.
Proof. eexists. split; [vm_compute; reflexivity|]. repeat split. Qed.

(** C9 fails on the code.  The count the device reports is stored as it
    comes; with nine I2C ports reported, [I2C_Open] accepts port number 8,
    completes the init exchange and then writes [i2cPorts[8]], past the
    eight slots of the table. *)
Theorem reported_port_count_overruns_table :
  exists s1 c,
    LPCUSBSIO_Open 0
      (world_closed [ROpenPath 0x600; RMalloc 0x1000; RMalloc 0x2000; RMutexInit 0;
                     RLock 0; RWrite 65; RRead 64 nine_ports_info; RUnlock 0])
    = Ret (0x1000, s1)
    /\ lookup_dev 0x1000 (g_devList s1) = Some c
    /\ maxI2CPorts c = 9
    /\ List.length (i2cPorts c) = Z.to_nat MAX_I2C_PORTS
    /\ (8 >=? maxI2CPorts c) = false
    /\ returned (SIO_SendRequest 0x1000 8 HID_I2C_REQ_INIT_PORT
                   (Some (I2C_PORTCONFIG_bytes (mkI2CConfig 100000 0))) 8 false false
                   (with_script [RLock 0; RWrite 65; RRead 64 (ack 1); RUnlock 0] s1))
       = Ret (LPCUSBSIO_OK, [])
    /\ table_store (i2cPorts c) 8 (mkPort 0x1000 8) = None
    /\ I2C_Open 0x1000 (Some (mkI2CConfig 100000 0)) 8
         (with_script [RMalloc 0x3000; RLock 0; RWrite 65; RRead 64 (ack 1); RUnlock 0] s1)
       = Fault.
Proof.
  eexists. eexists. split; [vm_compute; reflexivity|].
  split; [vm_compute; reflexivity|]. repeat split.
Qed.

(** C6 fails on the code, by the defect of C9.  With nine I2C ports
    reported, port number 9 is rejected as the specification says and
    port number 1 gets its slot, but port number 8 is below the session's
    count and the table has no slot 8: with the init-port exchange
    acknowledged,
    the call stores past the table instead of claiming a slot and
    returning it.  The address it computes for the port,
    [&dev->i2cPorts[8]], is that of the first SPI slot, the handle
    [SPI_Open] returns for SPI port 0. *)
Theorem I2C_Open_in_range_port_has_no_slot :
  let init := [RMalloc 0x3000; RLock 0; RWrite 65; RRead 64 (ack 1); RUnlock 0] in
  exists s1 c s2 s3,
    LPCUSBSIO_Open 0
      (world_closed [ROpenPath 0x600; RMalloc 0x1000; RMalloc 0x2000; RMutexInit 0;
                     RLock 0; RWrite 65; RRead 64 nine_ports_info; RUnlock 0])
    = Ret (0x1000, s1)
    /\ lookup_dev 0x1000 (g_devList s1) = Some c
    /\ maxI2CPorts c = 9
    /\ I2C_Open 0x1000 (Some (mkI2CConfig 100000 0)) 9 (with_script init s1)
       = Ret (NULL, st_lastError LPCUSBSIO_ERR_INVALID_PARAM (with_script init s1))
    /\ I2C_Open 0x1000 (Some (mkI2CConfig 100000 0)) 1 (with_script init s1)
       = Ret (slot_addr 0x1000 1, s2)
    /\ port_at (slot_addr 0x1000 1) s2 = Some (mkPort 0x1000 1)
    /\ i2cPorts c !! 8%nat = None
    /\ I2C_Open 0x1000 (Some (mkI2CConfig 100000 0)) 8 (with_script init s1) = Fault
    /\ SPI_Open 0x1000 (Some (mkSPIConfig 1000000 0)) 0 (with_script init s1)
       = Ret (slot_addr 0x1000 8, s3).
Proof.
  cbv zeta. eexists. eexists. eexists. eexists.
  split; [vm_compute; reflexivity|].
  split; [vm_compute; reflexivity|].
  split; [reflexivity|].
  split; [vm_compute; reflexivity|].
  split; [vm_compute; reflexivity|].
  split; [vm_compute; reflexivity|].
  split; [reflexivity|].
  split; [vm_compute; reflexivity|].
  vm_compute. reflexivity.
Qed.

(** ** The theorems at concrete inputs *)

(** The fragmentation scenario of the specification: 300 bytes, capacity 60. *)
Lemma SIO_SendRequest_300_bytes_in_five_frames_witness :
  exists s5,
    SIO_SendRequest 0x1000 0 HID_I2C_REQ_DEVICE_WRITE (Some (replicate 300 0xAA)) 300
      false false
      (world0 [RLock 0; RWrite 65; RWrite 65; RWrite 65; RWrite 65; RWrite 65;
               RRead 64 (ack 7); RUnlock 0])
    = read_phase 0x1000 0x600 7 false 65 s5
    /\ script s5 = [RRead 64 (ack 7); RUnlock 0]
    /\ map out_packet_num (writes_of (trace s5)) = [0; 1; 2; 3; 4]
    /\ map out_packet_len (writes_of (trace s5)) = [64; 64; 64; 64; 64].
Proof.
  destruct (SIO_SendRequest_300_bytes_in_five_frames
              0x1000 0 HID_I2C_REQ_DEVICE_WRITE (replicate 300 0xAA) false false
              (world0 [RLock 0; RWrite 65; RWrite 65; RWrite 65; RWrite 65; RWrite 65;
                       RRead 64 (ack 7); RUnlock 0])
              session0 65 65 65 65 65 [RRead 64 (ack 7); RUnlock 0])
    as (s5 & H1 & H2 & H3 & _).
  - reflexivity.
  - simpl. lia.
  - simpl. lia.
  - reflexivity.
  - intros H. discriminate H.
  - reflexivity.
  - reflexivity.
  - reflexivity.
  - lia.
  - lia.
  - lia.
  - lia.
  - exists s5. split; [exact H1|]. split; [exact H2|]. rewrite H3. split; reflexivity.
Defined.

(** The two-report response: the first report leaves the loop reading, the
    second completes it, [1 * 64 + 24 = 88]. *)
Lemma read_loop_completes_by_report_size_witness :
  read_loop 4 0x600 7 true 65 []
    (world0_held [RRead 64 first_report; RRead 64 second_report; RUnlock 0])
  = Ret ((LPCUSBSIO_OK, replicate 60 1 ++ replicate 20 2),
         after_reads 0x600 [(64, first_report); (64, second_report)] [RUnlock 0]
           (world0_held [RRead 64 first_report; RRead 64 second_report; RUnlock 0])).
Proof.
  refine (read_loop_completes_by_report_size 0x600 7 true 65 []
            (world0_held [RRead 64 first_report; RRead 64 second_report; RUnlock 0])
            [(64, first_report)] (64, second_report) [RUnlock 0] 2%nat _ _ _ _).
  - lia.
  - repeat constructor.
  - constructor; [simpl; lia|constructor].
  - reflexivity.
Defined.

(** C2 as the specification words it fails on that response.  With the
    payload capacity (60) as the multiplier the identity holds at neither
    report, yet the code ends the exchange with success at the second;
    and at a report for which the capacity identity does hold
    ([1 * 60 + 24 = 84]) the code reads on, here into the timeout. *)
Lemma completion_is_not_the_capacity_identity :
  accepted 7 true (64, first_report) = true
  /\ accepted 7 true (64, second_report) = true
  /\ spec_transfer_complete first_report = false
  /\ spec_transfer_complete second_report = false
  /\ returned (read_loop 4 0x600 7 true 65 []
                 (world0_held [RRead 64 first_report; RRead 64 second_report; RUnlock 0]))
     = Ret (LPCUSBSIO_OK, replicate 60 1 ++ replicate 20 2)
  /\ accepted 7 true (64, capacity_report) = true
  /\ spec_transfer_complete capacity_report = true
  /\ returned (read_loop 4 0x600 7 true 65 []
                 (world0_held [RRead 64 first_report; RRead 64 capacity_report;
                               RRead 0 capacity_report]))
     = Ret (LPCUSBSIO_ERR_TIMEOUT, replicate 60 1 ++ replicate 20 2).
Proof. repeat split. Qed.

(** A deinit exchange that the device acknowledges. *)
Lemma ClosePort_clears_only_on_success_witness :
  exists s2,
    I2C_Close port0_handle (world_open [RLock 0; RWrite 65; RRead 64 (ack 7); RUnlock 0])
    = Ret (LPCUSBSIO_OK, s2)
    /\ port_at port0_handle s2 = Some (mkPort NULL 0).
Proof.
  assert (Hp : port_at port0_handle
                 (world_open [RLock 0; RWrite 65; RRead 64 (ack 7); RUnlock 0])
               = Some (mkPort 0x1000 0)) by reflexivity.
  assert (Hx : exists s1,
             SIO_SendRequest 0x1000 0 HID_I2C_REQ_DEINIT_PORT None 0 false false
               (world_open [RLock 0; RWrite 65; RRead 64 (ack 7); RUnlock 0])
             = Ret ((LPCUSBSIO_OK, []), s1)) by (eexists; vm_compute; reflexivity).
  destruct Hx as [s1 Hx].
  destruct (proj1 (ClosePort_clears_only_on_success _ _ _ _ _ Hp) Hx) as (s2 & H1 & _ & H3).
  exists s2. split; [exact H1|exact H3].
Defined.

(** C5 as the specification words it fails when the deinit exchange times
    out: the call returns the error and the slot keeps its back-reference. *)
Lemma I2C_Close_keeps_slot_when_deinit_fails :
  port_at port0_handle (world_open []) = Some (mkPort 0x1000 0)
  /\ exists s2,
       I2C_Close port0_handle (world_open [RLock 0; RWrite 65; RRead 0 (ack 7); RUnlock 0])
       = Ret (LPCUSBSIO_ERR_TIMEOUT, s2)
       /\ port_at port0_handle s2 = Some (mkPort 0x1000 0).
Proof.
  split; [reflexivity|]. eexists. split; [vm_compute; reflexivity|reflexivity].
Qed.

(** The scenario of the specification: four I2C ports, opening port 1;
    port 4 is out of range. *)
Lemma I2C_Open_range_and_slot_witness :
  I2C_Open 0x1000 (Some (mkI2CConfig 100000 0)) 4 (world0 [])
  = Ret (NULL, st_lastError LPCUSBSIO_ERR_INVALID_PARAM (world0 []))
  /\ (exists s2 c2,
        I2C_Open 0x1000 (Some (mkI2CConfig 100000 0)) 1
          (world0 [RMalloc 0x3000; RLock 0; RWrite 65; RRead 64 (ack 7); RUnlock 0])
        = Ret (slot_addr 0x1000 1, s2)
        /\ lookup_dev 0x1000 (g_devList s2) = Some c2
        /\ i2cPorts c2 !! 1%nat = Some (mkPort 0x1000 1))
  /\ slot_addr 0x1000 0 <> slot_addr 0x1000 1.
Proof.
  destruct I2C_Open_range_and_slot as (Hrange & Hslot & Hdistinct).
  split; [|split].
  - apply (Hrange (world0 []) 0x1000 (Some (mkI2CConfig 100000 0)) 4 session0).
    + reflexivity.
    + reflexivity.
    + simpl. lia.
  - assert (Hx : exists s1,
               SIO_SendRequest 0x1000 1 HID_I2C_REQ_INIT_PORT
                 (Some (I2C_PORTCONFIG_bytes (mkI2CConfig 100000 0)))
                 (Z.of_nat (List.length (I2C_PORTCONFIG_bytes (mkI2CConfig 100000 0))))
                 false false
                 (st_io [RLock 0; RWrite 65; RRead 64 (ack 7); RUnlock 0]
                    (trace (world0 [RMalloc 0x3000; RLock 0; RWrite 65; RRead 64 (ack 7);
                                    RUnlock 0]))
                    (world0 [RMalloc 0x3000; RLock 0; RWrite 65; RRead 64 (ack 7); RUnlock 0]))
               = Ret ((LPCUSBSIO_OK, []), s1)) by (eexists; vm_compute; reflexivity).
    destruct Hx as [s1 Hx].
    destruct (Hslot (world0 [RMalloc 0x3000; RLock 0; RWrite 65; RRead 64 (ack 7); RUnlock 0])
                0x1000 (mkI2CConfig 100000 0) 1 session0 0x3000
                [RLock 0; RWrite 65; RRead 64 (ack 7); RUnlock 0] (LPCUSBSIO_OK, []) s1)
      as [Hin _].
    + reflexivity.
    + reflexivity.
    + reflexivity.
    + simpl. lia.
    + reflexivity.
    + discriminate.
    + exact Hx.
    + reflexivity.
    + destruct Hin as (s2 & c2 & H1 & H2 & H3 & _); [reflexivity|].
      exists s2, c2. split; [exact H1|]. split; [exact H2|exact H3].
  - apply Hdistinct. discriminate.
Defined.

(** ** The scenarios end to end *)

(** [I2C_DeviceWrite] of 296 bytes: with the 4 parameter bytes the engine
    gets 300, and five frames leave. *)
Example I2C_DeviceWrite_five_frames :
  exists s',
    I2C_DeviceWrite port0_handle 0x50 (Some (replicate 296 0xAA)) 296 0
      (world_open [RMalloc 0x3000; RLock 0; RWrite 65; RWrite 65; RWrite 65; RWrite 65;
                   RWrite 65; RRead 64 (ack 7); RUnlock 0])
    = Ret (296, s')
    /\ map out_packet_num (writes_of (trace s')) = [0; 1; 2; 3; 4]
    /\ map out_packet_len (writes_of (trace s')) = [64; 64; 64; 64; 64]
    /\ map out_transId (writes_of (trace s')) = [7; 7; 7; 7; 7]
    /\ map out_transfer_len (writes_of (trace s')) = [320; 320; 320; 320; 320].
Proof. eexists. split; [vm_compute; reflexivity|]. repeat split. Qed.

(** A write that times out, then a reset on the same port: the reset takes
    the guard and succeeds. *)
Example timeout_then_reset :
  returned
    (bind (I2C_DeviceWrite port0_handle 0x50 (Some [1; 2; 3]) 3 0)
          (fun r1 => bind (I2C_Reset port0_handle) (fun r2 => ret (r1, r2)))
       (world_open [RMalloc 0x3000; RLock 0; RWrite 65; RRead 0 (ack 7); RUnlock 0;
                    RLock 0; RWrite 65; RRead 64 (ack 8); RUnlock 0]))
  = Ret (LPCUSBSIO_ERR_TIMEOUT, LPCUSBSIO_OK).
Proof. vm_compute. reflexivity. Qed.

(** Closing the same handle twice: the first call succeeds and clears the
    slot; the second passes [validPortHandle], which looks at the address
    only, and hands the cleared back-reference to the engine, which locks
    through the null pointer. No error code comes back. *)
Example I2C_Close_twice :
  returned
    (bind (I2C_Close port0_handle) (fun r1 => bind (I2C_Close port0_handle) (fun r2 => ret (r1, r2)))
       (world_open [RLock 0; RWrite 65; RRead 64 (ack 7); RUnlock 0]))
  = Fault.
Proof. vm_compute. reflexivity. Qed.

End Scenarios.

(** ** The exchange from end to end *)

Section ExchangeRuns.
Context {proto : Protocol}.

Lemma read_loop_end fuel hid tid inLen res acc s r sc v bytes :
  0 < res ->
  script s = RRead' r :: sc ->
  ends tid inLen r = Some (v, bytes) ->
  read_loop (S fuel) hid tid inLen res acc s
  = Ret ((v, acc ++ bytes), after_reads hid [r] sc s).
Proof.
  intros Hres Hs He. destruct r as [n pIn].
  unfold ends, copy_ok in He. cbn [fst snd] in He.
  unfold after_reads, payload_of in *. cbn [map].
  unfold read_loop at 1; fold read_loop.
  replace (res >? 0) with true by (symmetry; apply Z.gtb_lt; exact Hres).
  mrun. rewrite Hs. cbn [RRead' fst snd]. unfold EvRead'. cbn [fst snd].
  destruct (n >? 0).
  - destruct (negb (in_transId pIn =? tid)); [discriminate|].
    destruct (in_resp pIn =? HID_SIO_RES_OK).
    + destruct (inLen && _) eqn:Hc; cbn [negb andb] in He; [discriminate|].
      destruct (transfer_complete pIn); [|discriminate].
      inversion He; subst. destruct inLen; rewrite ?app_nil_r; reflexivity.
    + inversion He; subst. rewrite app_nil_r. reflexivity.
  - destruct (n =? 0); inversion He; subst; rewrite app_nil_r; reflexivity.
Qed.

(** The read phase on reads that keep the loop going, then one that ends
    it, then a successful unlock. *)
Lemma read_phase_end dev hid tid inLen res s c rs r v bytes rest :
  0 < res ->
  lookup_dev dev (g_devList s) = Some c -> sioMutex c = MutexHeld ->
  Forall (fun x => keeps_reading tid inLen x = true) rs ->
  ends tid inLen r = Some (v, bytes) ->
  script s = map RRead' rs ++ RRead' r :: RUnlock 0 :: rest ->
  read_phase dev hid tid inLen res s
  = Ret ((v, gathered tid inLen rs ++ bytes),
         mkState (g_devInfoList s)
                 (update_dev dev (set_sioMutex MutexFree c) (g_devList s))
                 v rest
                 (trace s ++ map (EvRead' hid) (rs ++ [r]) ++ [EvUnlock dev 0])).
Proof.
  intros Hres E Hm Hkeep He Hs.
  unfold read_phase, bind at 1, replies_left.
  rewrite Hs.
  replace (S (List.length (map RRead' rs ++ RRead' r :: RUnlock 0 :: rest)))
    with (List.length rs + S (S (S (List.length rest))))%nat
    by (rewrite length_app, length_map; cbn [List.length]; lia).
  unfold bind at 1.
  rewrite (read_loop_prefix rs _ hid tid inLen res [] s (RRead' r :: RUnlock 0 :: rest)
             Hres Hkeep Hs).
  rewrite (read_loop_end _ hid tid inLen _ _
             (after_reads hid rs (RRead' r :: RUnlock 0 :: rest) s) r (RUnlock 0 :: rest) v bytes
             (last_res_pos tid inLen res rs Hres Hkeep) eq_refl He).
  set (s2 := after_reads hid [r] _ _).
  assert (E2 : lookup_dev dev (g_devList s2) = Some c) by exact E.
  rewrite (bind_Ret _ _ _ _ _ (pthread_mutex_unlock_run dev c s2 0 rest E2 Hm eq_refl)).
  cbn [negb Z.eqb fst snd app]. mrun. subst s2. unfold after_reads.
  cbn [g_devInfoList g_devList g_lastError script trace app].
  rewrite map_app, <- !app_assoc. reflexivity.
Qed.

Lemma SIO_SendRequest_to_read_phase dev portNum req outData outDataLen inData inLen s c ws rest :
  0 < HID_SIO_PACKET_DATA_SZ ->
  request_ok outData outDataLen inData inLen ->
  lookup_dev dev (g_devList s) = Some c -> sioMutex c = MutexFree ->
  Forall (fun w => 0 < w) ws ->
  List.length ws = frames_needed outDataLen ->
  script s = RLock 0 :: map RWrite ws ++ rest ->
  exists tw,
    SIO_SendRequest dev portNum req outData outDataLen inData inLen s
    = read_phase dev (hidDev c) (transId c) inLen (List.last ws 0) (written dev c rest tw s)
    /\ List.length tw = List.length ws /\ Forall is_write tw.
Proof.
  intros Hd [Hchk Hlen] E Hm Hpos Hn Hs.
  unfold SIO_SendRequest. fold (rejects outData outDataLen inData inLen). rewrite Hchk.
  rewrite (bind_Ret _ _ _ _ _ (pthread_mutex_lock_run _ _ _ _ _ E Hm Hs)).
  change (negb (0 =? 0)) with false. cbv iota.
  set (c1 := set_sioMutex MutexHeld c).
  set (s1 := st_devList _ _).
  assert (E1 : lookup_dev dev (g_devList s1) = Some c1).
  { subst s1. cbn. now apply lookup_update_eq with (c0 := c). }
  rewrite (bind_Ret _ _ _ _ _ (eq_refl : set_lastError LPCUSBSIO_OK s1
                                         = Ret (tt, st_lastError LPCUSBSIO_OK s1))).
  rewrite (bind_Ret _ _ _ _ _ (load_dev_run dev c1 (st_lastError LPCUSBSIO_OK s1) E1)).
  rewrite (bind_Ret _ _ _ _ _ (store_dev_run dev _ c1 (st_lastError LPCUSBSIO_OK s1) E1)).
  set (s2 := st_devList _ _).
  assert (Hs2 : script s2 = map RWrite ws ++ rest) by reflexivity.
  unfold bind at 1, replies_left.
  destruct (write_loop_all_accepted ws (S (List.length (script s2))) (hidDev c1)
              (mkOut (transId c1) portNum req
                     (wrap TRANSFER_LEN_BITS (HID_SIO_CALC_TRANSFER_LEN outDataLen)) 0 0 [])
              (default [] outData) outDataLen s2 _ Hd Hlen Hpos Hn Hs2)
    as (tw & Hrun & Hl & Hw).
  { rewrite Hs2, length_app, length_map. lia. }
  rewrite (bind_Ret _ _ _ _ _ Hrun).
  exists tw. split; [|split; assumption].
  subst s2 s1 c1. unfold written.
  cbn [g_devInfoList g_devList g_lastError script trace st_devList st_io st_lastError
       Z.eqb hidDev transId set_sioMutex].
  rewrite update_update, <- app_assoc. reflexivity.
Qed.

End ExchangeRuns.

Section WriteFrames.
Context {proto : Protocol}.

(** The frames of the write loop: what each carries, and how the replies
    of the transport end it. *)
Lemma write_loop_frames fuel : forall hid pOut outData outLen s w s',
  write_loop fuel hid pOut outData outLen s = Ret (w, s') ->
  exists fs ws,
    g_devInfoList s' = g_devInfoList s /\ g_devList s' = g_devList s
    /\ g_lastError s' = g_lastError s
    /\ script s = map RWrite (ws ++ [w]) ++ script s'
    /\ trace s' = trace s ++ map (EvWrite' hid) fs
    /\ map snd fs = ws ++ [w]
    /\ Forall (fun x => 0 < x) ws
    /\ Forall (same_header pOut) (map fst fs)
    /\ map out_packet_num (map fst fs) = packet_numbers (out_packet_num pOut) (List.length fs)
    /\ (0 <= HID_SIO_PACKET_HEADER_SZ -> 0 < HID_SIO_PACKET_DATA_SZ ->
        HID_SIO_PACKET_HEADER_SZ + HID_SIO_PACKET_DATA_SZ < 2 ^ PACKET_LEN_BITS ->
        0 <= outLen ->
        Forall (fun f => List.length (out_data f) = Z.to_nat HID_SIO_PACKET_DATA_SZ) (map fst fs)
        /\ (exists k, (k <= Z.to_nat outLen)%nat
                      /\ concat (map used_of (map fst fs)) = take k outData)
        /\ (0 < w -> concat (map used_of (map fst fs)) = take (Z.to_nat outLen) outData)).
Proof.
  induction fuel as [|fuel IH]; intros hid pOut outData outLen s w s'; [discriminate|].
  unfold write_loop; fold write_loop.
  fold (oneTx_of outLen).
  destruct (Z.ltb_spec (Z.of_nat (List.length outData)) (oneTx_of outLen)) as [|Hbuf];
    [discriminate|].
  mrun. destruct (script s) as [|[] sc] eqn:Hs; try discriminate.
  cbn [out_transId out_sesId out_req out_transfer_len out_packet_num out_packet_len out_data].
  pose (pkt := mkOut (out_transId pOut) (out_sesId pOut) (out_req pOut)
                 (out_transfer_len pOut) (out_packet_num pOut)
                 (wrap PACKET_LEN_BITS (oneTx_of outLen + HID_SIO_PACKET_HEADER_SZ))
                 (take (Z.to_nat (oneTx_of outLen)) outData
                    ++ replicate (Z.to_nat (HID_SIO_PACKET_DATA_SZ - oneTx_of outLen)) 0)).
  assert (Hone : 0 < HID_SIO_PACKET_DATA_SZ -> 0 <= outLen ->
                 0 <= oneTx_of outLen <= outLen /\ oneTx_of outLen <= HID_SIO_PACKET_DATA_SZ).
  { unfold oneTx_of. destruct (Z.gtb_spec outLen HID_SIO_PACKET_DATA_SZ); lia. }
  assert (Hused : 0 <= HID_SIO_PACKET_HEADER_SZ -> 0 < HID_SIO_PACKET_DATA_SZ ->
                  HID_SIO_PACKET_HEADER_SZ + HID_SIO_PACKET_DATA_SZ < 2 ^ PACKET_LEN_BITS ->
                  0 <= outLen ->
                  used_of pkt = take (Z.to_nat (oneTx_of outLen)) outData
                  /\ List.length (out_data pkt) = Z.to_nat HID_SIO_PACKET_DATA_SZ).
  { intros Hh Hd Hb Hlen. specialize (Hone Hd Hlen). split.
    - unfold used_of, pkt. cbn [out_packet_len out_data].
      rewrite wrap_small by lia.
      replace (oneTx_of outLen + HID_SIO_PACKET_HEADER_SZ - HID_SIO_PACKET_HEADER_SZ)
        with (oneTx_of outLen) by lia.
      rewrite take_app_le by (rewrite length_take; lia).
      rewrite take_take. f_equal. lia.
    - unfold pkt. cbn [out_data]. rewrite length_app, length_take, length_replicate. lia. }
  destruct ((res >? 0) && (outLen - oneTx_of outLen >? 0)) eqn:Hc.
  - apply andb_true_iff in Hc as [Hw Hmore].
    apply Z.gtb_lt in Hw. apply Z.gtb_lt in Hmore.
    intros H. apply IH in H.
    destruct H as (fs & ws & A & B & C & D & E & F & G & Hsame & Hnum & Hrest).
    cbn [g_devInfoList g_devList g_lastError script trace] in *.
    exists ((pkt, res) :: fs), (res :: ws).
    repeat match goal with |- _ /\ _ => split end; try assumption.
    + cbn [map app]. rewrite D. reflexivity.
    + rewrite E, <- app_assoc. reflexivity.
    + cbn [map app fst snd]. now rewrite F.
    + now constructor.
    + cbn [map fst]. constructor; [now repeat split|].
      eapply Forall_impl; [exact Hsame|]. intros f (? & ? & ? & ?). now repeat split.
    + cbn [map fst List.length packet_numbers]. now rewrite Hnum.
    + intros Hh Hd Hb Hlen. specialize (Hone Hd Hlen).
      destruct (Hused Hh Hd Hb Hlen) as [Hu Hp].
      destruct (Hrest Hh Hd Hb) as (Hpad & (k & Hk & Hcat) & Hall); [lia|].
      split; [|split].
      * cbn [map fst]. now constructor.
      * exists (Z.to_nat (oneTx_of outLen) + k)%nat. split; [lia|].
        cbn [map fst concat]. rewrite Hu, Hcat. apply take_take_drop.
      * intros Hpos. cbn [map fst concat]. rewrite Hu, (Hall Hpos), take_take_drop.
        f_equal. lia.
  - intros H. inversion H; subst; clear H.
    exists [(pkt, w)], []. cbn [g_devInfoList g_devList g_lastError script trace map app fst snd
                                  concat List.length packet_numbers].
    repeat match goal with |- _ /\ _ => split end; try reflexivity.
    + constructor.
    + constructor; [now repeat split|constructor].
    + intros Hh Hd Hb Hlen. specialize (Hone Hd Hlen).
      destruct (Hused Hh Hd Hb Hlen) as [Hu Hp]. rewrite app_nil_r.
      split; [|split].
      * constructor; [assumption|constructor].
      * exists (Z.to_nat (oneTx_of outLen)). split; [lia|exact Hu].
      * intros Hpos. rewrite Hu. f_equal.
        apply andb_false_iff in Hc as [Hc|Hc].
        -- destruct (Z.gtb_spec w 0); [discriminate|]. lia.
        -- destruct (Z.gtb_spec (outLen - oneTx_of outLen) 0); [discriminate|]. lia.
Qed.

End WriteFrames.

Section ExchangeOutcome.
Context {proto : Protocol}.

Lemma gathered_app tid inLen rs1 rs2 :
  gathered tid inLen (rs1 ++ rs2) = gathered tid inLen rs1 ++ gathered tid inLen rs2.
Proof. unfold gathered. apply flat_map_app. Qed.

(** The whole exchange when every frame is accepted, the reads keep the
    loop going until one ends it, and the guard is released. *)
Lemma SIO_SendRequest_outcome dev portNum req outData outDataLen inData inLen s c ws rs r v bytes rest :
  0 < HID_SIO_PACKET_DATA_SZ ->
  request_ok outData outDataLen inData inLen ->
  lookup_dev dev (g_devList s) = Some c -> sioMutex c = MutexFree ->
  Forall (fun w => 0 < w) ws ->
  List.length ws = frames_needed outDataLen ->
  Forall (fun x => keeps_reading (transId c) inLen x = true) rs ->
  ends (transId c) inLen r = Some (v, bytes) ->
  script s = RLock 0 :: map RWrite ws ++ map RRead' rs ++ RRead' r :: RUnlock 0 :: rest ->
  exists s',
    SIO_SendRequest dev portNum req outData outDataLen inData inLen s
    = Ret ((v, gathered (transId c) inLen rs ++ bytes), s')
    /\ guard_of dev s' = Some MutexFree
    /\ g_lastError s' = v
    /\ script s' = rest.
Proof.
  intros Hd Hreq E Hm Hpos Hn Hkeep He Hs.
  destruct (SIO_SendRequest_to_read_phase dev portNum req outData outDataLen inData inLen s c ws
              _ Hd Hreq E Hm Hpos Hn Hs) as (tw & -> & _ & _).
  assert (Hlast : 0 < List.last ws 0).
  { destruct ws as [|w0 ws0] using rev_ind.
    - unfold frames_needed in Hn. cbn in Hn. lia.
    - rewrite last_last. apply Forall_app in Hpos as [_ Hp]. now inversion Hp. }
  set (c2 := set_transId (uint8 (transId c + 1)) (set_sioMutex MutexHeld c)).
  assert (E2 : lookup_dev dev (g_devList (written dev c
                 (map RRead' rs ++ RRead' r :: RUnlock 0 :: rest) tw s)) = Some c2).
  { cbn. now apply lookup_update_eq with (c0 := c). }
  rewrite (read_phase_end dev (hidDev c) (transId c) inLen _ _ c2 rs r v bytes rest
             Hlast E2 eq_refl Hkeep He eq_refl).
  eexists. split; [reflexivity|]. cbn [g_lastError script]. repeat split.
  unfold guard_of. cbn [g_devList written]. rewrite update_update.
  now rewrite (lookup_update_eq _ _ _ _ E).
Qed.

(** Frames accepted, then one the transport refuses, before the payload is
    out: the loop stops there with the result of that write. *)
Lemma write_loop_rejected ws : forall fuel hid pOut outData outLen s w rest,
  0 < HID_SIO_PACKET_DATA_SZ ->
  0 <= outLen <= Z.of_nat (List.length outData) ->
  Forall (fun x => 0 < x) ws ->
  (List.length ws < frames_needed outLen)%nat ->
  w <= 0 ->
  script s = map RWrite ws ++ RWrite w :: rest ->
  (List.length ws < fuel)%nat ->
  exists tw,
    write_loop fuel hid pOut outData outLen s
    = Ret (w, mkState (g_devInfoList s) (g_devList s) (g_lastError s) rest (trace s ++ tw))
    /\ List.length tw = S (List.length ws)
    /\ Forall is_write tw.
Proof.
  induction ws as [|w0 ws IH]; intros fuel hid pOut outData outLen s w rest Hd Hlen Hpos Hn Hw Hs Hfuel.
  - destruct fuel as [|fuel]; [lia|].
    assert (Hone : oneTx_of outLen <= Z.of_nat (List.length outData)).
    { unfold oneTx_of. destruct (Z.gtb_spec outLen HID_SIO_PACKET_DATA_SZ); lia. }
    rewrite (write_loop_step fuel hid pOut outData outLen s w rest Hs Hone).
    destruct (Z.gtb_spec w 0); [lia|]. cbn [andb].
    eexists. split; [reflexivity|]. split; [reflexivity|].
    constructor; [exact I|constructor].
  - destruct fuel as [|fuel]; [cbn in Hfuel; lia|].
    inversion Hpos as [|? ? Hw0 Hws]; subst.
    assert (Hone : oneTx_of outLen <= Z.of_nat (List.length outData)).
    { unfold oneTx_of. destruct (Z.gtb_spec outLen HID_SIO_PACKET_DATA_SZ); lia. }
    rewrite (write_loop_step fuel hid pOut outData outLen s w0
               (map RWrite ws ++ RWrite w :: rest) Hs Hone).
    replace (w0 >? 0) with true by (symmetry; apply Z.gtb_lt; exact Hw0). cbn [andb].
    cbn [List.length] in Hn, Hfuel.
    unfold oneTx_of in *.
    destruct (Z.gtb_spec outLen HID_SIO_PACKET_DATA_SZ) as [Hbig|Hsmall].
    + destruct (Z.gtb_spec (outLen - HID_SIO_PACKET_DATA_SZ) 0); [|lia].
      rewrite (frames_needed_big outLen Hd Hbig) in Hn.
      match goal with
      | |- context [write_loop fuel hid ?p ?d ?l ?st] =>
          destruct (IH fuel hid p d l st w rest) as (tw & Hrun & Htl & Htw);
            [exact Hd| |exact Hws| |exact Hw|reflexivity| |]
      end.
      * rewrite length_drop. lia.
      * lia.
      * lia.
      * rewrite Hrun. cbn [g_devInfoList g_devList g_lastError script trace].
        eexists. split; [|split].
        -- rewrite <- app_assoc. reflexivity.
        -- cbn [List.length app]. now rewrite Htl.
        -- constructor; [exact I|exact Htw].
    + rewrite (frames_needed_small outLen Hd) in Hn by lia. lia.
Qed.

End ExchangeOutcome.

Section ExchangeInversion.
Context {proto : Protocol}.

Lemma read_loop_reads fuel : forall hid tid inLen res acc s r s',
  read_loop fuel hid tid inLen res acc s = Ret (r, s') ->
  exists rs,
    g_devInfoList s' = g_devInfoList s /\ g_devList s' = g_devList s
    /\ g_lastError s' = g_lastError s
    /\ script s = map RRead' rs ++ script s'
    /\ trace s' = trace s ++ map (EvRead' hid) rs
    /\ (res <= 0 -> rs = [] /\ r = (res, acc)).
Proof.
  induction fuel as [|fuel IH]; intros hid tid inLen res acc s r s'.
  - cbn. destruct (Z.gtb_spec res 0) as [|Hres]; [discriminate|]. intros K. inversion K; subst.
    exists []. cbn. rewrite app_nil_r. repeat split.
  - unfold read_loop; fold read_loop.
    destruct (Z.gtb_spec res 0) as [Hres|Hres].
    2:{ intros K. inversion K; subst. exists []. cbn. rewrite app_nil_r. repeat split. }
    mrun. destruct (script s) as [|[] sc] eqn:Hs; try discriminate. mrun.
    assert (Hone : forall s1 : State,
               s1 = mkState (g_devInfoList s) (g_devList s) (g_lastError s) sc
                            (trace s ++ [EvRead hid res0 pkt]) ->
               exists rs, g_devInfoList s1 = g_devInfoList s /\ g_devList s1 = g_devList s
                 /\ g_lastError s1 = g_lastError s
                 /\ RRead res0 pkt :: sc = map RRead' rs ++ script s1
                 /\ trace s1 = trace s ++ map (EvRead' hid) rs
                 /\ (res <= 0 -> rs = [] /\ r = (res, acc))).
    { intros s1 ->. exists [(res0, pkt)]. cbn. repeat split; lia. }
    assert (Hmore : forall res1 acc1,
               read_loop fuel hid tid inLen res1 acc1
                 (mkState (g_devInfoList s) (g_devList s) (g_lastError s) sc
                          (trace s ++ [EvRead hid res0 pkt])) = Ret (r, s') ->
               exists rs, g_devInfoList s' = g_devInfoList s /\ g_devList s' = g_devList s
                 /\ g_lastError s' = g_lastError s
                 /\ RRead res0 pkt :: sc = map RRead' rs ++ script s'
                 /\ trace s' = trace s ++ map (EvRead' hid) rs
                 /\ (res <= 0 -> rs = [] /\ r = (res, acc))).
    { intros res1 acc1 H. apply IH in H as (rs & A & B & C & D & E & _).
      cbn [g_devInfoList g_devList g_lastError script trace] in *.
      exists ((res0, pkt) :: rs). cbn [map app RRead' EvRead' fst snd].
      rewrite D, E, <- app_assoc. repeat split; try assumption; lia. }
    destruct (res0 >? 0).
    + destruct (negb (in_transId pkt =? tid)); [apply Hmore|].
      destruct (in_resp pkt =? HID_SIO_RES_OK).
      * destruct (inLen && _); [discriminate|].
        destruct (transfer_complete pkt); [|apply Hmore].
        intros H; inversion H; subst. now apply Hone.
      * intros H; inversion H; subst. now apply Hone.
    + destruct (res0 =? 0); intros H; inversion H; subst; now apply Hone.
Qed.

Lemma SIO_SendRequest_inv dev portNum req outData outDataLen inData inLen s r s' :
  SIO_SendRequest dev portNum req outData outDataLen inData inLen s = Ret (r, s') ->
  exchange dev portNum req outData outDataLen inData inLen s r s'.
Proof.
  unfold SIO_SendRequest. fold (rejects outData outDataLen inData inLen).
  destruct (rejects outData outDataLen inData inLen) eqn:Hchk.
  { mrun. intros H. inversion H; subst. now apply ex_rejected. }
  intros H. apply bind_inv in H as (rc & s1 & Hlock & H).
  destruct (pthread_mutex_lock_inv _ _ _ _ Hlock) as (c & sc & E & Hm & Hs).
  rewrite (pthread_mutex_lock_run _ _ _ _ _ E Hm Hs) in Hlock.
  inversion Hlock as [Hs1]; clear Hlock.
  destruct (Z.eqb_spec rc 0) as [->|Hrc]; cbn [negb] in H.
  - cbn [Z.eqb] in Hs1.
    apply bind_inv in H as ([] & s2 & H2 & H). revert H2. mrun. intros H2.
    inversion H2 as [Hs2]; clear H2.
    apply bind_inv in H as (c1 & s3 & H3 & H).
    apply bind_inv in H as ([] & s4 & H4 & H).
    apply bind_inv in H as (fuel & s5 & H5 & H).
    apply bind_inv in H as (w & s6 & H6 & H).
    unfold read_phase in H.
    apply bind_inv in H as (fuel' & s7 & H7 & H).
    apply bind_inv in H as (r0 & s8 & H8 & H).
    apply bind_inv in H as (rc' & s9 & H9 & H).
    apply load_dev_inv in H3 as [-> E3].
    inversion H5; subst fuel s5; clear H5.
    inversion H7; subst fuel' s7; clear H7.
    destruct (pthread_mutex_unlock_inv _ _ _ _ H9) as (c8 & sc8 & E8 & Hm8 & Hs8).
    rewrite (pthread_mutex_unlock_run _ _ _ _ _ E8 Hm8 Hs8) in H9.
    inversion H9 as [Hs9]; clear H9.
    subst s2 s1. cbn [g_devList st_devList st_io st_lastError] in *.
    rewrite (lookup_update_eq _ _ _ _ E) in E3. inversion E3; subst c1; clear E3.
    revert H4. mrun. rewrite (lookup_update_eq _ _ _ _ E). intros H4.
    inversion H4 as [Hs4]; clear H4. rewrite update_update in Hs4.
    cbn [transId hidDev set_sioMutex] in *.
    assert (Hw : s4 = written dev c sc [] s) by (now subst s4).
    rewrite Hw in H6. cbn [script written] in H6.
    destruct (write_loop_io_only _ _ _ _ _ _ _ _ H6) as (I6 & D6 & _).
    destruct (read_loop_io_only _ _ _ _ _ _ _ _ _ H8) as (I8 & D8 & _).
    rewrite D8, D6 in E8. cbn [g_devList written] in E8.
    rewrite (lookup_update_eq _ _ _ _ E) in E8. inversion E8; subst c8; clear E8.
    revert H. mrun. intros H. inversion H; subst r s'; clear H.
    eapply (ex_done _ _ _ _ _ _ _ _ _ _ c sc w s6 r0 s8 rc' sc8); try eassumption; try reflexivity.
    + destruct (rc' =? 0); reflexivity.
    + subst s9. mrun.
      rewrite I8, I6, D8, D6. cbn [g_devInfoList g_devList written].
      destruct (rc' =? 0); cbn [negb]; rewrite ?update_update; reflexivity.
  - revert H. mrun. intros H. inversion H; subst r s'; clear H.
    subst s1. eapply ex_no_guard; try eassumption; reflexivity.
Qed.

End ExchangeInversion.

Section EngineOutcomes.
Context {proto : Protocol}.

(** X1.  An exchange on a free session whose frames are all accepted and
    whose reads keep the loop going until a report of this transaction
    with status OK completes the transfer returns [LPCUSBSIO_OK] with the
    payloads of the accepted reports, in order, as the response; the
    guard is free again and [g_lastError] is [LPCUSBSIO_OK]. *)
Theorem SIO_SendRequest_delivers_response
    dev portNum req outData outDataLen inData inLen s c ws rs r rest :
  0 < HID_SIO_PACKET_DATA_SZ ->
  request_ok outData outDataLen inData inLen ->
  lookup_dev dev (g_devList s) = Some c -> sioMutex c = MutexFree ->
  Forall (fun w => 0 < w) ws ->
  List.length ws = frames_needed outDataLen ->
  Forall (fun x => keeps_reading (transId c) inLen x = true) rs ->
  accepted (transId c) inLen r = true -> transfer_complete (snd r) = true ->
  script s = RLock 0 :: map RWrite ws ++ map RRead' rs ++ RRead' r :: RUnlock 0 :: rest ->
  exists s',
    SIO_SendRequest dev portNum req outData outDataLen inData inLen s
    = Ret ((LPCUSBSIO_OK, gathered (transId c) inLen (rs ++ [r])), s')
    /\ guard_of dev s' = Some MutexFree
    /\ g_lastError s' = LPCUSBSIO_OK
    /\ script s' = rest.
Proof.
  intros Hd Hreq E Hm Hpos Hn Hkeep Hacc Hdone Hs.
  unfold accepted in Hacc.
  apply andb_true_iff in Hacc as [Hacc Hcopy].
  apply andb_true_iff in Hacc as [Hacc Hok].
  apply andb_true_iff in Hacc as [Hgot Htid].
  rewrite gathered_app.
  assert (Hlast : gathered (transId c) inLen [r]
                  = if inLen then payload_of (snd r) else []).
  { unfold gathered, stale. cbn [flat_map]. rewrite Htid, andb_false_r, app_nil_r.
    reflexivity. }
  rewrite Hlast.
  apply (SIO_SendRequest_outcome dev portNum req outData outDataLen inData inLen s c ws rs r);
    try assumption.
  unfold ends. now rewrite Hgot, Htid, Hok, Hcopy, Hdone.
Qed.

(** X2.  When the report of this transaction carries a status other than
    OK, the exchange ends there: the call returns the converted status,
    [g_lastError] holds it, the payload of that report is not copied, and
    the guard is released. *)
Theorem SIO_SendRequest_device_status
    dev portNum req outData outDataLen inData inLen s c ws rs r rest :
  0 < HID_SIO_PACKET_DATA_SZ ->
  request_ok outData outDataLen inData inLen ->
  lookup_dev dev (g_devList s) = Some c -> sioMutex c = MutexFree ->
  Forall (fun w => 0 < w) ws ->
  List.length ws = frames_needed outDataLen ->
  Forall (fun x => keeps_reading (transId c) inLen x = true) rs ->
  0 < fst r -> in_transId (snd r) = transId c -> in_resp (snd r) <> HID_SIO_RES_OK ->
  script s = RLock 0 :: map RWrite ws ++ map RRead' rs ++ RRead' r :: RUnlock 0 :: rest ->
  exists s',
    SIO_SendRequest dev portNum req outData outDataLen inData inLen s
    = Ret ((ConvertResp (in_resp (snd r)), gathered (transId c) inLen rs), s')
    /\ guard_of dev s' = Some MutexFree
    /\ g_lastError s' = ConvertResp (in_resp (snd r))
    /\ script s' = rest.
Proof.
  intros Hd Hreq E Hm Hpos Hn Hkeep Hgot Htid Hresp Hs.
  rewrite <- (app_nil_r (gathered (transId c) inLen rs)).
  apply (SIO_SendRequest_outcome dev portNum req outData outDataLen inData inLen s c ws rs r);
    try assumption.
  unfold ends.
  replace (fst r >? 0) with true by (symmetry; now apply Z.gtb_lt).
  rewrite Htid, Z.eqb_refl. cbn [negb].
  destruct (Z.eqb_spec (in_resp (snd r)) HID_SIO_RES_OK); [contradiction|reflexivity].
Qed.

(** X3.  A read that fails (a negative result) ends the exchange with
    that very result as the return value and in [g_lastError]; the guard
    is released. *)
Theorem SIO_SendRequest_read_failure
    dev portNum req outData outDataLen inData inLen s c ws rs n pIn rest :
  0 < HID_SIO_PACKET_DATA_SZ ->
  request_ok outData outDataLen inData inLen ->
  lookup_dev dev (g_devList s) = Some c -> sioMutex c = MutexFree ->
  Forall (fun w => 0 < w) ws ->
  List.length ws = frames_needed outDataLen ->
  Forall (fun x => keeps_reading (transId c) inLen x = true) rs ->
  n < 0 ->
  script s = RLock 0 :: map RWrite ws ++ map RRead' rs ++ RRead n pIn :: RUnlock 0 :: rest ->
  exists s',
    SIO_SendRequest dev portNum req outData outDataLen inData inLen s
    = Ret ((n, gathered (transId c) inLen rs), s')
    /\ guard_of dev s' = Some MutexFree
    /\ g_lastError s' = n
    /\ script s' = rest.
Proof.
  intros Hd Hreq E Hm Hpos Hn Hkeep Hneg Hs.
  rewrite <- (app_nil_r (gathered (transId c) inLen rs)).
  apply (SIO_SendRequest_outcome dev portNum req outData outDataLen inData inLen s c ws rs
           (n, pIn)); try assumption.
  unfold ends. cbn [fst snd].
  destruct (Z.gtb_spec n 0); [lia|]. destruct (Z.eqb_spec n 0); [lia|reflexivity].
Qed.

(** X4.  When the transport refuses a frame (a write result of zero or
    less) before the payload is out, no further frame is sent and no
    reply is read: the next call is the unlock, and the result of that
    write is the return value (so a write result of zero reads as
    [LPCUSBSIO_OK]). *)
Theorem SIO_SendRequest_write_failure
    dev portNum req outData outDataLen inData inLen s c ws w rest :
  0 < HID_SIO_PACKET_DATA_SZ ->
  request_ok outData outDataLen inData inLen ->
  lookup_dev dev (g_devList s) = Some c -> sioMutex c = MutexFree ->
  Forall (fun x => 0 < x) ws ->
  (List.length ws < frames_needed outDataLen)%nat ->
  w <= 0 ->
  script s = RLock 0 :: map RWrite ws ++ RWrite w :: RUnlock 0 :: rest ->
  exists s',
    SIO_SendRequest dev portNum req outData outDataLen inData inLen s = Ret ((w, []), s')
    /\ guard_of dev s' = Some MutexFree
    /\ g_lastError s' = w
    /\ script s' = rest.
Proof.
  intros Hd [Hchk Hlen] E Hm Hpos Hn Hw Hs.
  unfold SIO_SendRequest. fold (rejects outData outDataLen inData inLen). rewrite Hchk.
  rewrite (bind_Ret _ _ _ _ _ (pthread_mutex_lock_run _ _ _ _ _ E Hm Hs)).
  change (negb (0 =? 0)) with false. cbv iota.
  set (c1 := set_sioMutex MutexHeld c).
  set (s1 := st_devList _ _).
  assert (E1 : lookup_dev dev (g_devList s1) = Some c1).
  { subst s1. cbn. now apply lookup_update_eq with (c0 := c). }
  rewrite (bind_Ret _ _ _ _ _ (eq_refl : set_lastError LPCUSBSIO_OK s1
                                         = Ret (tt, st_lastError LPCUSBSIO_OK s1))).
  rewrite (bind_Ret _ _ _ _ _ (load_dev_run dev c1 (st_lastError LPCUSBSIO_OK s1) E1)).
  rewrite (bind_Ret _ _ _ _ _ (store_dev_run dev _ c1 (st_lastError LPCUSBSIO_OK s1) E1)).
  set (s2 := st_devList _ _).
  assert (Hs2 : script s2 = map RWrite ws ++ RWrite w :: RUnlock 0 :: rest) by reflexivity.
  unfold bind at 1, replies_left.
  destruct (write_loop_rejected ws (S (List.length (script s2))) (hidDev c1)
              (mkOut (transId c1) portNum req
                     (wrap TRANSFER_LEN_BITS (HID_SIO_CALC_TRANSFER_LEN outDataLen)) 0 0 [])
              (default [] outData) outDataLen s2 w (RUnlock 0 :: rest) Hd Hlen Hpos Hn Hw Hs2)
    as (tw & Hrun & _ & _).
  { rewrite Hs2, length_app, length_map. lia. }
  rewrite (bind_Ret _ _ _ _ _ Hrun).
  set (s3 := mkState _ _ _ _ _).
  unfold read_phase, bind at 1, replies_left.
  unfold bind at 1. cbn [script s3 List.length].
  unfold read_loop. destruct (Z.gtb_spec w 0); [lia|].
  unfold ret at 1.
  set (c2 := set_transId (uint8 (transId c1 + 1)) c1).
  assert (E3 : lookup_dev dev (g_devList s3) = Some c2).
  { subst s3 s2. cbn. now apply lookup_update_eq with (c0 := c1). }
  rewrite (bind_Ret _ _ _ _ _ (pthread_mutex_unlock_run dev c2 s3 0 rest E3 eq_refl eq_refl)).
  cbn [negb Z.eqb fst snd]. mrun.
  eexists. split; [reflexivity|]. cbn [g_lastError script]. repeat split.
  apply (guard_of_update dev (set_sioMutex MutexFree c2) c2 (g_devList s3)); [exact E3|reflexivity].
Qed.

(** X5.  An exchange that got the guard advances the transaction counter
    of its session by one modulo 256 and touches nothing else of the
    registry but that session's guard: every other session, and every
    other field of this one, is as before. *)
Theorem SIO_SendRequest_advances_transId
    dev portNum req outData outDataLen inData inLen s c sc r s' :
  rejects outData outDataLen inData inLen = false ->
  lookup_dev dev (g_devList s) = Some c ->
  script s = RLock 0 :: sc ->
  SIO_SendRequest dev portNum req outData outDataLen inData inLen s = Ret (r, s') ->
  g_devInfoList s' = g_devInfoList s
  /\ exists m,
       g_devList s'
       = update_dev dev (set_sioMutex m (set_transId (uint8 (transId c + 1)) c)) (g_devList s)
       /\ (m = MutexFree <-> exists tr, trace s' = tr ++ [EvUnlock dev 0]).
Proof.
  intros Hchk E Hs H.
  apply SIO_SendRequest_inv in H.
  destruct H as [Hrej Hr Hs'|c0 rc sc0 _ E0 _ Hs0 Hrc _ _
                 |c0 sc0 w s2 r0 s3 rc sc' _ E0 _ Hs0 Hw Hrd Hs3 Hr Hs'].
  - congruence.
  - rewrite Hs in Hs0. inversion Hs0; subst. contradiction.
  - rewrite E in E0. inversion E0; subst c0; clear E0.
    subst s'. cbn [g_devInfoList g_devList trace]. split; [reflexivity|].
    eexists. split; [reflexivity|].
    destruct (Z.eqb_spec rc 0) as [->|Hrc].
    + split; [intros _; now eexists|reflexivity].
    + split; [discriminate|]. intros (tr & Htr).
      apply app_inj_tail in Htr as [_ Htr]. inversion Htr. contradiction.
Qed.

End EngineOutcomes.

Section EngineWire.
Context {proto : Protocol}.

(** X6.  Whatever an exchange that returns did on the wire, it did under
    the guard: it logged nothing at all (the request was rejected), or a
    refused lock only, or a granted lock, at least one write, the reads,
    and the unlock as the last event; and it reads only when every write
    was accepted. *)
Theorem SIO_SendRequest_io_under_guard
    dev portNum req outData outDataLen inData inLen s r s' :
  SIO_SendRequest dev portNum req outData outDataLen inData inLen s = Ret (r, s') ->
  trace s' = trace s
  \/ (exists rc, rc <> 0 /\ trace s' = trace s ++ [EvLock dev rc])
  \/ (exists c fs rs rc,
        lookup_dev dev (g_devList s) = Some c
        /\ fs <> []
        /\ trace s' = trace s ++ EvLock dev 0 :: map (EvWrite' (hidDev c)) fs
                               ++ map (EvRead' (hidDev c)) rs ++ [EvUnlock dev rc]
        /\ (rs <> [] -> Forall (fun x => 0 < snd x) fs)).
Proof.
  intros H. apply SIO_SendRequest_inv in H.
  destruct H as [Hrej Hr Hs'|c rc sc _ E _ Hs Hrc _ Hs'
                 |c sc w s2 r0 s3 rc sc' _ E _ Hs Hw Hrd Hs3 Hr Hs'].
  - left. now subst s'.
  - right; left. exists rc. now subst s'.
  - right; right.
    apply write_loop_frames in Hw
      as (fs & ws & _ & _ & _ & _ & Htr & Hres & Hpos & _).
    apply read_loop_reads in Hrd as (rs & _ & _ & _ & _ & Htr' & Hnone).
    exists c, fs, rs, rc. split; [exact E|]. split; [|split].
    + intros ->. cbn in Hres. now destruct ws.
    + subst s'. cbn [trace]. rewrite Htr', Htr. cbn [trace written].
      rewrite <- !app_assoc. reflexivity.
    + intros Hrs. destruct (Z.ltb_spec 0 w) as [Hw|Hw].
      * apply Forall_map. rewrite Hres. apply Forall_app. split; [exact Hpos|].
        constructor; [exact Hw|constructor].
      * destruct (Hnone Hw) as [-> _]. contradiction.
Qed.

(** X7.  The frames of an exchange that got the guard: each carries the
    session's transaction id, the port number, the request code and the
    transfer length of the whole payload; the packet numbers count up from
    zero; each data field is padded to the frame capacity; and the parts
    the packet lengths announce, put end to end, are a prefix of the
    payload, the whole payload when every frame was accepted. *)
Theorem SIO_SendRequest_frames
    dev portNum req outData outDataLen inData inLen s c sc r s' :
  0 <= HID_SIO_PACKET_HEADER_SZ -> 0 < HID_SIO_PACKET_DATA_SZ ->
  HID_SIO_PACKET_HEADER_SZ + HID_SIO_PACKET_DATA_SZ < 2 ^ PACKET_LEN_BITS ->
  request_ok outData outDataLen inData inLen ->
  lookup_dev dev (g_devList s) = Some c ->
  script s = RLock 0 :: sc ->
  SIO_SendRequest dev portNum req outData outDataLen inData inLen s = Ret (r, s') ->
  exists fs tail,
    trace s' = trace s ++ EvLock dev 0 :: map (EvWrite' (hidDev c)) fs ++ tail
    /\ writes_of tail = []
    /\ Forall (fun f => out_transId f = transId c /\ out_sesId f = portNum /\ out_req f = req
                        /\ out_transfer_len f
                           = wrap TRANSFER_LEN_BITS (HID_SIO_CALC_TRANSFER_LEN outDataLen)
                        /\ List.length (out_data f) = Z.to_nat HID_SIO_PACKET_DATA_SZ)
              (map fst fs)
    /\ map out_packet_num (map fst fs) = packet_numbers 0 (List.length fs)
    /\ (exists k, (k <= Z.to_nat outDataLen)%nat
                  /\ concat (map used_of (map fst fs)) = take k (default [] outData))
    /\ (Forall (fun x => 0 < snd x) fs ->
        concat (map used_of (map fst fs)) = take (Z.to_nat outDataLen) (default [] outData)).
Proof.
  intros Hh Hd Hb [Hchk Hlen] E Hs H. apply SIO_SendRequest_inv in H.
  destruct H as [Hrej Hr Hs'|c0 rc sc0 _ E0 _ Hs0 Hrc _ _
                 |c0 sc0 w s2 r0 s3 rc sc' _ E0 _ Hs0 Hw Hrd Hs3 Hr Hs'].
  - congruence.
  - rewrite Hs in Hs0. inversion Hs0; subst. contradiction.
  - rewrite E in E0. inversion E0; subst c0; clear E0.
    apply write_loop_frames in Hw
      as (fs & ws & _ & _ & _ & _ & Htr & Hres & Hpos & Hsame & Hnum & Hrest).
    destruct (Hrest Hh Hd Hb (proj1 Hlen)) as (Hpad & Hpre & Hall).
    apply read_loop_reads in Hrd as (rs & _ & _ & _ & _ & Htr' & _).
    exists fs, (map (EvRead' (hidDev c)) rs ++ [EvUnlock dev rc]).
    split; [|split; [|split; [|split; [|split]]]].
    + subst s'. cbn [trace]. rewrite Htr', Htr. cbn [trace written].
      rewrite <- !app_assoc. reflexivity.
    + unfold writes_of. rewrite flat_map_app. cbn [flat_map app].
      rewrite app_nil_r. clear. induction rs as [|x rs IH]; [reflexivity|exact IH].
    + apply Forall_forall. intros f Hf.
      rewrite Forall_forall in Hsame, Hpad.
      destruct (Hsame f Hf) as (A & B & C & D). cbn in A, B, C, D.
      repeat split; try assumption. now apply Hpad.
    + exact Hnum.
    + exact Hpre.
    + intros Hacc. apply Hall.
      apply Forall_map in Hacc. rewrite Hres in Hacc.
      apply Forall_app in Hacc as [_ Hacc]. now inversion Hacc.
Qed.

End EngineWire.

(** A write of three bytes answered by the two reports of an 80-byte
    response. *)
Lemma SIO_SendRequest_delivers_response_witness :
  exists s',
    @SIO_SendRequest scenario_protocol 0x1000 0 0 (Some [1; 2; 3]) 3 true true
      (world0 [RLock 0; RWrite 65; RRead 64 first_report; RRead 64 second_report; RUnlock 0])
    = Ret ((LPCUSBSIO_OK,
            @gathered scenario_protocol 7 true ([(64, first_report)] ++ [(64, second_report)])),
           s')
    /\ guard_of 0x1000 s' = Some MutexFree
    /\ g_lastError s' = LPCUSBSIO_OK
    /\ script s' = [].
Proof.
  apply (@SIO_SendRequest_delivers_response scenario_protocol
           0x1000 0 0 (Some [1; 2; 3]) 3 true true
           (world0 [RLock 0; RWrite 65; RRead 64 first_report; RRead 64 second_report;
                    RUnlock 0])
           session0 [65] [(64, first_report)] (64, second_report) []).
  - reflexivity.
  - split; [reflexivity|simpl; lia].
  - reflexivity.
  - reflexivity.
  - repeat constructor.
  - reflexivity.
  - repeat constructor.
  - reflexivity.
  - reflexivity.
  - reflexivity.
Defined.

(** The device answers a reset with status 3. *)
Lemma SIO_SendRequest_device_status_witness :
  exists s',
    @SIO_SendRequest scenario_protocol 0x1000 0 0 None 0 false false
      (world0 [RLock 0; RWrite 65; RRead 64 (mkIn 7 3 4 0 4 []); RUnlock 0])
    = Ret ((@ConvertResp scenario_protocol 3, []), s')
    /\ guard_of 0x1000 s' = Some MutexFree
    /\ g_lastError s' = @ConvertResp scenario_protocol 3
    /\ script s' = [].
Proof.
  apply (@SIO_SendRequest_device_status scenario_protocol
           0x1000 0 0 None 0 false false
           (world0 [RLock 0; RWrite 65; RRead 64 (mkIn 7 3 4 0 4 []); RUnlock 0])
           session0 [65] [] (64, mkIn 7 3 4 0 4 []) []).
  - reflexivity.
  - split; [reflexivity|simpl; lia].
  - reflexivity.
  - reflexivity.
  - repeat constructor.
  - reflexivity.
  - constructor.
  - reflexivity.
  - reflexivity.
  - discriminate.
  - reflexivity.
Defined.

(** The read fails with -1 after one stale report. *)
Lemma SIO_SendRequest_read_failure_witness :
  exists s',
    @SIO_SendRequest scenario_protocol 0x1000 0 0 None 0 false false
      (world0 [RLock 0; RWrite 65; RRead 64 stale_report; RRead (-1) stale_report; RUnlock 0])
    = Ret ((-1, @gathered scenario_protocol 7 false [(64, stale_report)]), s')
    /\ guard_of 0x1000 s' = Some MutexFree
    /\ g_lastError s' = -1
    /\ script s' = [].
Proof.
  apply (@SIO_SendRequest_read_failure scenario_protocol
           0x1000 0 0 None 0 false false
           (world0 [RLock 0; RWrite 65; RRead 64 stale_report; RRead (-1) stale_report;
                    RUnlock 0])
           session0 [65] [(64, stale_report)] (-1) stale_report []).
  - reflexivity.
  - split; [reflexivity|simpl; lia].
  - reflexivity.
  - reflexivity.
  - repeat constructor.
  - reflexivity.
  - repeat constructor.
  - reflexivity.
  - reflexivity.
Defined.

(** The second of three frames is refused. *)
Lemma SIO_SendRequest_write_failure_witness :
  exists s',
    @SIO_SendRequest scenario_protocol 0x1000 0 0 (Some (replicate 130 9)) 130 false false
      (world0 [RLock 0; RWrite 65; RWrite (-1); RUnlock 0; RLock 0])
    = Ret ((-1, []), s')
    /\ guard_of 0x1000 s' = Some MutexFree
    /\ g_lastError s' = -1
    /\ script s' = [RLock 0].
Proof.
  apply (@SIO_SendRequest_write_failure scenario_protocol
           0x1000 0 0 (Some (replicate 130 9)) 130 false false
           (world0 [RLock 0; RWrite 65; RWrite (-1); RUnlock 0; RLock 0])
           session0 [65] (-1) [RLock 0]).
  - reflexivity.
  - split; [reflexivity|vm_compute; split; discriminate].
  - reflexivity.
  - reflexivity.
  - repeat constructor.
  - vm_compute. lia.
  - lia.
  - reflexivity.
Defined.

(** The counter of a session at 255 wraps to 0. *)
Lemma SIO_SendRequest_advances_transId_witness :
  let s := mkState [0x500] [(0x1000, set_transId 255 session0)] 0
                   [RLock 0; RWrite 65; RRead 64 (ack 255); RUnlock 0] [] in
  exists r s',
    @SIO_SendRequest scenario_protocol 0x1000 0 0 None 0 false false s = Ret (r, s')
    /\ g_devInfoList s' = g_devInfoList s
    /\ exists m,
         g_devList s'
         = update_dev 0x1000
             (set_sioMutex m (set_transId (uint8 (transId (set_transId 255 session0) + 1))
                                          (set_transId 255 session0)))
             (g_devList s)
         /\ (m = MutexFree <-> exists tr, trace s' = tr ++ [EvUnlock 0x1000 0]).
Proof.
  intros s. eexists. eexists. split; [vm_compute; reflexivity|].
  eapply (@SIO_SendRequest_advances_transId scenario_protocol
           0x1000 0 0 None 0 false false s (set_transId 255 session0)
           [RWrite 65; RRead 64 (ack 255); RUnlock 0]).
  - reflexivity.
  - reflexivity.
  - reflexivity.
  - vm_compute. reflexivity.
Defined.

(** A reset that is acknowledged. *)
Lemma SIO_SendRequest_io_under_guard_witness :
  let s := world0 [RLock 0; RWrite 65; RRead 64 stale_report; RRead 64 (ack 7); RUnlock 0] in
  exists r s',
    @SIO_SendRequest scenario_protocol 0x1000 0 0 None 0 false false s = Ret (r, s')
    /\ (trace s' = trace s
        \/ (exists rc, rc <> 0 /\ trace s' = trace s ++ [EvLock 0x1000 rc])
        \/ (exists c fs rs rc,
              lookup_dev 0x1000 (g_devList s) = Some c
              /\ fs <> []
              /\ trace s' = trace s ++ EvLock 0x1000 0 :: map (EvWrite' (hidDev c)) fs
                                     ++ map (EvRead' (hidDev c)) rs ++ [EvUnlock 0x1000 rc]
              /\ (rs <> [] -> Forall (fun x => 0 < snd x) fs))).
Proof.
  intros s. eexists. eexists. split; [vm_compute; reflexivity|].
  eapply (@SIO_SendRequest_io_under_guard scenario_protocol 0x1000 0 0 None 0 false false s).
  vm_compute. reflexivity.
Defined.

(** A payload of 130 bytes goes out in three frames. *)
Lemma SIO_SendRequest_frames_witness :
  let s := world0 [RLock 0; RWrite 65; RWrite 65; RWrite 65; RRead 64 (ack 7); RUnlock 0] in
  exists r s',
    @SIO_SendRequest scenario_protocol 0x1000 2 5 (Some (replicate 130 9)) 130 false false s
    = Ret (r, s')
    /\ exists fs tail,
         trace s' = trace s ++ EvLock 0x1000 0 :: map (EvWrite' (hidDev session0)) fs ++ tail
         /\ writes_of tail = []
         /\ Forall (fun f => out_transId f = transId session0 /\ out_sesId f = 2 /\ out_req f = 5
                             /\ out_transfer_len f
                                = wrap (@TRANSFER_LEN_BITS scenario_protocol)
                                       (@HID_SIO_CALC_TRANSFER_LEN scenario_protocol 130)
                             /\ List.length (out_data f)
                                = Z.to_nat (@HID_SIO_PACKET_DATA_SZ scenario_protocol))
                   (map fst fs)
         /\ map out_packet_num (map fst fs) = @packet_numbers scenario_protocol 0 (List.length fs)
         /\ (exists k, (k <= Z.to_nat 130)%nat
                       /\ concat (map (@used_of scenario_protocol) (map fst fs))
                          = take k (default [] (Some (replicate 130 9))))
         /\ (Forall (fun x => 0 < snd x) fs ->
             concat (map (@used_of scenario_protocol) (map fst fs))
             = take (Z.to_nat 130) (default [] (Some (replicate 130 9)))).
Proof.
  intros s. eexists. eexists. split; [vm_compute; reflexivity|].
  eapply (@SIO_SendRequest_frames scenario_protocol
           0x1000 2 5 (Some (replicate 130 9)) 130 false false s session0
           [RWrite 65; RWrite 65; RWrite 65; RRead 64 (ack 7); RUnlock 0]).
  - vm_compute. discriminate.
  - reflexivity.
  - reflexivity.
  - split; [reflexivity|vm_compute; split; discriminate].
  - reflexivity.
  - reflexivity.
  - vm_compute. reflexivity.
Defined.

(** ** Messages for device statuses *)

Section StatusMessages.
Context {proto : Protocol}.

(** X8.  The message for a device status.  A status other than OK is
    converted to minus (status + 0x10), and the translator maps that code
    back: statuses 0 to 5 give the firmware message of the same index, 6
    to 0x0F the catch-all "Firmware error.", 0x10 to 0x13 the bridge
    message of index status - 0x10, 0x14 to 0x1F " Unsupported Error
    Code", and a status of 0x20 or more reads "No errors are recorded.". *)
Theorem GetErrorString_of_device_status (res : Z) :
  res <> HID_SIO_RES_OK ->
  (0 <= res < NUM_FW_ERR_STRINGS ->
   GetErrorString (ConvertResp res) = Ret (msg_at g_fwErrMsgs res))
  /\ (NUM_FW_ERR_STRINGS <= res < 0x10 ->
      GetErrorString (ConvertResp res) = Ret "Firmware error."%string)
  /\ (0x10 <= res < 0x10 + NUM_BRIDGE_ERR_STRINGS ->
      GetErrorString (ConvertResp res) = Ret (msg_at g_BridgeErrMsgs (res - 0x10)))
  /\ (0x10 + NUM_BRIDGE_ERR_STRINGS <= res < 0x20 ->
      GetErrorString (ConvertResp res) = Ret " Unsupported Error Code"%string)
  /\ (0x20 <= res < 2 ^ 31 - 0x10 ->
      GetErrorString (ConvertResp res) = Ret "No errors are recorded."%string).
Proof.
  intros Hne. unfold ConvertResp.
  destruct (Z.eqb_spec res HID_SIO_RES_OK) as [|_]; [contradiction|].
  unfold NUM_FW_ERR_STRINGS, NUM_BRIDGE_ERR_STRINGS.
  repeat split; intros H;
    rewrite GetErrorString_abs by (unfold INT32_MIN; lia);
    replace (Z.abs (- (res + 16))) with (res + 16) by lia;
    unfold GetErrorString, abs;
    (destruct (Z.eqb_spec (res + 16) INT32_MIN) as [E|_]; [unfold INT32_MIN in E; lia|]);
    rewrite (Z.abs_eq (res + 16)) by lia;
    unfold NUM_LIB_ERR_STRINGS, NUM_FW_ERR_STRINGS, NUM_BRIDGE_ERR_STRINGS in *;
    repeat match goal with
           | |- context [?a <? ?b] => destruct (Z.ltb_spec a b); try lia
           end;
    try reflexivity.
  - f_equal. f_equal. lia.
  - f_equal. f_equal. lia.
Qed.

End StatusMessages.

(** Status 2 of the firmware. *)
Lemma GetErrorString_of_device_status_witness :
  GetErrorString (@ConvertResp scenario_protocol 2) = Ret "Transfer aborted due to NAK"%string.
Proof.
  exact (proj1 (@GetErrorString_of_device_status scenario_protocol 2 ltac:(discriminate))
           ltac:(unfold NUM_FW_ERR_STRINGS; lia)).
Defined.


Section PortHandles.
Context {proto : Protocol} {abi : Layout}.

(** X9.  [validPortHandle] looks at the address only: it accepts a
    pointer exactly when it lies between the first port slot of some live
    session and the address one past its last SPI slot, both ends
    included, whether or not a slot starts there and whether or not the
    port is open; its result is 0 or 1. *)
Theorem validPortHandle_accepts_table_range (h : ptr) (l : list (ptr * LPCUSBSIO_Ctrl_t)) :
  (validPortHandle_loop h l = 1
   <-> exists a c, In (a, c) l
                   /\ i2cPorts_addr a <= h
                      <= i2cPorts_addr a + (MAX_I2C_PORTS + MAX_SPI_PORTS) * sizeof_PortCtrl)
  /\ (validPortHandle_loop h l = 0 \/ validPortHandle_loop h l = 1).
Proof.
  induction l as [|[a c] l [IH IH']]; cbn [validPortHandle_loop].
  - split; [|now left]. split; [discriminate|]. intros (a & c & [] & _).
  - destruct (Z.geb_spec h (i2cPorts_addr a)) as [Hlo|Hlo]; cbn [andb].
    + destruct (Z.leb_spec h (i2cPorts_addr a
                               + (MAX_I2C_PORTS + MAX_SPI_PORTS) * sizeof_PortCtrl)) as [Hhi|Hhi].
      * split; [|now right]. split; [|reflexivity].
        intros _. exists a, c. split; [now left|lia].
      * split; [|exact IH']. rewrite IH. split.
        -- intros (b & d & Hin & Hr). exists b, d. split; [now right|exact Hr].
        -- intros (b & d & [Heq|Hin] & Hr); [inversion Heq; subst; lia|].
           exists b, d. now split.
    + split; [|exact IH']. rewrite IH. split.
      * intros (b & d & Hin & Hr). exists b, d. split; [now right|exact Hr].
      * intros (b & d & [Heq|Hin] & Hr); [inversion Heq; subst; lia|].
        exists b, d. now split.
Qed.

(** X10.  A port pointer whose slot is closed (back-reference NULL, as
    after a close or before any open) passes [validPortHandle], and each
    of [I2C_Close], [SPI_Close], [I2C_Reset] and [I2C_DeviceWrite] then
    goes through the null back-reference: no error code comes back. *)
Theorem port_calls_on_closed_slot_fault (h : ptr) (s : State) :
  port_at h s = Some (mkPort NULL 0) ->
  lookup_dev NULL (g_devList s) = None ->
  I2C_Close h s = Fault /\ SPI_Close h s = Fault /\ I2C_Reset h s = Fault
  /\ forall deviceAddress buffer sizeToTransfer options,
       I2C_DeviceWrite h deviceAddress buffer sizeToTransfer options s = Fault.
Proof.
  intros Hp Hnull.
  assert (Hv : validPortHandle h s = Ret (1, s)).
  { unfold validPortHandle. mrun. unfold port_at in Hp.
    destruct (find_slot h (g_devList s)) as [[a k]|] eqn:Hf; [|discriminate].
    now rewrite (find_slot_valid _ _ _ _ Hf). }
  assert (Hlock : forall req, SIO_SendRequest NULL 0 req None 0 false false s = Fault).
  { intros req. unfold SIO_SendRequest. cbn [Z.gtb Z.compare andb orb negb].
    unfold pthread_mutex_lock. mrun. now rewrite Hnull. }
  repeat split; intros;
    [unfold I2C_Close|unfold SPI_Close|unfold I2C_Reset|unfold I2C_DeviceWrite];
    rewrite (bind_Ret _ _ _ _ _ Hv); cbn [Z.eqb];
    rewrite (bind_Ret _ _ _ _ _ (load_port_run _ _ _ Hp)); cbn [hUsbSio portNum].
  - unfold bind at 1. now rewrite Hlock.
  - unfold bind at 1. now rewrite Hlock.
  - unfold bind at 1. now rewrite Hlock.
  - mrun. now rewrite Hnull.
Qed.

End PortHandles.

Section OpenSession.
Context {proto : Protocol}.

Lemma nth_app_pad {A} (l pad : list A) (i : nat) (d : A) :
  (i < List.length l)%nat -> nth i (l ++ pad) d = nth i l d.
Proof. intros H. now apply app_nth1. Qed.

Lemma le32_app_pad (l pad : list Z) :
  (4 <= List.length l)%nat -> le32 (l ++ pad) = le32 l.
Proof.
  intros H. unfold le32. now rewrite !nth_app_pad by lia.
Qed.

Lemma LPCUSBSIO_Open_inv index s dev s' :
  LPCUSBSIO_Open index s = Ret (dev, s') -> dev <> NULL ->
  exists c pHid,
    let cur_dev := GetDevAtIndex_loop (g_devInfoList s) 0 index in
    cur_dev <> NULL /\ pHid <> NULL
    /\ lookup_dev dev (g_devList s) = None
    /\ g_devInfoList s' = g_devInfoList s
    /\ g_devList s' = (dev, c) :: g_devList s
    /\ fresh_block pHid cur_dev c
    /\ ((exists got, capabilities_from got c)
        \/ (no_capabilities c /\ (fwBuild c = g_fwInitVer \/ fwBuild c = EmptyString))).
Proof.
  unfold LPCUSBSIO_Open. intros H Hdev.
  apply bind_inv in H as (cur_dev & s1 & K1 & H).
  revert K1. unfold GetDevAtIndex. mrun. intros K1. inversion K1 as [[Kc Ks]]; subst s1; clear K1.
  destruct (Z.eqb_spec cur_dev NULL) as [|Hcur].
  { inversion H. congruence. }
  rewrite Kc. clear Kc.
  apply bind_inv in H as (pHid & s2 & K2 & H).
  assert (D2 : g_devList s2 = g_devList s /\ g_devInfoList s2 = g_devInfoList s).
  { revert K2. mrun. destruct (script s) as [|[] sc]; try discriminate.
    intros K2. now inversion K2. }
  destruct (Z.eqb_spec pHid NULL) as [|HpHid].
  { inversion H. congruence. }
  apply bind_inv in H as (dev0 & s3 & K3 & H).
  assert (D3 : g_devList s3 = g_devList s /\ g_devInfoList s3 = g_devInfoList s).
  { revert K3. mrun. destruct (script s2) as [|[] sc]; try discriminate.
    intros K3. inversion K3. subst. exact D2. }
  destruct (Z.eqb_spec dev0 NULL) as [|_].
  { inversion H. congruence. }
  apply bind_inv in H as (l & s4 & K4 & H).
  inversion K4; subst l s4; clear K4.
  destruct (lookup_dev dev0 (g_devList s3)) eqn:Hfresh; [discriminate|].
  apply bind_inv in H as ([] & s5 & K5 & H). inversion K5; subst s5; clear K5.
  apply bind_inv in H as ([] & s6 & K6 & H). inversion K6; subst s6; clear K6.
  apply bind_inv in H as (inData & s7 & K7 & H).
  assert (D7 : g_devList s7 = (dev0, zeroed_Ctrl pHid cur_dev) :: g_devList s
               /\ g_devInfoList s7 = g_devInfoList s).
  { revert K7. mrun. destruct (script s3) as [|[] sc]; try discriminate.
    intros K7. inversion K7. cbn. destruct D3 as [-> ->]. now split. }
  destruct D7 as [D7 I7].
  apply bind_inv in H as (res & s8 & K8 & H).
  destruct (res =? 0) eqn:Hres; cbn [negb] in H.
  2:{ revert H. mrun. intros H. inversion H. congruence. }
  pose (c0 := set_sioMutex MutexFree (zeroed_Ctrl pHid cur_dev)).
  assert (D8 : g_devList s8 = (dev0, c0) :: g_devList s /\ g_devInfoList s8 = g_devInfoList s).
  { revert K8. unfold pthread_mutex_init. mrun. rewrite D7. cbn [lookup_dev].
    rewrite Z.eqb_refl.
    destruct (script s7) as [|[] sc]; try discriminate.
    intros K8. assert (rc = res); [|subst rc].
    { destruct (rc =? 0); revert K8; mrun; rewrite ?D7; cbn [lookup_dev];
        rewrite ?Z.eqb_refl; intros K8; now inversion K8. }
    rewrite Hres in K8. revert K8. mrun. rewrite D7. cbn [lookup_dev update_dev].
    rewrite Z.eqb_refl. intros K8. inversion K8. cbn. now split. }
  destruct D8 as [D8 I8].
  rewrite (proj1 D3) in Hfresh.
  assert (Hzero : no_capabilities c0 /\ fwBuild c0 = EmptyString) by (now repeat split).
  assert (Hfb0 : fresh_block pHid cur_dev c0) by (repeat split; discriminate).
  destruct (inData =? NULL).
  { inversion H; subst dev0 s8. exists c0, pHid. cbv zeta.
    repeat match goal with |- _ /\ _ => split end; try assumption.
    right. split; [apply Hzero|now right]. }
  apply bind_inv in H as (r & s9 & K9 & H). cbv zeta in H.
  destruct (Z.ltb_spec (12 + MAX_FWVER_STRLEN) (Z.of_nat (List.length (snd r))))
    as [|Hroom]; [discriminate|].
  apply bind_inv in H as ([] & s10 & K10 & H). inversion H; subst dev0 s10; clear H.
  assert (D9 : g_devInfoList s9 = g_devInfoList s
               /\ exists c1, g_devList s9 = (dev, c1) :: g_devList s
                             /\ fresh_block pHid cur_dev c1
                             /\ no_capabilities c1 /\ fwBuild c1 = EmptyString).
  { apply SIO_SendRequest_inv in K9.
    destruct K9 as [Hrej Hr Hs'|c rc sc _ E _ Hs Hrc _ Hs'
                    |c sc w s2' r0 s3' rc sc' _ E _ Hs Hw Hrd Hs3 Hr Hs'].
    - discriminate.
    - subst s9. cbn [g_devInfoList g_devList]. split; [exact I8|].
      exists c0. rewrite D8. now repeat split.
    - subst s9. cbn [g_devInfoList g_devList]. split; [exact I8|].
      rewrite D8 in E. cbn [lookup_dev] in E. rewrite Z.eqb_refl in E.
      inversion E; subst c; clear E.
      eexists. rewrite D8. cbn [update_dev]. rewrite Z.eqb_refl.
      split; [reflexivity|].
      destruct (rc =? 0); repeat split; discriminate. }
  destruct D9 as (I9 & c1 & D9 & Hfb1 & Hz1 & Hb1).
  destruct (fst r =? LPCUSBSIO_OK).
  - revert K10. unfold parse_dev_info.
    destruct (Z.geb_spec (Z.of_nat (List.length (snd r))) 12) as [Hlen|Hlen].
    + mrun. rewrite D9. cbn [lookup_dev update_dev]. rewrite Z.eqb_refl.
      destruct (Z.leb_spec MAX_FWVER_STRLEN (Z.of_nat (String.length
                 (fwBuild_text
                    (le32 (drop 8 (snd r ++ replicate
                       (Z.to_nat (12 + MAX_FWVER_STRLEN - Z.of_nat (List.length (snd r)))) 0)))
                    (drop 12 (snd r ++ replicate
                       (Z.to_nat (12 + MAX_FWVER_STRLEN - Z.of_nat (List.length (snd r)))) 0))))))
        as [|Hfit]; [discriminate|].
      rewrite D9. cbn [lookup_dev update_dev]. rewrite Z.eqb_refl.
      intros K10. inversion K10; subst s'; clear K10.
      eexists. exists pHid. cbv zeta. cbn [g_devInfoList g_devList].
      repeat match goal with |- _ /\ _ => split end; try assumption; try reflexivity;
        try apply Hfb1.
      left. exists (snd r). unfold capabilities_from.
      cbn [maxI2CPorts maxSPIPorts maxGPIOPorts maxDataSize fwVersion fwBuild
           set_fwBuild set_devInfo].
      rewrite !nth_app_pad by lia.
      rewrite !drop_app_le by lia.
      rewrite !le32_app_pad by (rewrite length_drop; lia).
      repeat match goal with |- _ /\ _ => split end; try reflexivity; try lia.
      rewrite <- (drop_app_le _ _ 12) by lia.
      rewrite <- (le32_app_pad (drop 8 (snd r))
                    (replicate
                       (Z.to_nat (12 + MAX_FWVER_STRLEN - Z.of_nat (List.length (snd r)))) 0))
        by (rewrite length_drop; lia).
      rewrite <- (drop_app_le _ _ 8) by lia.
      unfold MAX_FWVER_STRLEN in *. lia.
    + mrun. intros K10. inversion K10; subst s'; clear K10.
      exists c1, pHid. cbv zeta.
      repeat match goal with |- _ /\ _ => split end; try assumption.
      right. split; [exact Hz1|now right].
  - revert K10. mrun. rewrite D9. cbn [lookup_dev update_dev]. rewrite Z.eqb_refl.
    rewrite D9. cbn [lookup_dev update_dev]. rewrite Z.eqb_refl.
    intros K10. inversion K10; subst s'; clear K10.
    eexists. exists pHid. cbv zeta. cbn [g_devInfoList g_devList].
    repeat match goal with |- _ /\ _ => split end; try assumption; try reflexivity;
      try apply Hfb1.
    right. split; [exact Hz1|now left].
Qed.

End OpenSession.

Ltac orun :=
  repeat progress (mrun; cbn [lookup_dev update_dev Z.eqb negb]; rewrite ?Z.eqb_refl).

Section ExchangeOutcome.
Context {proto : Protocol}.

Lemma SIO_SendRequest_outcome_state
    dev portNum req outData outDataLen inData inLen s c ws rs r v bytes rest :
  0 < HID_SIO_PACKET_DATA_SZ ->
  request_ok outData outDataLen inData inLen ->
  lookup_dev dev (g_devList s) = Some c -> sioMutex c = MutexFree ->
  Forall (fun w => 0 < w) ws ->
  List.length ws = frames_needed outDataLen ->
  Forall (fun x => keeps_reading (transId c) inLen x = true) rs ->
  ends (transId c) inLen r = Some (v, bytes) ->
  script s = RLock 0 :: map RWrite ws ++ map RRead' rs ++ RRead' r :: RUnlock 0 :: rest ->
  exists tr,
    SIO_SendRequest dev portNum req outData outDataLen inData inLen s
    = Ret ((v, gathered (transId c) inLen rs ++ bytes),
           mkState (g_devInfoList s)
                   (update_dev dev (set_transId (uint8 (transId c + 1)) c) (g_devList s))
                   v rest (trace s ++ tr)).
Proof.
  intros Hd Hreq E Hm Hpos Hn Hkeep He Hs.
  destruct (SIO_SendRequest_to_read_phase dev portNum req outData outDataLen inData inLen s c ws
              _ Hd Hreq E Hm Hpos Hn Hs) as (tw & -> & _ & _).
  assert (Hlast : 0 < List.last ws 0).
  { destruct ws as [|w0 ws0] using rev_ind.
    - unfold frames_needed in Hn. cbn in Hn. lia.
    - rewrite last_last. apply Forall_app in Hpos as [_ Hp]. now inversion Hp. }
  set (c2 := set_transId (uint8 (transId c + 1)) (set_sioMutex MutexHeld c)).
  assert (E2 : lookup_dev dev (g_devList (written dev c
                 (map RRead' rs ++ RRead' r :: RUnlock 0 :: rest) tw s)) = Some c2).
  { cbn. now apply lookup_update_eq with (c0 := c). }
  rewrite (read_phase_end dev (hidDev c) (transId c) inLen _ _ c2 rs r v bytes rest
             Hlast E2 eq_refl Hkeep He eq_refl).
  eexists. f_equal. f_equal. cbn [g_devInfoList g_devList trace written].
  rewrite update_update, <- app_assoc.
  replace (set_sioMutex MutexFree c2) with (set_transId (uint8 (transId c + 1)) c);
    [reflexivity|].
  subst c2. unfold set_sioMutex, set_transId. cbn. now rewrite Hm.
Qed.

End ExchangeOutcome.

Section OpenSessionFacts.
Context {proto : Protocol} {abi : Layout}.

Lemma GetDevAtIndex_loop_nth l : forall count index,
  GetDevAtIndex_loop l count index
  = if (count <=? index) && (index - count <? Z.of_nat (List.length l))
    then nth (Z.to_nat (index - count)) l NULL else NULL.
Proof.
  induction l as [|a l IH]; intros count index; cbn [GetDevAtIndex_loop List.length].
  - destruct (count <=? index), (index - count <? Z.of_nat 0);
      cbn [andb nth]; destruct (Z.to_nat (index - count)); reflexivity.
  - destruct (Z.eqb_spec count index) as [->|Hne].
    + rewrite Z.leb_refl, Z.sub_diag. cbn [andb].
      destruct (Z.ltb_spec 0 (Z.of_nat (S (List.length l)))); [reflexivity|lia].
    + rewrite IH.
      destruct (Z.leb_spec (count + 1) index), (Z.leb_spec count index),
               (Z.ltb_spec (index - (count + 1)) (Z.of_nat (List.length l))),
               (Z.ltb_spec (index - count) (Z.of_nat (S (List.length l))));
        try lia; cbn [andb]; try reflexivity.
      replace (Z.to_nat (index - count)) with (S (Z.to_nat (index - (count + 1)))) by lia.
      reflexivity.
Qed.

Lemma GetDevAtIndex_loop_out l : forall count index,
  ~ (count <= index < count + Z.of_nat (List.length l)) ->
  GetDevAtIndex_loop l count index = NULL.
Proof.
  induction l as [|a l IH]; intros count index H; cbn [GetDevAtIndex_loop List.length] in *;
    [reflexivity|].
  destruct (Z.eqb_spec count index) as [->|Hne]; [lia|].
  apply IH. lia.
Qed.

(** X11.  [LPCUSBSIO_Open] with an index that is not the position of an
    entry of the discovery list returns NULL and changes nothing: no call
    to the transport, no allocation, and [g_lastError] keeps its value. *)
Theorem LPCUSBSIO_Open_no_such_index (index : Z) (s : State) :
  ~ (0 <= index < Z.of_nat (List.length (g_devInfoList s))) ->
  LPCUSBSIO_Open index s = Ret (NULL, s).
Proof.
  intros H. unfold LPCUSBSIO_Open, GetDevAtIndex. mrun.
  rewrite (GetDevAtIndex_loop_out _ 0 index) by lia. reflexivity.
Qed.

Lemma lookup_dev_In a c l : lookup_dev a l = Some c -> In (a, c) l.
Proof.
  induction l as [|[b d] l IH]; cbn [lookup_dev]; [discriminate|].
  destruct (Z.eqb_spec a b) as [->|_].
  - intros H. inversion H. now left.
  - intros H. right. now apply IH.
Qed.

(** X12.  A session that [LPCUSBSIO_Open] returns is at the head of the
    registry, in front of the sessions that were there, which are
    untouched; its block was not live before, it refers to the entry of
    the discovery list at that index and to an open transport handle, all
    sixteen port slots are closed, its guard is initialised, and
    [validHandle] accepts it. *)
Theorem LPCUSBSIO_Open_links_session (index : Z) (s : State) (dev : ptr) (s' : State) :
  LPCUSBSIO_Open index s = Ret (dev, s') -> dev <> NULL ->
  0 <= index < Z.of_nat (List.length (g_devInfoList s))
  /\ g_devInfoList s' = g_devInfoList s
  /\ lookup_dev dev (g_devList s) = None
  /\ exists c,
       g_devList s' = (dev, c) :: g_devList s
       /\ hidInfo c = nth (Z.to_nat index) (g_devInfoList s) NULL
       /\ hidDev c <> NULL
       /\ i2cPorts c = replicate (Z.to_nat MAX_I2C_PORTS) (mkPort NULL 0)
       /\ spiPorts c = replicate (Z.to_nat MAX_SPI_PORTS) (mkPort NULL 0)
       /\ sioMutex c <> MutexUninit
       /\ validHandle_loop dev (g_devList s') = Ret 1
       /\ forall h c', lookup_dev h (g_devList s) = Some c' ->
                       lookup_dev h (g_devList s') = Some c'.
Proof.
  intros H Hdev.
  destruct (LPCUSBSIO_Open_inv _ _ _ _ H Hdev)
    as (c & pHid & Hcur & HpHid & Hfresh & HI & HD & (A & B & C & D & E) & _).
  assert (Hrange : 0 <= index < Z.of_nat (List.length (g_devInfoList s))).
  { destruct (Z.le_gt_cases 0 index),
             (Z.lt_ge_cases index (Z.of_nat (List.length (g_devInfoList s))));
      try lia; exfalso; apply Hcur; apply GetDevAtIndex_loop_out; lia. }
  split; [exact Hrange|].
  split; [exact HI|]. split; [exact Hfresh|].
  exists c. rewrite HD.
  repeat match goal with |- _ /\ _ => split end; try assumption; try reflexivity.
  - rewrite A, GetDevAtIndex_loop_nth, Z.sub_0_r.
    destruct (Z.leb_spec 0 index); [|lia].
    destruct (Z.ltb_spec index (Z.of_nat (List.length (g_devInfoList s)))); [|lia].
    reflexivity.
  - congruence.
  - cbn [validHandle_loop head_ptr]. rewrite Z.eqb_refl.
    destruct (Z.eqb_spec dev NULL); [contradiction|reflexivity].
  - intros h c' Hh. cbn [lookup_dev].
    destruct (Z.eqb_spec h dev) as [->|_]; [congruence|exact Hh].
Qed.

(** [LPCUSBSIO_Open] from the call to the end of its exchange: the device
    is found and opened, both blocks are allocated, the guard is created. *)
Lemma LPCUSBSIO_Open_to_exchange
    (index : Z) (s : State) (pHid dev inData : ptr) (sc : list reply)
    (r : Z * list Z) (s1 : State) :
  let cur_dev := GetDevAtIndex_loop (g_devInfoList s) 0 index in
  cur_dev <> NULL -> pHid <> NULL -> dev <> NULL -> inData <> NULL ->
  lookup_dev dev (g_devList s) = None ->
  script s = ROpenPath pHid :: RMalloc dev :: RMalloc inData :: RMutexInit 0 :: sc ->
  SIO_SendRequest dev 0 HID_SIO_REQ_DEV_INFO None 0 true true
    (mkState (g_devInfoList s)
             ((dev, set_sioMutex MutexFree (zeroed_Ctrl pHid cur_dev)) :: g_devList s)
             LPCUSBSIO_OK sc (trace s ++ [EvOpenPath cur_dev pHid]))
  = Ret (r, s1) ->
  LPCUSBSIO_Open index s
  = (if 12 + MAX_FWVER_STRLEN <? Z.of_nat (List.length (snd r)) then fault
     else
       (if fst r =? LPCUSBSIO_OK then parse_dev_info dev (snd r)
        else (c <- load_dev dev ;; store_dev dev (set_fwBuild g_fwInitVer c))) ;;;
       ret dev) s1.
Proof.
  intros cur_dev Hcur HpHid Hdev Hin Hfresh Hs Hx.
  match goal with |- _ = ?R => remember R as rhs eqn:Hrhs end.
  unfold LPCUSBSIO_Open, GetDevAtIndex. mrun. fold cur_dev.
  destruct (Z.eqb_spec cur_dev NULL); [contradiction|].
  rewrite Hs. orun.
  destruct (Z.eqb_spec pHid NULL); [contradiction|]. orun.
  destruct (Z.eqb_spec dev NULL); [contradiction|]. orun.
  rewrite Hfresh. unfold pthread_mutex_init. orun.
  destruct (Z.eqb_spec inData NULL); [contradiction|].
  fold (set_sioMutex MutexFree (zeroed_Ctrl pHid cur_dev)).
  rewrite Hx. subst rhs. reflexivity.
Qed.

(** The state an exchange on the fresh block leaves. *)
Lemma exchange_on_fresh_block
    (dev : ptr) (c0 : LPCUSBSIO_Ctrl_t) (l : list (ptr * LPCUSBSIO_Ctrl_t)) (infos : list ptr)
    (e : Z) (sc : list reply) (tr : list event) (r : Z * list Z) (s1 : State) :
  SIO_SendRequest dev 0 HID_SIO_REQ_DEV_INFO None 0 true true
    (mkState infos ((dev, c0) :: l) e sc tr) = Ret (r, s1) ->
  g_lastError s1 = fst r
  /\ exists c1, g_devList s1 = (dev, c1) :: l /\ same_ports c0 c1
                /\ maxGPIOPorts c1 = maxGPIOPorts c0 /\ maxDataSize c1 = maxDataSize c0
                /\ fwVersion c1 = fwVersion c0 /\ fwBuild c1 = fwBuild c0.
Proof.
  intros Hx. apply SIO_SendRequest_inv in Hx.
  destruct Hx as [Hrej Hr Hs'|c rc sc0 _ E _ Hs0 Hrc Hr Hs'
                  |c sc0 w s2' r0 s3' rc sc' _ E _ Hs0 Hw Hrd Hs3 Hr Hs'].
  - discriminate.
  - subst s1 r. cbn [g_devList g_lastError fst]. split; [reflexivity|].
    exists c0. now repeat split.
  - subst s1. cbn [g_devList g_lastError lookup_dev update_dev] in *.
    rewrite Z.eqb_refl in *. inversion E; subst c; clear E.
    split; [reflexivity|]. eexists. split; [reflexivity|]. now repeat split.
Qed.

(** X13.  When the information request of [LPCUSBSIO_Open] fails, what
    happens depends on how many bytes the exchange had stored before it
    failed.  With at most the [12 + MAX_FWVER_STRLEN] bytes of the block,
    the call still returns the new session: its firmware text is "FW Ver
    Unavailable", all capability counts are zero, [g_lastError] holds the
    error of the exchange, and [I2C_Open] and [SPI_Open] reject every port
    number on it with [LPCUSBSIO_ERR_INVALID_PARAM].  With more, the
    exchange has written past the block. *)
Theorem LPCUSBSIO_Open_without_device_info
    (index : Z) (s : State) (pHid dev inData : ptr) (sc : list reply)
    (r : Z * list Z) (s1 : State) :
  let cur_dev := GetDevAtIndex_loop (g_devInfoList s) 0 index in
  cur_dev <> NULL -> pHid <> NULL -> dev <> NULL -> inData <> NULL ->
  lookup_dev dev (g_devList s) = None ->
  script s = ROpenPath pHid :: RMalloc dev :: RMalloc inData :: RMutexInit 0 :: sc ->
  SIO_SendRequest dev 0 HID_SIO_REQ_DEV_INFO None 0 true true
    (mkState (g_devInfoList s)
             ((dev, set_sioMutex MutexFree (zeroed_Ctrl pHid cur_dev)) :: g_devList s)
             LPCUSBSIO_OK sc (trace s ++ [EvOpenPath cur_dev pHid]))
  = Ret (r, s1) ->
  fst r <> LPCUSBSIO_OK ->
  (Z.of_nat (List.length (snd r)) <= 12 + MAX_FWVER_STRLEN ->
   exists s' c,
     LPCUSBSIO_Open index s = Ret (dev, s')
     /\ lookup_dev dev (g_devList s') = Some c
     /\ fwBuild c = g_fwInitVer
     /\ no_capabilities c
     /\ g_lastError s' = fst r
     /\ (forall cfg p, 0 <= p ->
           I2C_Open dev cfg p s' = Ret (NULL, st_lastError LPCUSBSIO_ERR_INVALID_PARAM s'))
     /\ (forall cfg p, 0 <= p ->
           SPI_Open dev cfg p s' = Ret (NULL, st_lastError LPCUSBSIO_ERR_INVALID_PARAM s')))
  /\ (12 + MAX_FWVER_STRLEN < Z.of_nat (List.length (snd r)) ->
      LPCUSBSIO_Open index s = Fault).
Proof.
  intros cur_dev Hcur HpHid Hdev Hin Hfresh Hs Hx Hfail.
  rewrite (LPCUSBSIO_Open_to_exchange index s pHid dev inData sc r s1
             Hcur HpHid Hdev Hin Hfresh Hs Hx).
  destruct (exchange_on_fresh_block _ _ _ _ _ _ _ _ _ Hx)
    as (Herr & c1 & D1 & (_ & _ & Z1 & Z2) & Z3 & Z4 & Z5 & _).
  cbn [maxI2CPorts maxSPIPorts maxGPIOPorts maxDataSize fwVersion set_sioMutex zeroed_Ctrl]
    in Z1, Z2, Z3, Z4, Z5.
  split; intros Hlen.
  - destruct (Z.ltb_spec (12 + MAX_FWVER_STRLEN) (Z.of_nat (List.length (snd r)))); [lia|].
    destruct (Z.eqb_spec (fst r) LPCUSBSIO_OK); [contradiction|]. orun.
    rewrite D1. orun. rewrite D1. orun.
    eexists. eexists. split; [reflexivity|]. cbn [g_devList g_lastError lookup_dev].
    rewrite Z.eqb_refl. split; [reflexivity|]. split; [reflexivity|].
    split; [now repeat split|]. split; [exact Herr|].
    split; intros cfg p Hp; [unfold I2C_Open|unfold SPI_Open]; unfold validHandle; orun;
      cbn [validHandle_loop head_ptr]; rewrite Z.eqb_refl;
      (destruct (Z.eqb_spec dev NULL); [contradiction|]); orun;
      (destruct cfg; [|reflexivity]); orun;
      cbn [maxI2CPorts maxSPIPorts set_fwBuild];
      [rewrite Z1|rewrite Z2];
      (destruct (Z.geb_spec p 0); [reflexivity|lia]).
  - destruct (Z.ltb_spec (12 + MAX_FWVER_STRLEN) (Z.of_nat (List.length (snd r)))); [|lia].
    reflexivity.
Qed.

(** X14.  What [LPCUSBSIO_Open] makes of the answer to its information
    request.  [got] is the payload of the reports of the exchange that
    the read loop accepted, in order.  (1) More than the
    [12 + MAX_FWVER_STRLEN] bytes of the block: the exchange has written
    past it.  (2) From 12 bytes up to the block: the session gets the
    port counts of bytes 0 to 2 as they come, the maximum data size and
    the firmware version as little-endian words at offsets 4 and 8, and
    the text "FW major.minor tail" when it has fewer than
    [MAX_FWVER_STRLEN] characters; a longer text is written past
    [fwBuild].  (3) Fewer than 12 bytes: the session is returned with all
    capabilities zero and an empty firmware text, and [g_lastError] says
    OK. *)
Theorem LPCUSBSIO_Open_capabilities
    (index : Z) (s : State) (pHid dev inData : ptr) (w : Z)
    (rs : list (Z * HID_SIO_IN_REPORT_T)) (r : Z * HID_SIO_IN_REPORT_T)
    (bytes : list Z) (rest : list reply) :
  let cur_dev := GetDevAtIndex_loop (g_devInfoList s) 0 index in
  0 < HID_SIO_PACKET_DATA_SZ ->
  cur_dev <> NULL -> pHid <> NULL -> dev <> NULL -> inData <> NULL ->
  lookup_dev dev (g_devList s) = None ->
  0 < w ->
  Forall (fun x => keeps_reading 0 true x = true) rs ->
  ends 0 true r = Some (LPCUSBSIO_OK, bytes) ->
  script s = ROpenPath pHid :: RMalloc dev :: RMalloc inData :: RMutexInit 0
             :: RLock 0 :: RWrite w :: map RRead' rs ++ RRead' r :: RUnlock 0 :: rest ->
  let got := gathered 0 true rs ++ bytes in
  let inLen := Z.of_nat (List.length got) in
  let txt := fwBuild_text (le32 (drop 8 got))
               (drop 12 got ++ replicate (Z.to_nat (12 + MAX_FWVER_STRLEN - inLen)) 0) in
  (12 + MAX_FWVER_STRLEN < inLen -> LPCUSBSIO_Open index s = Fault)
  /\ (12 <= inLen <= 12 + MAX_FWVER_STRLEN ->
      MAX_FWVER_STRLEN <= Z.of_nat (String.length txt) ->
      LPCUSBSIO_Open index s = Fault)
  /\ (12 <= inLen <= 12 + MAX_FWVER_STRLEN ->
      Z.of_nat (String.length txt) < MAX_FWVER_STRLEN ->
      exists s' c,
        LPCUSBSIO_Open index s = Ret (dev, s')
        /\ lookup_dev dev (g_devList s') = Some c
        /\ capabilities_from got c
        /\ g_lastError s' = LPCUSBSIO_OK /\ script s' = rest)
  /\ (inLen < 12 ->
      exists s' c,
        LPCUSBSIO_Open index s = Ret (dev, s')
        /\ lookup_dev dev (g_devList s') = Some c
        /\ no_capabilities c /\ fwBuild c = EmptyString
        /\ g_lastError s' = LPCUSBSIO_OK /\ script s' = rest).
Proof.
  intros cur_dev Hd Hcur HpHid Hdev Hin Hfresh Hw Hkeep He Hs got inLen txt.
  pose (c0 := set_sioMutex MutexFree (zeroed_Ctrl pHid cur_dev)).
  destruct (SIO_SendRequest_outcome_state dev 0 HID_SIO_REQ_DEV_INFO None 0 true true
              (mkState (g_devInfoList s) ((dev, c0) :: g_devList s) LPCUSBSIO_OK
                 (RLock 0 :: RWrite w :: map RRead' rs ++ RRead' r :: RUnlock 0 :: rest)
                 (trace s ++ [EvOpenPath cur_dev pHid]))
              c0 [w] rs r LPCUSBSIO_OK bytes rest Hd) as (tr & Hx).
  { split; [reflexivity|]. cbn [default List.length]. lia. }
  { cbn [g_devList lookup_dev]. now rewrite Z.eqb_refl. }
  { reflexivity. }
  { now constructor. }
  { unfold frames_needed. cbn [List.length].
    replace ((0 + HID_SIO_PACKET_DATA_SZ - 1) / HID_SIO_PACKET_DATA_SZ) with 0;
      [reflexivity|].
    symmetry. apply Z.div_small. lia. }
  { exact Hkeep. }
  { exact He. }
  { reflexivity. }
  cbn [transId c0 set_sioMutex zeroed_Ctrl g_devInfoList g_devList update_dev trace] in Hx.
  rewrite Z.eqb_refl in Hx. fold got in Hx.
  rewrite (LPCUSBSIO_Open_to_exchange index s pHid dev inData _ _ _
             Hcur HpHid Hdev Hin Hfresh Hs Hx).
  cbn [fst snd]. fold inLen.
  assert (Hpad : forall k, (k <= 12)%nat -> 12 <= inLen ->
            drop k (got ++ replicate (Z.to_nat (12 + MAX_FWVER_STRLEN - inLen)) 0)
            = drop k got ++ replicate (Z.to_nat (12 + MAX_FWVER_STRLEN - inLen)) 0).
  { intros k Hk Hl. apply drop_app_le. subst inLen. lia. }
  split; [|split; [|split]].
  - intros Hlen. destruct (Z.ltb_spec (12 + MAX_FWVER_STRLEN) inLen); [reflexivity|lia].
  - intros Hlen Hlong.
    destruct (Z.ltb_spec (12 + MAX_FWVER_STRLEN) inLen); [lia|].
    cbn [Z.eqb LPCUSBSIO_OK]. unfold parse_dev_info. fold inLen.
    destruct (Z.geb_spec inLen 12); [|lia]. orun.
    rewrite !Hpad by lia.
    rewrite (le32_app_pad (drop 8 got)) by (rewrite length_drop; subst inLen; lia).
    fold txt.
    destruct (Z.leb_spec MAX_FWVER_STRLEN (Z.of_nat (String.length txt))); [reflexivity|lia].
  - intros Hlen Hfit.
    destruct (Z.ltb_spec (12 + MAX_FWVER_STRLEN) inLen); [lia|].
    cbn [Z.eqb LPCUSBSIO_OK]. unfold parse_dev_info. fold inLen.
    destruct (Z.geb_spec inLen 12); [|lia]. orun.
    rewrite !Hpad by lia.
    rewrite (le32_app_pad (drop 8 got)) by (rewrite length_drop; subst inLen; lia).
    rewrite (le32_app_pad (drop 4 got)) by (rewrite length_drop; subst inLen; lia).
    rewrite !nth_app_pad by (subst inLen; lia).
    fold txt.
    destruct (Z.leb_spec MAX_FWVER_STRLEN (Z.of_nat (String.length txt))); [lia|]. orun.
    eexists. eexists. split; [reflexivity|]. cbn [g_devList g_lastError script lookup_dev].
    rewrite Z.eqb_refl. split; [reflexivity|].
    split; [|split; reflexivity].
    unfold capabilities_from.
    cbn [maxI2CPorts maxSPIPorts maxGPIOPorts maxDataSize fwVersion fwBuild
         set_fwBuild set_devInfo].
    fold inLen. fold txt.
    repeat match goal with |- _ /\ _ => split end; try reflexivity; try lia.
  - intros Hlen.
    destruct (Z.ltb_spec (12 + MAX_FWVER_STRLEN) inLen); [unfold MAX_FWVER_STRLEN in *; lia|].
    cbn [Z.eqb LPCUSBSIO_OK]. unfold parse_dev_info. fold inLen.
    destruct (Z.geb_spec inLen 12); [lia|]. orun.
    eexists. eexists. split; [reflexivity|]. cbn [g_devList g_lastError script lookup_dev].
    rewrite Z.eqb_refl. split; [reflexivity|].
    now repeat split.
Qed.

End OpenSessionFacts.

Section OpenPort.
Context {proto : Protocol} {abi : Layout}.

(** X15.  [SPI_Open] on a valid device handle.  (1) A port number at or
    above the session's SPI count yields NULL with
    [LPCUSBSIO_ERR_INVALID_PARAM].  (2) Below the count, when the
    init-port exchange fails the call yields NULL and no slot changes;
    when it returns [LPCUSBSIO_OK] and the port number is below
    [MAX_SPI_PORTS], the call yields the address of slot
    [MAX_I2C_PORTS + portNum], that SPI slot holds the back-reference and
    the port number and the I2C table is as before; from [MAX_SPI_PORTS]
    on, which the count allows when the device reported more ports than
    the table has slots, the store goes past the table.  (3) The SPI
    handle of port [q] is the address [&dev->i2cPorts[p]] exactly when
    [p = MAX_I2C_PORTS + q]: no I2C port inside its table shares a handle
    with an SPI port, and the address [I2C_Open] computes for a port
    beyond its table is an SPI handle. *)
Theorem SPI_Open_range_and_slot :
  (forall s hUsbSio config portNum c,
     validHandle_loop hUsbSio (g_devList s) = Ret 1 ->
     lookup_dev hUsbSio (g_devList s) = Some c ->
     maxSPIPorts c <= portNum ->
     SPI_Open hUsbSio config portNum s
     = Ret (NULL, st_lastError LPCUSBSIO_ERR_INVALID_PARAM s))
  /\ (forall s hUsbSio cfg portNum c q sc r s1,
        validHandle_loop hUsbSio (g_devList s) = Ret 1 ->
        lookup_dev hUsbSio (g_devList s) = Some c ->
        List.length (spiPorts c) = Z.to_nat MAX_SPI_PORTS ->
        0 <= portNum < maxSPIPorts c ->
        script s = RMalloc q :: sc -> q <> NULL ->
        SIO_SendRequest hUsbSio portNum HID_SPI_REQ_INIT_PORT
          (Some (HID_SPI_PORTCONFIG_bytes cfg))
          (Z.of_nat (List.length (HID_SPI_PORTCONFIG_bytes cfg)))
          false false (st_io sc (trace s) s)
        = Ret (r, s1) ->
        (fst r = LPCUSBSIO_OK -> portNum < MAX_SPI_PORTS ->
         exists s2 c2,
           SPI_Open hUsbSio (Some cfg) portNum s
           = Ret (slot_addr hUsbSio (MAX_I2C_PORTS + portNum), s2)
           /\ lookup_dev hUsbSio (g_devList s2) = Some c2
           /\ spiPorts c2 !! Z.to_nat portNum = Some (mkPort hUsbSio portNum)
           /\ i2cPorts c2 = i2cPorts c
           /\ trace s2 = trace s1)
        /\ (fst r = LPCUSBSIO_OK -> MAX_SPI_PORTS <= portNum ->
            SPI_Open hUsbSio (Some cfg) portNum s = Fault)
        /\ (fst r <> LPCUSBSIO_OK -> SPI_Open hUsbSio (Some cfg) portNum s = Ret (NULL, s1)))
  /\ (forall dev p q,
        slot_addr dev p = slot_addr dev (MAX_I2C_PORTS + q) <-> p = MAX_I2C_PORTS + q).
Proof.
  split; [|split].
  - intros s h config portNum c Hv E Hge. unfold SPI_Open.
    rewrite (bind_Ret _ _ _ _ _ (validHandle_run _ _ _ Hv)). cbn [Z.eqb].
    destruct config as [cfg|]; [|reflexivity].
    rewrite (bind_Ret _ _ _ _ _ (load_dev_run _ _ _ E)).
    destruct (Z.geb_spec portNum (maxSPIPorts c)); [reflexivity|lia].
  - intros s h cfg portNum c q sc r s1 Hv E Hlen Hrange Hs Hq Hx.
    destruct (SIO_SendRequest_ports_kept _ _ _ _ _ _ _ _ _ _ Hx) as [_ Hk].
    destruct (Hk h c E) as (c1 & E1 & (Hi & Hsp & _)).
    assert (Hrun : SPI_Open h (Some cfg) portNum s
                   = (if fst r =? LPCUSBSIO_OK then
                        c <- load_dev h ;;
                        match table_store (spiPorts c) portNum (mkPort h portNum) with
                        | Some t => store_dev h (set_spiPorts t c) ;;;
                                    ret (slot_addr h (MAX_I2C_PORTS + portNum))
                        | None => fault
                        end
                      else ret NULL) s1).
    { unfold SPI_Open.
      rewrite (bind_Ret _ _ _ _ _ (validHandle_run _ _ _ Hv)). cbn [Z.eqb].
      rewrite (bind_Ret _ _ _ _ _ (load_dev_run _ _ _ E)).
      destruct (Z.geb_spec portNum (maxSPIPorts c)); [lia|].
      unfold bind at 1, malloc, bind at 1, ask. rewrite Hs. unfold ret at 1.
      destruct (Z.eqb_spec q NULL); [contradiction|].
      fold (st_io sc (trace s) s).
      now rewrite (bind_Ret _ _ _ _ _ Hx). }
    rewrite Hrun. split; [|split].
    + intros Hok Hslot. rewrite Hok. cbn [Z.eqb LPCUSBSIO_OK].
      rewrite (bind_Ret _ _ _ _ _ (load_dev_run _ _ _ E1)).
      unfold table_store. rewrite Hsp, Hlen.
      unfold MAX_SPI_PORTS in *.
      destruct (Z.leb_spec 0 portNum); [|lia].
      destruct (Z.ltb_spec portNum (Z.of_nat (Z.to_nat 8))); [|lia].
      cbn [andb].
      rewrite (bind_Ret _ _ _ _ _ (store_dev_run _ _ _ _ E1)).
      eexists. eexists. split; [reflexivity|]. cbn [g_devList st_devList trace].
      split; [apply (lookup_update_eq _ _ _ _ E1)|]. split; [|split; [exact Hi|reflexivity]].
      cbn [spiPorts set_spiPorts]. apply list_lookup_insert_eq. lia.
    + intros Hok Hslot. rewrite Hok. cbn [Z.eqb LPCUSBSIO_OK].
      rewrite (bind_Ret _ _ _ _ _ (load_dev_run _ _ _ E1)).
      unfold table_store. rewrite Hsp, Hlen.
      unfold MAX_SPI_PORTS in *.
      destruct (Z.leb_spec 0 portNum); [|lia].
      destruct (Z.ltb_spec portNum (Z.of_nat (Z.to_nat 8))); [lia|reflexivity].
    + intros Hbad. destruct (Z.eqb_spec (fst r) LPCUSBSIO_OK); [contradiction|reflexivity].
  - intros dev p q. split; [apply slot_addr_inj|now intros ->].
Qed.

End OpenPort.

Section RoundTrip.
Context {proto : Protocol} {abi : Layout}.

Lemma find_slot_own h l c k :
  lookup_dev h l = Some c -> table_alone h l ->
  0 <= k < MAX_I2C_PORTS + MAX_SPI_PORTS ->
  find_slot (slot_addr h k) l = Some (h, k).
Proof.
  pose proof sizeof_PortCtrl_pos as Hpos.
  induction l as [|[a d] l IH]; cbn [lookup_dev find_slot]; [discriminate|].
  intros E Hal Hk. inversion Hal as [|? ? Ha Hal']; subst. cbn [fst] in Ha.
  unfold slot_addr, i2cPorts_addr in *.
  destruct (Z.eqb_spec h a) as [->|Hne].
  - replace (a + offsetof_i2cPorts + k * sizeof_PortCtrl - (a + offsetof_i2cPorts))
      with (k * sizeof_PortCtrl) by lia.
    rewrite Z.mod_mul, Z.div_mul by lia.
    destruct (Z.leb_spec 0 (k * sizeof_PortCtrl)); [|nia].
    destruct (Z.ltb_spec (k * sizeof_PortCtrl)
                ((MAX_I2C_PORTS + MAX_SPI_PORTS) * sizeof_PortCtrl)); [|nia].
    reflexivity.
  - destruct Ha as [Ha|[Ha|Ha]]; [congruence| |].
    + destruct (Z.ltb_spec (h + offsetof_i2cPorts + k * sizeof_PortCtrl - (a + offsetof_i2cPorts))
                  ((MAX_I2C_PORTS + MAX_SPI_PORTS) * sizeof_PortCtrl)); [nia|].
      rewrite andb_false_r. cbn [andb]. now apply IH.
    + destruct (Z.leb_spec 0 (h + offsetof_i2cPorts + k * sizeof_PortCtrl
                              - (a + offsetof_i2cPorts))); [nia|].
      cbn [andb]. now apply IH.
Qed.

(** X16.  Opening an I2C port and closing the handle obtained, both
    exchanges acknowledged: the handle refers to the slot that holds the
    session and the port number, the close returns [LPCUSBSIO_OK], and
    afterwards both port tables of the session are what they were before
    the open; the transaction counter has advanced by two and the guard is
    free. *)
Theorem I2C_Open_then_Close_restores_tables
    (s : State) (h : ptr) (cfg : I2C_PORTCONFIG_T) (p : Z) (c : LPCUSBSIO_Ctrl_t) (q : ptr)
    (ws1 ws2 : list Z) (rs1 rs2 : list (Z * HID_SIO_IN_REPORT_T))
    (r1 r2 : Z * HID_SIO_IN_REPORT_T) (rest : list reply) :
  0 < HID_SIO_PACKET_DATA_SZ ->
  validHandle_loop h (g_devList s) = Ret 1 ->
  lookup_dev h (g_devList s) = Some c -> sioMutex c = MutexFree ->
  table_alone h (g_devList s) ->
  List.length (i2cPorts c) = Z.to_nat MAX_I2C_PORTS ->
  maxI2CPorts c <= MAX_I2C_PORTS -> 0 <= p < maxI2CPorts c ->
  i2cPorts c !! Z.to_nat p = Some (mkPort NULL 0) ->
  q <> NULL ->
  Forall (fun w => 0 < w) ws1 ->
  List.length ws1 = frames_needed (Z.of_nat (List.length (I2C_PORTCONFIG_bytes cfg))) ->
  Forall (fun x => keeps_reading (transId c) false x = true) rs1 ->
  ends (transId c) false r1 = Some (LPCUSBSIO_OK, []) ->
  Forall (fun w => 0 < w) ws2 ->
  List.length ws2 = frames_needed 0 ->
  Forall (fun x => keeps_reading (uint8 (transId c + 1)) false x = true) rs2 ->
  ends (uint8 (transId c + 1)) false r2 = Some (LPCUSBSIO_OK, []) ->
  script s = RMalloc q
             :: (RLock 0 :: map RWrite ws1 ++ map RRead' rs1 ++ RRead' r1 :: RUnlock 0
                 :: RLock 0 :: map RWrite ws2 ++ map RRead' rs2 ++ RRead' r2 :: RUnlock 0
                 :: rest) ->
  exists s1 s2 c2,
    I2C_Open h (Some cfg) p s = Ret (slot_addr h p, s1)
    /\ port_at (slot_addr h p) s1 = Some (mkPort h p)
    /\ I2C_Close (slot_addr h p) s1 = Ret (LPCUSBSIO_OK, s2)
    /\ lookup_dev h (g_devList s2) = Some c2
    /\ i2cPorts c2 = i2cPorts c /\ spiPorts c2 = spiPorts c
    /\ transId c2 = uint8 (uint8 (transId c + 1) + 1)
    /\ sioMutex c2 = MutexFree
    /\ script s2 = rest.
Proof.
  intros Hd Hv E Hm Hal Hlen Hmax Hp Hslot Hq Hpos1 Hn1 Hk1 He1 Hpos2 Hn2 Hk2 He2 Hs.
  set (bytes := I2C_PORTCONFIG_bytes cfg) in *.
  (* the open *)
  set (sc2 := RLock 0 :: map RWrite ws2 ++ map RRead' rs2 ++ RRead' r2 :: RUnlock 0 :: rest)
    in *.
  destruct (SIO_SendRequest_outcome_state h p HID_I2C_REQ_INIT_PORT (Some bytes)
              (Z.of_nat (List.length bytes)) false false
              (st_io (RLock 0 :: map RWrite ws1 ++ map RRead' rs1 ++ RRead' r1 :: RUnlock 0 :: sc2)
                     (trace s) s)
              c ws1 rs1 r1 LPCUSBSIO_OK [] sc2 Hd) as (tr1 & Hx1); try assumption;
    try reflexivity.
  { split; [reflexivity|]. cbn [default from_option id]. unfold id. lia. }
  set (c1 := set_transId (uint8 (transId c + 1)) c) in *.
  set (t1 := <[Z.to_nat p := mkPort h p]> (i2cPorts c)).
  set (c1' := set_i2cPorts t1 c1).
  set (s1 := mkState (g_devInfoList s) (update_dev h c1' (g_devList s)) LPCUSBSIO_OK sc2
                     (trace s ++ tr1)).
  assert (Hopen : I2C_Open h (Some cfg) p s = Ret (slot_addr h p, s1)).
  { unfold I2C_Open.
    rewrite (bind_Ret _ _ _ _ _ (validHandle_run _ _ _ Hv)). cbn [Z.eqb].
    rewrite (bind_Ret _ _ _ _ _ (load_dev_run _ _ _ E)).
    destruct (Z.geb_spec p (maxI2CPorts c)); [lia|].
    unfold bind at 1, malloc, bind at 1, ask. rewrite Hs. unfold ret at 1.
    destruct (Z.eqb_spec q NULL); [contradiction|].
    fold bytes. cbn [g_devInfoList g_devList g_lastError trace].
    change (mkState (g_devInfoList s) (g_devList s) (g_lastError s) ?x (trace s))
      with (st_io x (trace s) s).
    rewrite (bind_Ret _ _ _ _ _ Hx1). cbn [fst Z.eqb LPCUSBSIO_OK].
    set (sm := mkState _ _ _ _ _).
    assert (Em : lookup_dev h (g_devList sm) = Some c1)
      by (apply (lookup_update_eq _ _ _ _ E)).
    rewrite (bind_Ret _ _ _ _ _ (load_dev_run _ _ _ Em)).
    unfold table_store. cbn [i2cPorts c1 set_transId]. rewrite Hlen.
    unfold MAX_I2C_PORTS in *.
    destruct (Z.leb_spec 0 p); [|lia].
    destruct (Z.ltb_spec p (Z.of_nat (Z.to_nat 8))); [|lia].
    cbn [andb].
    rewrite (bind_Ret _ _ _ _ _ (store_dev_run _ _ _ _ Em)).
    unfold ret, st_devList, sm, s1. cbn [g_devInfoList g_devList g_lastError script trace].
    rewrite update_update. reflexivity. }
  assert (E1 : lookup_dev h (g_devList s1) = Some c1')
    by (apply (lookup_update_eq _ _ _ _ E)).
  assert (Hk : 0 <= p < MAX_I2C_PORTS + MAX_SPI_PORTS) by (unfold MAX_I2C_PORTS, MAX_SPI_PORTS in *; lia).
  assert (Hf1 : find_slot (slot_addr h p) (g_devList s1) = Some (h, p)).
  { rewrite (find_slot_addrs _ _ _ (update_dev_addrs h c1' (g_devList s))).
    now apply find_slot_own with (c := c). }
  assert (Hport : port_at (slot_addr h p) s1 = Some (mkPort h p)).
  { unfold port_at. rewrite Hf1, E1. unfold get_slot.
    destruct (Z.ltb_spec p MAX_I2C_PORTS); [|lia].
    cbn [i2cPorts c1' set_i2cPorts]. apply list_lookup_insert_eq. lia. }
  (* the close *)
  destruct (SIO_SendRequest_outcome_state h p HID_I2C_REQ_DEINIT_PORT None 0 false false
              s1 c1' ws2 rs2 r2 LPCUSBSIO_OK [] rest Hd) as (tr2 & Hx2); try assumption;
    try reflexivity.
  { split; [reflexivity|]. cbn [default List.length]. lia. }
  cbn [transId c1' c1 set_i2cPorts set_transId] in Hx2.
  exists s1. eexists. eexists.
  split; [exact Hopen|]. split; [exact Hport|].
  unfold I2C_Close.
  rewrite (bind_Ret _ _ _ _ _
             (eq_refl : validPortHandle (slot_addr h p) s1
                        = Ret (validPortHandle_loop (slot_addr h p) (g_devList s1), s1))).
  rewrite (find_slot_valid _ _ _ _ Hf1). cbn [Z.eqb].
  rewrite (bind_Ret _ _ _ _ _ (load_port_run _ _ _ Hport)). cbn [hUsbSio portNum].
  rewrite (bind_Ret _ _ _ _ _ Hx2). cbn [fst Z.eqb LPCUSBSIO_OK].
  unfold store_port. mrun.
  rewrite (find_slot_addrs _ _ _ (update_dev_addrs h _ (g_devList s1))), Hf1.
  rewrite (lookup_update_eq _ _ _ _ E1). mrun.
  split; [reflexivity|]. cbn [g_devList script].
  rewrite update_update. subst s1. cbn [g_devList]. rewrite update_update.
  rewrite (lookup_update_eq _ _ _ _ E).
  split; [reflexivity|].
  unfold set_slot. destruct (Z.ltb_spec p MAX_I2C_PORTS); [|lia].
  cbn [i2cPorts spiPorts transId sioMutex set_i2cPorts set_transId c1' c1].
  repeat split; try assumption.
  subst t1. rewrite list_insert_insert_eq. now apply list_insert_id.
Qed.

End RoundTrip.

Section DeviceWrite.
Context {proto : Protocol} {abi : Layout}.

(** X17.  [I2C_DeviceWrite] through an open port: (1) a size above the
    session's maximum data size, a positive size with a null buffer, or an
    address above 127 is rejected with [LPCUSBSIO_ERR_INVALID_PARAM]
    before any allocation or exchange; (2) otherwise one device-write
    exchange is made on the port, its payload being the parameter block
    followed by the first [sizeToTransfer] bytes of the buffer, and the
    call returns [sizeToTransfer] when the exchange returns
    [LPCUSBSIO_OK], else the error of the exchange. *)
Theorem I2C_DeviceWrite_checks_then_sends
    (h : ptr) (s : State) (dev p : Z) (c : LPCUSBSIO_Ctrl_t)
    (deviceAddress : Z) (buffer : option (list Z)) (sizeToTransfer options : Z) :
  port_at h s = Some (mkPort dev p) ->
  lookup_dev dev (g_devList s) = Some c ->
  ((maxDataSize c < sizeToTransfer \/ (0 < sizeToTransfer /\ buffer = None)
    \/ 127 < deviceAddress) ->
   I2C_DeviceWrite h deviceAddress buffer sizeToTransfer options s
   = Ret (LPCUSBSIO_ERR_INVALID_PARAM, st_lastError LPCUSBSIO_ERR_INVALID_PARAM s))
  /\ (forall q sc data r s1,
        0 <= sizeToTransfer <= maxDataSize c -> deviceAddress <= 127 ->
        buffer = Some data -> sizeToTransfer <= Z.of_nat (List.length data) ->
        script s = RMalloc q :: sc -> q <> NULL ->
        SIO_SendRequest dev p HID_I2C_REQ_DEVICE_WRITE
          (Some (HID_I2C_RW_PARAMS_bytes sizeToTransfer options deviceAddress
                   ++ take (Z.to_nat sizeToTransfer) data))
          (Z.of_nat (List.length (HID_I2C_RW_PARAMS_bytes sizeToTransfer options deviceAddress))
           + sizeToTransfer)
          false false (st_io sc (trace s) s)
        = Ret (r, s1) ->
        I2C_DeviceWrite h deviceAddress buffer sizeToTransfer options s
        = Ret (if fst r =? LPCUSBSIO_OK then sizeToTransfer else fst r, s1)).
Proof.
  intros Hp E.
  assert (Hv : validPortHandle h s = Ret (1, s)).
  { unfold validPortHandle. mrun. unfold port_at in Hp.
    destruct (find_slot h (g_devList s)) as [[a k]|] eqn:Hf; [|discriminate].
    now rewrite (find_slot_valid _ _ _ _ Hf). }
  split.
  - intros Hbad. unfold I2C_DeviceWrite.
    rewrite (bind_Ret _ _ _ _ _ Hv). cbn [Z.eqb].
    rewrite (bind_Ret _ _ _ _ _ (load_port_run _ _ _ Hp)). cbn [hUsbSio portNum].
    rewrite (bind_Ret _ _ _ _ _ (load_dev_run _ _ _ E)).
    destruct (Z.gtb_spec sizeToTransfer (maxDataSize c)); [reflexivity|].
    destruct (Z.gtb_spec deviceAddress 127); [now rewrite orb_true_r|].
    destruct Hbad as [Hb|[[Hb ->]|Hb]]; try lia.
    destruct (Z.gtb_spec sizeToTransfer 0); [reflexivity|lia].
  - intros q sc data r s1 Hsz Hadr -> Hlen Hs Hq Hx. unfold I2C_DeviceWrite.
    rewrite (bind_Ret _ _ _ _ _ Hv). cbn [Z.eqb].
    rewrite (bind_Ret _ _ _ _ _ (load_port_run _ _ _ Hp)). cbn [hUsbSio portNum].
    rewrite (bind_Ret _ _ _ _ _ (load_dev_run _ _ _ E)).
    destruct (Z.gtb_spec sizeToTransfer (maxDataSize c)); [lia|].
    destruct (Z.gtb_spec deviceAddress 127); [lia|].
    cbn [is_Some_bool negb andb orb]. rewrite andb_false_r. cbn [orb].
    unfold bind at 1, malloc, bind at 1, ask. rewrite Hs. unfold ret at 1.
    destruct (Z.eqb_spec q NULL); [contradiction|].
    cbn [default from_option id]. unfold id.
    destruct (Z.ltb_spec (Z.of_nat (List.length data)) sizeToTransfer); [lia|].
    fold (st_io sc (trace s) s).
    now rewrite (bind_Ret _ _ _ _ _ Hx).
Qed.

End DeviceWrite.

Section RegistryScenarios.
#[local] Existing Instance scenario_protocol.
#[local] Existing Instance lp64_layout.

(** A slot of the session at 0x1000 that was never opened. *)
Lemma port_calls_on_closed_slot_fault_witness :
  I2C_Close port0_handle (world0 []) = Fault
  /\ SPI_Close port0_handle (world0 []) = Fault
  /\ I2C_Reset port0_handle (world0 []) = Fault
  /\ forall deviceAddress buffer sizeToTransfer options,
       I2C_DeviceWrite port0_handle deviceAddress buffer sizeToTransfer options (world0 [])
       = Fault.
Proof.
  apply (port_calls_on_closed_slot_fault port0_handle (world0 [])).
  - reflexivity.
  - reflexivity.
Defined.

Lemma LPCUSBSIO_Open_links_session_witness :
  exists dev s',
    LPCUSBSIO_Open 0 (world_closed open_script) = Ret (dev, s')
    /\ dev <> NULL
    /\ g_devInfoList s' = [0x500]
    /\ validHandle_loop dev (g_devList s') = Ret 1.
Proof.
  assert (Hrun : exists s', LPCUSBSIO_Open 0 (world_closed open_script) = Ret (0x1000, s'))
    by (eexists; vm_compute; reflexivity).
  destruct Hrun as [s' Hrun].
  assert (Hdev : 0x1000 <> NULL) by discriminate.
  exists 0x1000, s'. split; [exact Hrun|]. split; [exact Hdev|].
  destruct (LPCUSBSIO_Open_links_session 0 (world_closed open_script) 0x1000 s' Hrun Hdev)
    as (_ & HI & _ & c & _ & _ & _ & _ & _ & _ & Hv & _).
  split; [exact HI|exact Hv].
Defined.

(** The device answers with 16 bytes: four I2C ports, two SPI ports, one
    GPIO port, 1024 bytes at most, firmware 1.3, text "AB". *)
Lemma LPCUSBSIO_Open_capabilities_witness :
  exists s' c,
    LPCUSBSIO_Open 0 (world_closed open_script) = Ret (0x1000, s')
    /\ lookup_dev 0x1000 (g_devList s') = Some c
    /\ maxI2CPorts c = 4 /\ maxSPIPorts c = 2 /\ maxGPIOPorts c = 1
    /\ maxDataSize c = 1024 /\ fwVersion c = 0x10003
    /\ fwBuild c = "FW 1.3 AB"%string.
Proof.
  destruct (LPCUSBSIO_Open_capabilities 0 (world_closed open_script) 0x600 0x1000 0x2000 65 []
              (64, mkIn 0 0 20 0 20 [4; 2; 1; 0;  0; 4; 0; 0;  3; 0; 1; 0;  65; 66; 0; 0])
              [4; 2; 1; 0;  0; 4; 0; 0;  3; 0; 1; 0;  65; 66; 0; 0] [])
    as (_ & _ & Hfit & _).
  - reflexivity.
  - discriminate.
  - discriminate.
  - discriminate.
  - discriminate.
  - reflexivity.
  - lia.
  - constructor.
  - reflexivity.
  - reflexivity.
  - destruct Hfit as (s' & c & Hrun & Hc & (_ & H1 & H2 & H3 & H4 & H5 & H6 & _) & _).
    + vm_compute. split; discriminate.
    + vm_compute. reflexivity.
    + exists s', c. rewrite H5 in H6.
      repeat split; [exact Hrun|exact Hc|exact H1|exact H2|exact H3|exact H4|exact H5|].
      rewrite H6. vm_compute. reflexivity.
Defined.

(** The device never answers the information request. *)
Lemma LPCUSBSIO_Open_without_device_info_witness :
  exists s' c,
    LPCUSBSIO_Open 0
      (world_closed [ROpenPath 0x600; RMalloc 0x1000; RMalloc 0x2000; RMutexInit 0;
                     RLock 0; RWrite 65; RRead 0 stale_report; RUnlock 0])
    = Ret (0x1000, s')
    /\ lookup_dev 0x1000 (g_devList s') = Some c
    /\ fwBuild c = g_fwInitVer
    /\ no_capabilities c
    /\ g_lastError s' = LPCUSBSIO_ERR_TIMEOUT.
Proof.
  destruct (LPCUSBSIO_Open_without_device_info 0
              (world_closed [ROpenPath 0x600; RMalloc 0x1000; RMalloc 0x2000; RMutexInit 0;
                             RLock 0; RWrite 65; RRead 0 stale_report; RUnlock 0])
              0x600 0x1000 0x2000 [RLock 0; RWrite 65; RRead 0 stale_report; RUnlock 0]
              (LPCUSBSIO_ERR_TIMEOUT, [])
              (mkState [0x500]
                 [(0x1000, set_transId 1 (set_sioMutex MutexFree (zeroed_Ctrl 0x600 0x500)))]
                 LPCUSBSIO_ERR_TIMEOUT []
                 [EvOpenPath 0x500 0x600; EvLock 0x1000 0;
                  EvWrite 0x600 (mkOut 0 0 0xF0 4 0 4 (replicate 60 0)) 65;
                  EvRead 0x600 0 stale_report; EvUnlock 0x1000 0]))
    as [Hfit _].
  - discriminate.
  - discriminate.
  - discriminate.
  - discriminate.
  - reflexivity.
  - reflexivity.
  - vm_compute. reflexivity.
  - discriminate.
  - destruct Hfit as (s' & c & H1 & H2 & H3 & H4 & H5 & _).
    + vm_compute. discriminate.
    + exists s', c. repeat split; try assumption; apply H4.
Defined.

(** Two SPI ports reported; opening port 1, then port 2, which is out of
    range. *)
Lemma SPI_Open_range_and_slot_witness :
  SPI_Open 0x1000 (Some (mkSPIConfig 1000000 0)) 2 (world0 [])
  = Ret (NULL, st_lastError LPCUSBSIO_ERR_INVALID_PARAM (world0 []))
  /\ (exists s2 c2,
        SPI_Open 0x1000 (Some (mkSPIConfig 1000000 0)) 1
          (world0 [RMalloc 0x3000; RLock 0; RWrite 65; RRead 64 (ack 7); RUnlock 0])
        = Ret (slot_addr 0x1000 (MAX_I2C_PORTS + 1), s2)
        /\ lookup_dev 0x1000 (g_devList s2) = Some c2
        /\ spiPorts c2 !! 1%nat = Some (mkPort 0x1000 1)
        /\ i2cPorts c2 = i2cPorts session0).
Proof.
  destruct SPI_Open_range_and_slot as (Hrange & Hslot & _).
  split.
  - apply (Hrange (world0 []) 0x1000 (Some (mkSPIConfig 1000000 0)) 2 session0).
    + reflexivity.
    + reflexivity.
    + simpl. lia.
  - assert (Hx : exists s1,
               SIO_SendRequest 0x1000 1 HID_SPI_REQ_INIT_PORT
                 (Some (HID_SPI_PORTCONFIG_bytes (mkSPIConfig 1000000 0)))
                 (Z.of_nat (List.length (HID_SPI_PORTCONFIG_bytes (mkSPIConfig 1000000 0))))
                 false false
                 (st_io [RLock 0; RWrite 65; RRead 64 (ack 7); RUnlock 0]
                    (trace (world0 [RMalloc 0x3000; RLock 0; RWrite 65; RRead 64 (ack 7);
                                    RUnlock 0]))
                    (world0 [RMalloc 0x3000; RLock 0; RWrite 65; RRead 64 (ack 7); RUnlock 0]))
               = Ret ((LPCUSBSIO_OK, []), s1)) by (eexists; vm_compute; reflexivity).
    destruct Hx as [s1 Hx].
    destruct (Hslot (world0 [RMalloc 0x3000; RLock 0; RWrite 65; RRead 64 (ack 7); RUnlock 0])
                0x1000 (mkSPIConfig 1000000 0) 1 session0 0x3000
                [RLock 0; RWrite 65; RRead 64 (ack 7); RUnlock 0] (LPCUSBSIO_OK, []) s1)
      as [Hok _].
    + reflexivity.
    + reflexivity.
    + reflexivity.
    + simpl. lia.
    + reflexivity.
    + discriminate.
    + exact Hx.
    + destruct (Hok eq_refl) as (s2 & c2 & H1 & H2 & H3 & H4 & _); [reflexivity|].
      exists s2, c2. repeat split; assumption.
Defined.

(** Opening I2C port 1 of the session at 0x1000 and closing it again. *)
Lemma I2C_Open_then_Close_restores_tables_witness :
  exists s1 s2 c2,
    I2C_Open 0x1000 (Some (mkI2CConfig 100000 0)) 1
      (world0 [RMalloc 0x3000; RLock 0; RWrite 65; RRead 64 (ack 7); RUnlock 0;
               RLock 0; RWrite 65; RRead 64 (ack 8); RUnlock 0])
    = Ret (slot_addr 0x1000 1, s1)
    /\ port_at (slot_addr 0x1000 1) s1 = Some (mkPort 0x1000 1)
    /\ I2C_Close (slot_addr 0x1000 1) s1 = Ret (LPCUSBSIO_OK, s2)
    /\ lookup_dev 0x1000 (g_devList s2) = Some c2
    /\ i2cPorts c2 = i2cPorts session0 /\ spiPorts c2 = spiPorts session0
    /\ transId c2 = uint8 (uint8 (transId session0 + 1) + 1)
    /\ sioMutex c2 = MutexFree
    /\ script s2 = [].
Proof.
  apply (I2C_Open_then_Close_restores_tables
           (world0 [RMalloc 0x3000; RLock 0; RWrite 65; RRead 64 (ack 7); RUnlock 0;
                    RLock 0; RWrite 65; RRead 64 (ack 8); RUnlock 0])
           0x1000 (mkI2CConfig 100000 0) 1 session0 0x3000
           [65] [65] [] [] (64, ack 7) (64, ack 8) []).
  - reflexivity.
  - reflexivity.
  - reflexivity.
  - reflexivity.
  - repeat constructor.
  - reflexivity.
  - unfold MAX_I2C_PORTS. simpl. lia.
  - simpl. lia.
  - reflexivity.
  - discriminate.
  - repeat constructor.
  - reflexivity.
  - constructor.
  - reflexivity.
  - repeat constructor.
  - reflexivity.
  - constructor.
  - reflexivity.
  - reflexivity.
Defined.

(** Writing three bytes to the device at address 0x50 through the open
    port 0, and an address that is not one of seven bits. *)
Lemma I2C_DeviceWrite_checks_then_sends_witness :
  I2C_DeviceWrite port0_handle 200 (Some [1; 2; 3]) 3 0 (world_open [])
  = Ret (LPCUSBSIO_ERR_INVALID_PARAM, st_lastError LPCUSBSIO_ERR_INVALID_PARAM (world_open []))
  /\ exists s1,
       I2C_DeviceWrite port0_handle 0x50 (Some [1; 2; 3]) 3 0
         (world_open [RMalloc 0x3000; RLock 0; RWrite 65; RRead 64 (ack 7); RUnlock 0])
       = Ret (3, s1).
Proof.
  assert (Hp : forall sc, port_at port0_handle (world_open sc) = Some (mkPort 0x1000 0))
    by reflexivity.
  assert (E : forall sc, lookup_dev 0x1000 (g_devList (world_open sc)) = Some session_open)
    by reflexivity.
  split.
  - apply (proj1 (I2C_DeviceWrite_checks_then_sends port0_handle (world_open []) 0x1000 0
                    session_open 200 (Some [1; 2; 3]) 3 0 (Hp []) (E []))).
    right; right. lia.
  - assert (Hx : exists s1,
               SIO_SendRequest 0x1000 0 HID_I2C_REQ_DEVICE_WRITE
                 (Some (HID_I2C_RW_PARAMS_bytes 3 0 0x50 ++ take (Z.to_nat 3) [1; 2; 3]))
                 (Z.of_nat (List.length (HID_I2C_RW_PARAMS_bytes 3 0 0x50)) + 3)
                 false false
                 (st_io [RLock 0; RWrite 65; RRead 64 (ack 7); RUnlock 0]
                    (trace (world_open [RMalloc 0x3000; RLock 0; RWrite 65; RRead 64 (ack 7);
                                        RUnlock 0]))
                    (world_open [RMalloc 0x3000; RLock 0; RWrite 65; RRead 64 (ack 7);
                                 RUnlock 0]))
               = Ret ((LPCUSBSIO_OK, []), s1)) by (eexists; vm_compute; reflexivity).
    destruct Hx as [s1 Hx]. exists s1.
    apply (proj2 (I2C_DeviceWrite_checks_then_sends port0_handle
                    (world_open [RMalloc 0x3000; RLock 0; RWrite 65; RRead 64 (ack 7);
                                 RUnlock 0])
                    0x1000 0 session_open 0x50 (Some [1; 2; 3]) 3 0 (Hp _) (E _))
             0x3000 [RLock 0; RWrite 65; RRead 64 (ack 7); RUnlock 0] [1; 2; 3]
             (LPCUSBSIO_OK, []) s1).
    + simpl. lia.
    + lia.
    + reflexivity.
    + simpl. lia.
    + reflexivity.
    + discriminate.
    + exact Hx.
Defined.

End RegistryScenarios.

(** One device in the discovery list: index 1 names nothing. *)
Lemma LPCUSBSIO_Open_no_such_index_witness :
  @LPCUSBSIO_Open scenario_protocol 1 (world_closed []) = Ret (NULL, world_closed []).
Proof.
  apply (@LPCUSBSIO_Open_no_such_index scenario_protocol 1 (world_closed [])).
  simpl. lia.
Defined.

(** ** Closing a session *)

Lemma wrap_uint8_small x : 0 <= x < 255 -> uint8 (x + 1) = x + 1.
Proof. intros H. unfold uint8. apply wrap_small. lia. Qed.

Section CloseFacts.
Context {proto : Protocol} {abi : Layout}.

Lemma addrs_kept_refl s : addrs_kept s s.
Proof. now split. Qed.

Lemma addrs_kept_trans s1 s2 s3 : addrs_kept s1 s2 -> addrs_kept s2 s3 -> addrs_kept s1 s3.
Proof. intros [A B] [C D]. split; congruence. Qed.

Lemma SIO_SendRequest_addrs_kept dev portNum req outData outDataLen inData inLen s r s' :
  SIO_SendRequest dev portNum req outData outDataLen inData inLen s = Ret (r, s') ->
  addrs_kept s s'.
Proof.
  intros H. apply SIO_SendRequest_inv in H.
  destruct H as [_ _ ->|c rc sc _ _ _ _ _ _ ->|c sc w s2 r0 s3 rc sc' _ _ _ _ _ _ _ _ ->];
    split; cbn [g_devList g_devInfoList st_lastError]; try reflexivity.
  apply update_dev_addrs.
Qed.

Lemma close_port_addrs_kept (req : Z) (h : ptr) (s : State) (r : Z) (s' : State) :
  (v <- validPortHandle h ;;
   if v =? 0 then
     set_lastError LPCUSBSIO_ERR_BAD_HANDLE ;;; ret LPCUSBSIO_ERR_BAD_HANDLE
   else
     devI2c <- load_port h ;;
     r <- SIO_SendRequest (hUsbSio devI2c) (portNum devI2c) req None 0 false false ;;
     let res := fst r in
     (if res =? LPCUSBSIO_OK then store_port h (mkPort NULL 0) else ret tt) ;;;
     ret res) s = Ret (r, s') ->
  addrs_kept s s'.
Proof.
  intros H. apply bind_inv in H as (v & s1 & K1 & H).
  inversion K1; subst v s1; clear K1.
  destruct (_ =? 0).
  { revert H. mrun. intros H. inversion H. now split. }
  apply bind_inv in H as (p & s2 & K2 & H).
  assert (s2 = s); [|subst s2].
  { revert K2. unfold load_port. mrun.
    destruct (find_slot h (g_devList s)) as [[a k]|]; [|discriminate].
    destruct (lookup_dev a (g_devList s)); [|discriminate].
    destruct (get_slot _ _); [|discriminate]. intros K2. now inversion K2. }
  apply bind_inv in H as (x & s3 & K3 & H).
  apply SIO_SendRequest_addrs_kept in K3.
  apply bind_inv in H as ([] & s4 & K4 & H). inversion H; subst; clear H.
  apply (addrs_kept_trans _ _ _ K3).
  destruct (fst x =? LPCUSBSIO_OK).
  - revert K4. unfold store_port. mrun.
    destruct (find_slot h (g_devList s3)) as [[a k]|]; [|discriminate].
    destruct (lookup_dev a (g_devList s3)); [|discriminate].
    mrun. intros K4. inversion K4. split; cbn; [apply update_dev_addrs|reflexivity].
  - inversion K4. apply addrs_kept_refl.
Qed.

Lemma close_ports_loop_addrs_kept fuel : forall dev count table close base i s u s',
  (forall h s r s', close h s = Ret (r, s') -> addrs_kept s s') ->
  close_ports_loop fuel dev count table close base i s = Ret (u, s') ->
  addrs_kept s s'.
Proof.
  induction fuel as [|fuel IH]; intros dev count table close base i s u s' Hclose;
    [discriminate|].
  cbn [close_ports_loop]. intros H.
  apply bind_inv in H as (c & s1 & K1 & H).
  apply load_dev_inv in K1 as [-> _].
  destruct (i <? count c); [|inversion H; apply addrs_kept_refl].
  destruct (table c !! Z.to_nat i) as [p|]; [|discriminate].
  apply bind_inv in H as ([] & s2 & K2 & H).
  apply IH in H; [|exact Hclose].
  refine (addrs_kept_trans _ _ _ _ H).
  destruct (hUsbSio p =? dev).
  - apply bind_inv in K2 as (r & s3 & K3 & K2). inversion K2; subst.
    now apply Hclose in K3.
  - inversion K2. apply addrs_kept_refl.
Qed.

Lemma remove_dev_addrs dev l l' :
  map fst l' = map fst l -> map fst (remove_dev dev l') = map fst (remove_dev dev l).
Proof.
  revert l'. induction l as [|[b d] l IH]; intros [|[b' d'] l'] H; try discriminate.
  - reflexivity.
  - cbn in H. inversion H; subst. cbn [remove_dev].
    destruct (dev =? b); [assumption|]. cbn. f_equal. now apply IH.
Qed.

Lemma lookup_dev_addrs dev l l' :
  map fst l' = map fst l -> is_Some_bool (lookup_dev dev l') = is_Some_bool (lookup_dev dev l).
Proof.
  revert l'. induction l as [|[b d] l IH]; intros [|[b' d'] l'] H; try discriminate.
  - reflexivity.
  - cbn in H. inversion H; subst. cbn [lookup_dev].
    destruct (dev =? b); [reflexivity|]. now apply IH.
Qed.

Lemma validHandle_loop_found dev l v :
  validHandle_loop dev l = Ret v ->
  (dev = NULL /\ v = 0)
  \/ (dev <> NULL /\ v = 1 /\ is_Some_bool (lookup_dev dev l) = true).
Proof.
  induction l as [|[b d] l IH]; cbn [validHandle_loop head_ptr lookup_dev].
  - destruct (Z.eqb_spec dev NULL) as [->|]; [|discriminate].
    intros H. inversion H. now left.
  - destruct (Z.eqb_spec dev b) as [->|Hne].
    + destruct (Z.eqb_spec b NULL) as [->|Hb]; intros H; inversion H.
      * now left.
      * right. now repeat split.
    + exact IH.
Qed.

Lemma remove_dev_lookup_ne dev a l :
  a <> dev -> lookup_dev a (remove_dev dev l) = lookup_dev a l.
Proof.
  intros Hne. induction l as [|[b d] l IH]; [reflexivity|]. cbn [remove_dev lookup_dev].
  destruct (Z.eqb_spec dev b) as [->|Hdb].
  - destruct (Z.eqb_spec a b); [contradiction|reflexivity].
  - cbn [lookup_dev]. destruct (a =? b); [reflexivity|exact IH].
Qed.

Lemma LPCUSBSIO_Close_inv (h : ptr) (s : State) (r : Z) (s' : State) :
  LPCUSBSIO_Close h s = Ret (r, s') -> h <> NULL ->
  r = LPCUSBSIO_OK
  /\ is_Some_bool (lookup_dev h (g_devList s)) = true
  /\ map fst (g_devList s') = map fst (remove_dev h (g_devList s))
  /\ g_devInfoList s' = match g_devList s' with [] => [] | _ => g_devInfoList s end.
Proof.
  unfold LPCUSBSIO_Close. intros H Hh.
  apply bind_inv in H as (v & s1 & K1 & H).
  revert K1. unfold validHandle. mrun.
  destruct (validHandle_loop h (g_devList s)) as [v0| |] eqn:Hv; try discriminate.
  intros K1. inversion K1; subst v0 s1; clear K1.
  destruct (validHandle_loop_found _ _ _ Hv) as [(-> & ->)|(_ & -> & Hin)];
    [contradiction|].
  cbn [Z.eqb] in H.
  apply bind_inv in H as ([] & s2 & K2 & H).
  apply close_ports_loop_addrs_kept in K2;
    [|intros ? ? ? ?; apply (close_port_addrs_kept HID_I2C_REQ_DEINIT_PORT)].
  apply bind_inv in H as ([] & s3 & K3 & H).
  apply close_ports_loop_addrs_kept in K3;
    [|intros ? ? ? ?; apply (close_port_addrs_kept HID_SPI_REQ_DEINIT_PORT)].
  pose proof (addrs_kept_trans _ _ _ K2 K3) as [A3 I3].
  apply bind_inv in H as ([] & s4 & K4 & H).
  assert (K4' : map fst (g_devList s4) = map fst (g_devList s3)
                /\ g_devInfoList s4 = g_devInfoList s3).
  { revert K4. unfold pthread_mutex_destroy. mrun.
    destruct (lookup_dev h (g_devList s3)) as [c|] eqn:E3; [|discriminate].
    destruct (sioMutex c); try discriminate. mrun. rewrite E3. mrun.
    intros K4. inversion K4. cbn. split; [apply update_dev_addrs|reflexivity]. }
  destruct K4' as [A4 I4].
  apply bind_inv in H as ([] & s5 & K5 & H). inversion H; subst r s5; clear H.
  revert K5. unfold freeDevice. mrun.
  destruct (lookup_dev h (g_devList s4)) as [c4|] eqn:E4; [|discriminate].
  assert (Haddr : map fst (remove_dev h (g_devList s4)) = map fst (remove_dev h (g_devList s))).
  { apply remove_dev_addrs. congruence. }
  destruct (remove_dev h (g_devList s4)) as [|x l'] eqn:Hrem; mrun;
    intros K5; inversion K5; subst s'; clear K5; cbn [g_devList g_devInfoList].
  - repeat split; try assumption; reflexivity.
  - repeat split; try assumption. congruence.
Qed.

(** X18.  [LPCUSBSIO_Close] returns [LPCUSBSIO_ERR_BAD_HANDLE] for the
    null handle and changes nothing but [g_lastError]; for every other
    handle on which it returns, it returns [LPCUSBSIO_OK] whatever the
    closes of the open ports returned, the handle was a live session, the
    registry afterwards holds the other sessions' blocks in their order
    and no longer this one, and the discovery list is emptied exactly when
    no session is left. *)
Theorem LPCUSBSIO_Close_unlinks_session (h : ptr) (s : State) (r : Z) (s' : State) :
  LPCUSBSIO_Close h s = Ret (r, s') ->
  (h = NULL /\ r = LPCUSBSIO_ERR_BAD_HANDLE
   /\ s' = st_lastError LPCUSBSIO_ERR_BAD_HANDLE s)
  \/ (h <> NULL /\ r = LPCUSBSIO_OK
      /\ In h (map fst (g_devList s))
      /\ map fst (g_devList s') = map fst (remove_dev h (g_devList s))
      /\ (g_devList s' = [] -> g_devInfoList s' = [])
      /\ (g_devList s' <> [] -> g_devInfoList s' = g_devInfoList s)).
Proof.
  intros H. destruct (Z.eq_dec h NULL) as [->|Hh].
  - left. revert H. unfold LPCUSBSIO_Close, validHandle. mrun.
    destruct (validHandle_loop NULL (g_devList s)) as [v| |] eqn:Hv; try discriminate.
    destruct (validHandle_loop_found _ _ _ Hv) as [(_ & ->)|(Hne & _)]; [|contradiction].
    mrun. intros H. inversion H. now repeat split.
  - right. destruct (LPCUSBSIO_Close_inv _ _ _ _ H Hh) as (Hr & Hin & Ha & Hi).
    split; [exact Hh|]. split; [exact Hr|]. split; [|split; [exact Ha|]].
    + destruct (lookup_dev h (g_devList s)) as [c|] eqn:E; [|discriminate].
      apply lookup_dev_In in E. apply (in_map fst) in E. exact E.
    + rewrite Hi. destruct (g_devList s'); split; intros K; congruence.
Qed.

(** X19.  Closing the only session empties the registry and the discovery
    list, so that afterwards [LPCUSBSIO_Open] returns NULL for every index
    until the devices are enumerated again. *)
Theorem LPCUSBSIO_Close_last_session_forgets_devices
    (h : ptr) (s : State) (r : Z) (s' : State) :
  LPCUSBSIO_Close h s = Ret (r, s') ->
  h <> NULL -> map fst (g_devList s) = [h] ->
  r = LPCUSBSIO_OK /\ g_devList s' = [] /\ g_devInfoList s' = []
  /\ forall index, LPCUSBSIO_Open index s' = Ret (NULL, s').
Proof.
  intros H Hh Hone.
  destruct (LPCUSBSIO_Close_inv _ _ _ _ H Hh) as (-> & _ & A & B).
  assert (Hnil : g_devList s' = []).
  { destruct (g_devList s) as [|[b d] [|? ?]]; try discriminate.
    cbn in Hone. inversion Hone; subst b. cbn [remove_dev] in A. rewrite Z.eqb_refl in A.
    cbn in A. now destruct (g_devList s'). }
  rewrite Hnil in B.
  split; [reflexivity|]. split; [exact Hnil|]. split; [exact B|].
  intros index. unfold LPCUSBSIO_Open, GetDevAtIndex. mrun.
  rewrite B. reflexivity.
Qed.

Lemma close_ports_loop_idle dev count table close base c s :
  lookup_dev dev (g_devList s) = Some c ->
  0 <= count c <= 8 ->
  List.length (table c) = 8%nat ->
  Forall (fun p => hUsbSio p <> dev) (table c) ->
  forall n fuel i,
    count c - i = Z.of_nat n -> 0 <= i -> (n < fuel)%nat ->
    close_ports_loop fuel dev count table close base i s = Ret (tt, s).
Proof.
  intros E Hcount Hlen Hidle.
  induction n as [|n IH]; intros fuel i Hn Hi Hfuel;
    (destruct fuel as [|fuel]; [lia|]); cbn [close_ports_loop];
    rewrite (bind_Ret _ _ _ _ _ (load_dev_run _ _ _ E)).
  - destruct (Z.ltb_spec i (count c)); [lia|reflexivity].
  - destruct (Z.ltb_spec i (count c)); [|lia].
    destruct (table c !! Z.to_nat i) as [p|] eqn:Hp.
    2:{ apply lookup_ge_None in Hp. lia. }
    rewrite Forall_forall in Hidle.
    assert (Hne : hUsbSio p <> dev).
    { apply Hidle. eapply list_elem_of_lookup_2. exact Hp. }
    destruct (Z.eqb_spec (hUsbSio p) dev); [contradiction|].
    unfold bind at 1, ret at 1.
    rewrite wrap_uint8_small by lia.
    apply IH; lia.
Qed.

Lemma remove_update dev c l : remove_dev dev (update_dev dev c l) = remove_dev dev l.
Proof.
  induction l as [|[b d] l IH]; [reflexivity|]. cbn [update_dev].
  destruct (Z.eqb_spec dev b) as [->|Hne]; cbn [remove_dev].
  - now rewrite Z.eqb_refl.
  - destruct (Z.eqb_spec dev b); [contradiction|]. now rewrite IH.
Qed.

(** X20.  Closing a session none of whose port slots is open: no
    exchange is made and no reply consumed; the call returns
    [LPCUSBSIO_OK], the session is unlinked, [g_lastError] keeps its
    value, and the discovery list is emptied if this was the last
    session. *)
Theorem LPCUSBSIO_Close_idle_session (h : ptr) (s : State) (c : LPCUSBSIO_Ctrl_t) :
  h <> NULL ->
  lookup_dev h (g_devList s) = Some c -> sioMutex c = MutexFree ->
  0 <= maxI2CPorts c <= MAX_I2C_PORTS -> 0 <= maxSPIPorts c <= MAX_SPI_PORTS ->
  List.length (i2cPorts c) = Z.to_nat MAX_I2C_PORTS ->
  List.length (spiPorts c) = Z.to_nat MAX_SPI_PORTS ->
  Forall (fun p => hUsbSio p <> h) (i2cPorts c) ->
  Forall (fun p => hUsbSio p <> h) (spiPorts c) ->
  LPCUSBSIO_Close h s
  = Ret (LPCUSBSIO_OK,
         mkState (match remove_dev h (g_devList s) with [] => [] | _ => g_devInfoList s end)
                 (remove_dev h (g_devList s)) (g_lastError s) (script s) (trace s)).
Proof.
  intros Hh E Hm Hi Hs Hli Hls Hii His. unfold LPCUSBSIO_Close.
  rewrite (bind_Ret _ _ _ _ _
             (validHandle_run _ _ _ (validHandle_member _ _ _ Hh E))). cbn [Z.eqb].
  rewrite (bind_Ret _ _ _ _ _
             (close_ports_loop_idle h maxI2CPorts i2cPorts I2C_Close 0 c s E Hi Hli Hii
                (Z.to_nat (maxI2CPorts c)) 257 0 ltac:(lia) ltac:(lia)
                ltac:(unfold MAX_I2C_PORTS in *; lia))).
  rewrite (bind_Ret _ _ _ _ _
             (close_ports_loop_idle h maxSPIPorts spiPorts SPI_Close MAX_I2C_PORTS c s E Hs Hls
                His (Z.to_nat (maxSPIPorts c)) 257 0 ltac:(lia) ltac:(lia)
                ltac:(unfold MAX_SPI_PORTS in *; lia))).
  unfold pthread_mutex_destroy, freeDevice. mrun. rewrite E, Hm. mrun. rewrite E. mrun.
  rewrite (lookup_update_eq _ _ _ _ E). rewrite remove_update.
  destruct (remove_dev h (g_devList s)); reflexivity.
Qed.

End CloseFacts.

Section CloseScenarios.
#[local] Existing Instance scenario_protocol.
#[local] Existing Instance lp64_layout.

(** Closing the session at 0x1000 while its I2C port 0 is open: the port
    is closed first, with one exchange. *)
Lemma LPCUSBSIO_Close_unlinks_session_witness :
  exists r s',
    LPCUSBSIO_Close 0x1000 (world_open [RLock 0; RWrite 65; RRead 64 (ack 7); RUnlock 0])
    = Ret (r, s')
    /\ r = LPCUSBSIO_OK
    /\ map fst (g_devList s') = [].
Proof.
  assert (Hrun : exists s',
             LPCUSBSIO_Close 0x1000
               (world_open [RLock 0; RWrite 65; RRead 64 (ack 7); RUnlock 0])
             = Ret (LPCUSBSIO_OK, s')) by (eexists; vm_compute; reflexivity).
  destruct Hrun as [s' Hrun]. exists LPCUSBSIO_OK, s'. split; [exact Hrun|].
  destruct (LPCUSBSIO_Close_unlinks_session _ _ _ _ Hrun)
    as [(Hnull & _)|(_ & Hr & _ & Hl & _)]; [discriminate Hnull|].
  split; [exact Hr|exact Hl].
Defined.

Lemma LPCUSBSIO_Close_last_session_forgets_devices_witness :
  exists r s',
    LPCUSBSIO_Close 0x1000 (world_open [RLock 0; RWrite 65; RRead 64 (ack 7); RUnlock 0])
    = Ret (r, s')
    /\ r = LPCUSBSIO_OK /\ g_devList s' = [] /\ g_devInfoList s' = []
    /\ forall index, LPCUSBSIO_Open index s' = Ret (NULL, s').
Proof.
  assert (Hrun : exists s',
             LPCUSBSIO_Close 0x1000
               (world_open [RLock 0; RWrite 65; RRead 64 (ack 7); RUnlock 0])
             = Ret (LPCUSBSIO_OK, s')) by (eexists; vm_compute; reflexivity).
  destruct Hrun as [s' Hrun]. exists LPCUSBSIO_OK, s'. split; [exact Hrun|].
  apply (LPCUSBSIO_Close_last_session_forgets_devices 0x1000 _ _ _ Hrun).
  - discriminate.
  - reflexivity.
Defined.

Lemma LPCUSBSIO_Close_idle_session_witness :
  LPCUSBSIO_Close 0x1000 (world0 []) = Ret (LPCUSBSIO_OK, mkState [] [] 0 [] []).
Proof.
  apply (LPCUSBSIO_Close_idle_session 0x1000 (world0 []) session0).
  - discriminate.
  - reflexivity.
  - reflexivity.
  - unfold MAX_I2C_PORTS. simpl. lia.
  - unfold MAX_SPI_PORTS. simpl. lia.
  - reflexivity.
  - reflexivity.
  - repeat constructor; discriminate.
  - repeat constructor; discriminate.
Defined.

End CloseScenarios.

(** ** Enumeration of HID devices *)

Lemma lookup_update_enum_eq a e e0 g :
  lookup_enum a g = Some e0 -> lookup_enum a (update_enum a e g) = Some e.
Proof.
  induction g as [|[b d] g IH]; simpl; [discriminate|].
  destruct (Z.eqb_spec a b) as [->|Hne]; simpl.
  - now rewrite Z.eqb_refl.
  - destruct (Z.eqb_spec a b); [contradiction|]. exact IH.
Qed.

Lemma update_update_enum a e1 e2 g :
  update_enum a e2 (update_enum a e1 g) = update_enum a e2 g.
Proof.
  induction g as [|[b d] g IH]; [reflexivity|]. simpl.
  destruct (Z.eqb_spec a b) as [->|Hne]; simpl.
  - now rewrite Z.eqb_refl.
  - destruct (Z.eqb_spec a b); [contradiction|]. now rewrite IH.
Qed.

Lemma last_cons_default {A} (l : list A) (x d : A) : List.last (x :: l) d = List.last l x.
Proof.
  revert x d. induction l as [|y l IH]; intros x d; [reflexivity|].
  change (List.last (x :: y :: l) d) with (List.last (y :: l) d).
  now rewrite (IH y d), (IH y x).
Qed.

Lemma update_enum_id a e g : lookup_enum a g = Some e -> update_enum a e g = g.
Proof.
  induction g as [|[b d] g IH]; [reflexivity|]. cbn.
  destruct (Z.eqb_spec a b) as [->|]; intros H; [now inversion H|]. now rewrite IH.
Qed.

Lemma HIDAPI_EnumerateNext_step dd h pInfo g hd pos ex_info dev next :
  h <> NULL ->
  lookup_enum h g = Some (mkEnum hd pos ex_info) ->
  hd <> [] -> pos = dev :: next ->
  HIDAPI_EnumerateNext dd h pInfo g
  = Ret (1, copied_info dev (ex_of dd ex_info dev),
         update_enum h (mkEnum hd next ex_info) g).
Proof.
  intros Hh E Hhd ->. unfold HIDAPI_EnumerateNext.
  destruct (Z.eqb_spec h NULL); [contradiction|]. rewrite E. cbn [enum_head enum_pos enum_ex_info].
  destruct hd; [contradiction|]. unfold ex_of.
  destruct (negb (ex_info =? 0)), (is_Some_bool (path dev)), (negb (dd =? NULL)); reflexivity.
Qed.

Lemma HIDAPI_EnumerateNext_end dd h pInfo g hd ex_info :
  lookup_enum h g = Some (mkEnum hd [] ex_info) ->
  HIDAPI_EnumerateNext dd h pInfo g = Ret (0, pInfo, g).
Proof.
  intros E. unfold HIDAPI_EnumerateNext.
  destruct (h =? NULL); [reflexivity|]. rewrite E. cbn. now destruct hd.
Qed.

(** X21.  After [HIDAPI_Enumerate] returned a handle, successive calls of
    [HIDAPI_EnumerateNext] on it yield the devices of the chain in order,
    each once and with return value 1; every later call returns 0 and
    leaves the caller's structure as the last call filled it.  The
    extended information is valid, with report lengths 64 and usage 0,
    exactly when it was asked for, the device has a path and the
    transport opened it. *)
Theorem HIDAPI_EnumerateNext_walks_the_chain
    (n : nat) (dd h enm : ptr) (pInfo : HIDAPI_DEVICE_INFO_T) (g g1 : hidapiEnums)
    (devs : list hid_device_info) (ex_info : Z) :
  HIDAPI_Enumerate devs enm ex_info g = Ret (h, g1) -> h <> NULL ->
  let infos := map (fun dev => copied_info dev (ex_of dd ex_info dev)) devs in
  EnumerateNext_times n dd h pInfo g1
  = Ret (map (fun i => (1, i)) (take n infos)
           ++ replicate (n - List.length devs) (0, List.last infos pInfo),
         if n is O then g1 else update_enum h (mkEnum devs (drop n devs) ex_info) g1).
Proof.
  intros Henum Hh infos. subst infos.
  assert (E : lookup_enum h g1 = Some (mkEnum devs devs ex_info)).
  { revert Henum. unfold HIDAPI_Enumerate.
    destruct (enm =? NULL); [intros K; inversion K; congruence|].
    destruct (lookup_enum enm g); [discriminate|].
    intros K. inversion K; subst. cbn. now rewrite Z.eqb_refl. }
  clear Henum. revert E. generalize g1 as g0. intros g0 E.
  assert (Hgen : forall pos n pInfo g,
             lookup_enum h g = Some (mkEnum devs pos ex_info) ->
             (pos <> [] -> devs <> []) ->
             EnumerateNext_times n dd h pInfo g
             = Ret (map (fun i => (1, i))
                        (take n (map (fun dev => copied_info dev (ex_of dd ex_info dev)) pos))
                      ++ replicate (n - List.length pos)
                           (0, List.last (map (fun dev => copied_info dev (ex_of dd ex_info dev))
                                              pos) pInfo),
                    if n is O then g else update_enum h (mkEnum devs (drop n pos) ex_info) g)).
  { clear E g pInfo n.
    induction pos as [|dev pos IH]; intros n pInfo g E Hne.
    - rewrite drop_nil, (update_enum_id _ _ _ E). cbn [map List.last List.length].
      rewrite take_nil, Nat.sub_0_r. cbn [map app].
      replace (if n is O then g else g) with g by (now destruct n).
      revert pInfo. induction n as [|n IHn]; intros pInfo; [reflexivity|].
      cbn [EnumerateNext_times]. rewrite (HIDAPI_EnumerateNext_end _ _ _ _ _ _ E).
      now rewrite IHn.
    - destruct n as [|n]; [reflexivity|].
      cbn [EnumerateNext_times].
      rewrite (HIDAPI_EnumerateNext_step dd h pInfo g devs (dev :: pos) ex_info dev pos Hh E
                 (Hne ltac:(discriminate)) eq_refl).
      rewrite (IH n _ _ (lookup_update_enum_eq _ _ _ _ E)).
      2:{ intros _. apply Hne. discriminate. }
      cbn [take map app List.length drop Nat.sub].
      rewrite (last_cons_default _ (copied_info dev (ex_of dd ex_info dev)) pInfo).
      f_equal. f_equal.
      destruct n; [reflexivity|apply update_update_enum]. }
  apply Hgen; [exact E|auto].
Qed.

Lemma unlink_enum_spec enm g :
  (lookup_enum enm g = None -> unlink_enum enm g = (0, g))
  /\ (forall e, lookup_enum enm g = Some e -> fst (unlink_enum enm g) = 1)
  /\ (forall k, k <> enm -> lookup_enum k (snd (unlink_enum enm g)) = lookup_enum k g).
Proof.
  induction g as [|[b d] g (IH1 & IH2 & IH3)]; cbn [lookup_enum unlink_enum].
  - repeat split; try discriminate; reflexivity.
  - rewrite (Z.eqb_sym b enm). destruct (Z.eqb_spec enm b) as [->|Hne].
    + split; [discriminate|]. split; [reflexivity|].
      intros k Hk. cbn [snd]. destruct (Z.eqb_spec k b); [contradiction|reflexivity].
    + split; [|split].
      * intros Hn. rewrite (IH1 Hn). reflexivity.
      * intros e He. cbn [fst]. now apply IH2 with (e := e).
      * intros k Hk. cbn [snd lookup_enum]. destruct (k =? b); [reflexivity|]. now apply IH3.
Qed.

Lemma unlink_enum_gone enm g :
  NoDup (map fst g) -> lookup_enum enm (snd (unlink_enum enm g)) = None.
Proof.
  induction g as [|[b d] g IH]; cbn [unlink_enum map fst]; [reflexivity|].
  intros Hnd. apply NoDup_cons in Hnd as [Hnotin Hnd].
  rewrite (Z.eqb_sym b enm). destruct (Z.eqb_spec enm b) as [->|Hne]; cbn [snd lookup_enum].
  - clear -Hnotin. induction g as [|[c e] g IHg]; [reflexivity|]. cbn in *.
    destruct (Z.eqb_spec b c) as [->|]; [exfalso; apply Hnotin; now left|].
    apply IHg. intros Hin. apply Hnotin. now right.
  - destruct (Z.eqb_spec enm b); [contradiction|]. now apply IH.
Qed.

(** X22.  [HIDAPI_EnumerateFree] unlinks the enumeration at the handle and
    no other: it returns 1 exactly when the handle is in the chain and 0
    exactly when the chain is unchanged; every other enumeration keeps its
    state; a second call on the same handle returns 0 without touching
    anything; and [HIDAPI_EnumerateNext] and [HIDAPI_EnumerateRewind] on
    the freed handle read through a dangling pointer. *)
Theorem HIDAPI_EnumerateFree_unlinks_once (h : ptr) (g : hidapiEnums) :
  NoDup (map fst g) -> h <> NULL ->
  let r := HIDAPI_EnumerateFree h g in
  (fst r = 1 <-> In h (map fst g))
  /\ (fst r = 0 <-> snd r = g)
  /\ (forall k, k <> h -> lookup_enum k (snd r) = lookup_enum k g)
  /\ HIDAPI_EnumerateFree h (snd r) = (0, snd r)
  /\ (forall dd pInfo, HIDAPI_EnumerateNext dd h pInfo (snd r) = Fault)
  /\ HIDAPI_EnumerateRewind h (snd r) = Fault.
Proof.
  intros Hnd Hh r. subst r. unfold HIDAPI_EnumerateFree.
  destruct (unlink_enum_spec h g) as (S1 & S2 & S3).
  pose proof (unlink_enum_gone h g Hnd) as Hgone.
  assert (Hin : forall g0, In h (map fst g0) <-> lookup_enum h g0 <> None).
  { clear. induction g0 as [|[b d] g0 IH]; cbn [map fst In lookup_enum].
    - split; [contradiction|congruence].
    - destruct (Z.eqb_spec h b) as [->|Hne].
      + split; [discriminate|now left].
      + rewrite <- IH. split; [intros [|]; [congruence|assumption]|now right]. }
  split; [|split; [|split; [|split; [|split]]]].
  - rewrite Hin. destruct (lookup_enum h g) as [e|] eqn:E.
    + split; [discriminate|]. intros _. now apply S2 with (e := e).
    + rewrite (S1 eq_refl). split; [discriminate|congruence].
  - destruct (lookup_enum h g) as [e|] eqn:E.
    + rewrite (S2 e eq_refl). split; [discriminate|].
      intros Heq. rewrite Heq in Hgone. congruence.
    + rewrite (S1 eq_refl). split; reflexivity.
  - exact S3.
  - destruct (unlink_enum_spec h (snd (unlink_enum h g))) as (T1 & _). exact (T1 Hgone).
  - intros dd pInfo. unfold HIDAPI_EnumerateNext.
    destruct (Z.eqb_spec h NULL); [contradiction|]. now rewrite Hgone.
  - unfold HIDAPI_EnumerateRewind.
    destruct (Z.eqb_spec h NULL); [contradiction|]. now rewrite Hgone.
Qed.

(** X23.  [HIDAPI_EnumerateRewind] on an enumeration that found no device
    returns 0, and so does [HIDAPI_EnumerateNext]; on one that found
    devices it returns 1 wherever the position was, the next
    [HIDAPI_EnumerateNext] yields the first device again, and the other
    enumerations are untouched. *)
Theorem HIDAPI_EnumerateRewind_restarts
    (dd h : ptr) (pInfo : HIDAPI_DEVICE_INFO_T) (g : hidapiEnums) (enm : HIDAPI_ENUM_T) :
  h <> NULL -> lookup_enum h g = Some enm ->
  (enum_head enm = [] ->
   HIDAPI_EnumerateRewind h g = Ret (0, g)
   /\ HIDAPI_EnumerateNext dd h pInfo g = Ret (0, pInfo, g))
  /\ (forall dev devs, enum_head enm = dev :: devs ->
        exists g',
          HIDAPI_EnumerateRewind h g = Ret (1, g')
          /\ HIDAPI_EnumerateNext dd h pInfo g'
             = Ret (1, copied_info dev (ex_of dd (enum_ex_info enm) dev),
                    update_enum h (mkEnum (dev :: devs) devs (enum_ex_info enm)) g)
          /\ forall k, k <> h -> lookup_enum k g' = lookup_enum k g).
Proof.
  intros Hh E. split.
  - intros Hhd. unfold HIDAPI_EnumerateRewind, HIDAPI_EnumerateNext.
    destruct (Z.eqb_spec h NULL); [contradiction|]. rewrite E, Hhd. now split.
  - intros dev devs Hhd. unfold HIDAPI_EnumerateRewind.
    destruct (Z.eqb_spec h NULL); [contradiction|]. rewrite E, Hhd.
    eexists. split; [reflexivity|]. split.
    + rewrite (HIDAPI_EnumerateNext_step dd h pInfo _ (dev :: devs) (dev :: devs)
                 (enum_ex_info enm) dev devs Hh (lookup_update_enum_eq _ _ _ _ E)
                 ltac:(discriminate) eq_refl).
      now rewrite update_update_enum.
    + intros k Hk. clear -Hk. induction g as [|[b d] g IH]; [reflexivity|]. cbn.
      destruct (Z.eqb_spec h b) as [->|]; cbn.
      * destruct (Z.eqb_spec k b); [contradiction|reflexivity].
      * destruct (k =? b); [reflexivity|exact IH].
Qed.

(** Two devices, the second without a path; extended information asked
    for, and the transport opens what it is asked to. *)
Lemma HIDAPI_EnumerateNext_walks_the_chain_witness :
  EnumerateNext_times 3 0x700 0x4000 (copied_info probe_a (mkInfoEx 0 0 0 0 0))
    [(0x4000, mkEnum [probe_a; probe_b] [probe_a; probe_b] 1)]
  = Ret ([(1, copied_info probe_a (mkInfoEx 1 64 64 0 0));
          (1, copied_info probe_b (mkInfoEx 0 0 0 0 0));
          (0, copied_info probe_b (mkInfoEx 0 0 0 0 0))],
         [(0x4000, mkEnum [probe_a; probe_b] [] 1)]).
Proof.
  apply (HIDAPI_EnumerateNext_walks_the_chain 3 0x700 0x4000 0x4000
           (copied_info probe_a (mkInfoEx 0 0 0 0 0)) []
           [(0x4000, mkEnum [probe_a; probe_b] [probe_a; probe_b] 1)] [probe_a; probe_b] 1).
  - reflexivity.
  - discriminate.
Defined.

Lemma HIDAPI_EnumerateFree_unlinks_once_witness :
  let g := [(0x4000, mkEnum [probe_a] [] 0); (0x5000, mkEnum [probe_b] [probe_b] 1)] in
  fst (HIDAPI_EnumerateFree 0x5000 g) = 1
  /\ snd (HIDAPI_EnumerateFree 0x5000 g) = [(0x4000, mkEnum [probe_a] [] 0)]
  /\ HIDAPI_EnumerateFree 0x5000 (snd (HIDAPI_EnumerateFree 0x5000 g))
     = (0, snd (HIDAPI_EnumerateFree 0x5000 g)).
Proof.
  intros g.
  assert (Hnd : NoDup (map fst g)).
  { apply (bool_decide_unpack _). vm_compute. reflexivity. }
  assert (Hh : 0x5000 <> NULL) by discriminate.
  destruct (HIDAPI_EnumerateFree_unlinks_once 0x5000 g Hnd Hh) as (A & _ & _ & D & _).
  split; [apply A; cbn; tauto|]. split; [reflexivity|exact D].
Defined.

Lemma HIDAPI_EnumerateRewind_restarts_witness :
  exists g',
    HIDAPI_EnumerateRewind 0x4000 [(0x4000, mkEnum [probe_a; probe_b] [] 0)] = Ret (1, g')
    /\ HIDAPI_EnumerateNext 0 0x4000 (copied_info probe_b (mkInfoEx 0 0 0 0 0)) g'
       = Ret (1, copied_info probe_a (mkInfoEx 0 0 0 0 0),
              [(0x4000, mkEnum [probe_a; probe_b] [probe_b] 0)]).
Proof.
  assert (Hh : 0x4000 <> NULL) by discriminate.
  destruct (proj2 (HIDAPI_EnumerateRewind_restarts 0 0x4000
                     (copied_info probe_b (mkInfoEx 0 0 0 0 0))
                     [(0x4000, mkEnum [probe_a; probe_b] [] 0)]
                     (mkEnum [probe_a; probe_b] [] 0) Hh eq_refl)
              probe_a [probe_b] eq_refl) as (g' & H1 & H2 & _).
  exists g'. split; [exact H1|exact H2].
Defined.

(** ** Discovery *)

Lemma chain_seg_frame h h' l : forall p q,
  (forall a, In a (map fst l) -> h' a = h a) ->
  chain_seg h p l q -> chain_seg h' p l q.
Proof.
  induction l as [|[a i] l IH]; intros p q Hsame; cbn [chain_seg]; [auto|].
  intros (-> & Hn & nx & Ha & Hrest).
  split; [reflexivity|]. split; [exact Hn|]. exists nx. split.
  - rewrite Hsame; [exact Ha|now left].
  - apply IH; [|exact Hrest]. intros b Hb. apply Hsame. now right.
Qed.

Lemma chain_seg_app h l1 : forall p l2 q,
  chain_seg h p (l1 ++ l2) q <-> exists m, chain_seg h p l1 m /\ chain_seg h m l2 q.
Proof.
  induction l1 as [|[a i] l1 IH]; intros p l2 q; cbn [app chain_seg].
  - split; [intros H; now exists p|intros (m & -> & H); exact H].
  - split.
    + intros (-> & Hn & nx & Ha & Hrest). apply IH in Hrest as (m & H1 & H2).
      exists m. split; [|exact H2]. split; [reflexivity|]. split; [exact Hn|]. now exists nx.
    + intros (m & (-> & Hn & nx & Ha & H1) & H2).
      split; [reflexivity|]. split; [exact Hn|]. exists nx. split; [exact Ha|].
      apply IH. now exists m.
Qed.

(** The last [next] pointer of a segment can be redirected. *)
Lemma chain_seg_relink h l : forall p a i q q',
  NoDup (map fst (l ++ [(a, i)])) ->
  chain_seg h p (l ++ [(a, i)]) q ->
  chain_seg (heap_store h a (mkNode i q')) p (l ++ [(a, i)]) q'.
Proof.
  induction l as [|[b j] l IH]; intros p a i q q' Hnd; cbn [app chain_seg].
  - intros (-> & Hn & nx & Ha & _). split; [reflexivity|]. split; [exact Hn|].
    exists q'. split; [|reflexivity]. unfold heap_store. now rewrite Z.eqb_refl.
  - intros (-> & Hn & nx & Hb & Hrest).
    cbn [app map fst] in Hnd. apply NoDup_cons in Hnd as [Hnotin Hnd].
    split; [reflexivity|]. split; [exact Hn|]. exists nx. split.
    + unfold heap_store. destruct (Z.eqb_spec b a) as [->|]; [|exact Hb].
      exfalso. apply Hnotin. rewrite map_app. apply elem_of_app. right. cbn. left.
    + now apply IH with (q := q).
Qed.

(** The loop, from a point where the kept nodes [kept] are behind and the
    nodes [rest] ahead. *)
Lemma GetNumPorts_loop_filters rest : forall fuel h head kept prev count,
  NoDup (map fst (kept ++ rest)) ->
  Forall (fun x => product_string (snd x) <> None) rest ->
  (List.length rest < fuel)%nat ->
  prev = List.last (map fst kept) NULL ->
  (forall cur, chain_seg h head kept cur -> chain_seg h cur rest NULL ->
   exists h',
     GetNumPorts_loop fuel h head prev cur count
     = Ret (h', match kept ++ List.filter is_sio rest with [] => NULL | x :: _ => fst x end,
            count + Z.of_nat (List.length (List.filter is_sio rest)))
     /\ chain_seg h' (match kept ++ List.filter is_sio rest with [] => NULL | x :: _ => fst x end)
                  (kept ++ List.filter is_sio rest) NULL
     /\ (forall x, In x rest -> is_sio x = false -> h' (fst x) = None)
     /\ (forall a, ~ In a (map fst (kept ++ rest)) -> h' a = h a)).
Proof.
  induction rest as [|[a i] rest IH]; intros fuel h head kept prev count Hnd Hps Hfuel Hprev
    cur Hkept Hrest; (destruct fuel as [|fuel]; [cbn in Hfuel; lia|]).
  - cbn [chain_seg] in Hrest. subst cur. cbn [GetNumPorts_loop]. rewrite Z.eqb_refl.
    cbn [List.filter List.length Z.of_nat]. rewrite app_nil_r, Z.add_0_r in *.
    exists h.
    assert (Hhead : head = match kept with [] => NULL | x :: _ => fst x end).
    { destruct kept as [|[b j] kept]; cbn [chain_seg] in Hkept; [exact Hkept|].
      now destruct Hkept as (-> & _). }
    rewrite <- Hhead. repeat split; try assumption.
    + intros x [].
  - cbn [chain_seg] in Hrest. destruct Hrest as (-> & Hn & nx & Ha & Hrest).
    apply Forall_cons in Hps as [Hpa Hps']. cbn [snd] in Hpa.
    cbn [GetNumPorts_loop]. destruct (Z.eqb_spec a NULL); [contradiction|].
    rewrite Ha. cbn [node_info node_next].
    destruct (product_string i) as [ps|] eqn:Hi; [|contradiction].
    assert (Hsio : is_sio (a, i) = wcsncmp6_eq ps "LPCSIO" || wcsncmp6_eq ps "MCUSIO").
    { unfold is_sio. cbn [snd]. now rewrite Hi. }
    rewrite <- negb_orb, <- Hsio. cbn [List.filter].
    assert (Hnd' : NoDup (map fst kept ++ a :: map fst rest)).
    { rewrite map_app in Hnd. exact Hnd. }
    assert (Ha_kept : ~ In a (map fst kept)).
    { intros Hin. apply NoDup_app in Hnd' as (_ & Hdis & _).
      apply (Hdis a); [now apply list_elem_of_In|left]. }
    assert (Ha_rest : ~ In a (map fst rest)).
    { apply NoDup_app in Hnd' as (_ & _ & Hr). apply NoDup_cons in Hr as [Hr _].
      intros Hin. apply Hr. now apply list_elem_of_In. }
    destruct (is_sio (a, i)) eqn:Hkeep; cbn [negb].
    + (* the node stays: it becomes [prev_dev] *)
      destruct (IH fuel h head (kept ++ [(a, i)]) a (count + 1)) with (cur := nx)
        as (h' & Hrun & Hchain & Hfreed & Hother).
      * now rewrite <- app_assoc.
      * exact Hps'.
      * cbn [List.length] in Hfuel. lia.
      * rewrite map_app. cbn [map fst]. now rewrite last_last.
      * apply chain_seg_app. exists a. split; [exact Hkept|].
        cbn [chain_seg]. split; [reflexivity|]. split; [exact Hn|]. now exists nx.
      * exact Hrest.
      * rewrite <- app_assoc in Hrun, Hchain, Hother. cbn [app] in Hrun, Hchain, Hother.
        exists h'. rewrite Hrun. cbn [List.length].
        split; [rewrite Nat2Z.inj_succ; unfold Z.succ;
                rewrite (Z.add_comm (Z.of_nat _) 1), Z.add_assoc; reflexivity|].
        split; [exact Hchain|]. split; [|exact Hother].
        intros x [<-|Hx] Hx'; [congruence|]. now apply Hfreed.
    + (* the node goes *)
      set (head' := if head =? a then nx else head).
      assert (Hrelink : exists h1,
                 (if negb (prev =? NULL) then
                    match h prev with
                    | Some p => Ret (heap_store h prev (mkNode (node_info p) nx))
                    | None => Fault
                    end
                  else Ret h) = Ret h1
                 /\ chain_seg h1 head' kept nx
                 /\ (forall b, ~ In b (map fst kept) -> h1 b = h b)).
      { destruct kept as [|x kept] using rev_ind.
        - cbn in Hprev. subst prev. cbn [Z.eqb negb NULL]. exists h.
          cbn [chain_seg] in Hkept. subst head. unfold head'. rewrite Z.eqb_refl.
          repeat split.
        - clear IHkept. destruct x as [b j].
          rewrite map_app in Hprev. cbn [map fst] in Hprev. rewrite last_last in Hprev.
          subst prev.
          pose proof Hkept as Hk. apply chain_seg_app in Hk as (m & _ & Hlast).
          cbn [chain_seg] in Hlast. destruct Hlast as (-> & Hbn & nb & Hb & _).
          destruct (Z.eqb_spec b NULL); [contradiction|]. cbn [negb]. rewrite Hb.
          cbn [node_info]. eexists. split; [reflexivity|].
          assert (Hhead : head' = head).
          { unfold head'. destruct (Z.eqb_spec head a) as [->|]; [|reflexivity].
            exfalso. apply Ha_kept.
            destruct kept as [|[c k] kept]; cbn [app chain_seg] in Hkept.
            - destruct Hkept as (-> & _). now left.
            - destruct Hkept as (-> & _). now left. }
          rewrite Hhead. split.
          + apply chain_seg_relink with (q := a); [|exact Hkept].
            rewrite map_app in Hnd'. now apply NoDup_app in Hnd' as (Hk' & _); rewrite map_app.
          + intros c Hc. unfold heap_store. destruct (Z.eqb_spec c b) as [->|]; [|reflexivity].
            exfalso. apply Hc. rewrite map_app. apply in_or_app. right. now left. }
      destruct Hrelink as (h1 & -> & Hk1 & Hsame1).
      destruct (IH fuel (heap_free h1 a) head' kept prev count) with (cur := nx)
        as (h' & Hrun & Hchain & Hfreed & Hother).
      * rewrite map_app in *. apply NoDup_app in Hnd' as (Hk' & Hdis & Hr).
        apply NoDup_cons in Hr as [_ Hr]. apply NoDup_app. split; [exact Hk'|].
        split; [|exact Hr]. intros b Hb Hb'. apply (Hdis b Hb). now right.
      * exact Hps'.
      * cbn [List.length] in Hfuel. lia.
      * exact Hprev.
      * apply (chain_seg_frame h1); [|exact Hk1].
        intros b Hb. unfold heap_free. destruct (Z.eqb_spec b a) as [->|]; [contradiction|].
        reflexivity.
      * apply (chain_seg_frame h); [|exact Hrest].
        intros b Hb. unfold heap_free. destruct (Z.eqb_spec b a) as [->|]; [contradiction|].
        apply Hsame1. intros Hbk.
        apply NoDup_app in Hnd' as (_ & Hdis & _).
        apply (Hdis b); [now apply list_elem_of_In|right; now apply list_elem_of_In].
      * exists h'. rewrite Hrun.
        assert (Hsame_head :
                  match kept ++ List.filter is_sio rest with [] => NULL | x :: _ => fst x end
                  = match kept ++ List.filter is_sio rest with [] => NULL | x :: _ => fst x end)
          by reflexivity.
        split; [reflexivity|]. split; [exact Hchain|]. split.
        -- intros x [<-|Hx] Hx'; [|now apply Hfreed].
           cbn [fst]. rewrite Hother.
           ++ unfold heap_free. now rewrite Z.eqb_refl.
           ++ rewrite map_app. intros Hin. apply in_app_or in Hin as [Hin|Hin]; contradiction.
        -- intros b Hb. rewrite Hother.
           ++ unfold heap_free. destruct (Z.eqb_spec b a) as [->|].
              ** exfalso. apply Hb. rewrite map_app. apply in_or_app. right. now left.
              ** apply Hsame1. intros Hbk. apply Hb. rewrite map_app. apply in_or_app. now left.
           ++ intros Hin. apply Hb. rewrite map_app in *. apply in_app_or in Hin as [Hin|Hin];
                apply in_or_app; [now left|right; now right].
Qed.

(** X27.  [LPCUSBSIO_GetNumPorts] on the chain [hid_enumerate] returned
    (distinct nodes, each with a product string): it returns the number
    of devices whose product string starts with LPCSIO or MCUSIO, leaves
    in [g_Ctrl.devInfoList] the chain of exactly those nodes, in their
    order and with their fields, has freed every other node of the chain,
    and has touched no memory outside the chain. *)
Theorem LPCUSBSIO_GetNumPorts_keeps_the_sio_devices
    (fuel : nat) (h : hid_heap) (enumerated : ptr) (devs : list (ptr * hid_device_info)) :
  chain_seg h enumerated devs NULL ->
  NoDup (map fst devs) ->
  Forall (fun x => product_string (snd x) <> None) devs ->
  (List.length devs < fuel)%nat ->
  exists h' devInfoList,
    LPCUSBSIO_GetNumPorts fuel h enumerated
    = Ret (h', devInfoList, Z.of_nat (List.length (List.filter is_sio devs)))
    /\ chain_seg h' devInfoList (List.filter is_sio devs) NULL
    /\ (forall x, In x devs -> is_sio x = false -> h' (fst x) = None)
    /\ (forall a, ~ In a (map fst devs) -> h' a = h a).
Proof.
  intros Hchain Hnd Hps Hfuel.
  destruct (GetNumPorts_loop_filters devs fuel h enumerated [] NULL 0 Hnd Hps Hfuel eq_refl
              enumerated eq_refl Hchain) as (h' & Hrun & Hc & Hfreed & Hother).
  exists h'. eexists. unfold LPCUSBSIO_GetNumPorts. rewrite Hrun.
  split; [reflexivity|]. split; [exact Hc|]. split; [exact Hfreed|exact Hother].
Qed.

Lemma LPCUSBSIO_GetNumPorts_keeps_the_sio_devices_witness :
  exists h' devInfoList,
    LPCUSBSIO_GetNumPorts 5 (heap_of probes) 0x10 = Ret (h', devInfoList, 2)
    /\ chain_seg h' devInfoList [(0x20, probe_a); (0x40, probe_b)] NULL
    /\ h' 0x10 = None /\ h' 0x30 = None.
Proof.
  destruct (LPCUSBSIO_GetNumPorts_keeps_the_sio_devices 5 (heap_of probes) 0x10 probes)
    as (h' & head & Hrun & Hchain & Hfreed & _).
  - cbn. repeat (split; [reflexivity|split; [discriminate|eexists; split; [reflexivity|]]]).
    reflexivity.
  - apply (bool_decide_unpack _). vm_compute. reflexivity.
  - repeat constructor; discriminate.
  - cbn. lia.
  - exists h', head. split; [exact Hrun|]. split; [exact Hchain|]. split.
    + apply (Hfreed (0x10, probe_k)); [now left|reflexivity].
    + apply (Hfreed (0x30, probe_c)); [right; right; now left|reflexivity].
Defined.

(** ** Transfers and GPIO *)

Section TransferFacts.
Context {proto : Protocol} {reqs : Requests} {abi : Layout}.

Lemma malloc_run q sc s :
  script s = RMalloc q :: sc -> malloc s = Ret (q, st_io sc (trace s) s).
Proof. intros Hs. unfold malloc. mrun. now rewrite Hs. Qed.

Lemma GPIO_SendCmd_run
    (junk : list Z) (h : ptr) (port cmd setPins clrPins status : Z) (s : State)
    (q1 q2 : ptr) (sc : list reply) (r : Z * list Z) (s1 : State) :
  validHandle_loop h (g_devList s) = Ret 1 ->
  script s = RMalloc q1 :: RMalloc q2 :: sc -> q1 <> NULL -> q2 <> NULL ->
  SIO_SendRequest h port cmd (Some (to_le32 setPins ++ to_le32 clrPins)) 8 true true
    (st_io sc (trace s) s) = Ret (r, s1) ->
  let inLen := Z.of_nat (List.length (snd r)) in
  GPIO_SendCmd junk h port cmd setPins clrPins status s
  = (if 4 <? inLen then fault
     else if fst r =? LPCUSBSIO_OK then
       ret (inLen,
            if negb (inLen =? 0)
            then le32 (snd r ++ drop (List.length (snd r)) junk)
            else status)
     else ret (fst r, status)) s1.
Proof.
  intros Hv Hs Hq1 Hq2 Hx inLen. unfold GPIO_SendCmd.
  rewrite (bind_Ret _ _ _ _ _ (validHandle_run _ _ _ Hv)). cbn [Z.eqb].
  rewrite (bind_Ret _ _ _ _ _ (malloc_run _ _ _ Hs)).
  rewrite (bind_Ret _ _ _ _ _ (malloc_run q2 sc (st_io (RMalloc q2 :: sc) (trace s) s) eq_refl)).
  destruct (Z.eqb_spec q1 NULL); [contradiction|].
  destruct (Z.eqb_spec q2 NULL); [contradiction|]. cbn [negb andb].
  change (st_io sc (trace (st_io (RMalloc q2 :: sc) (trace s) s))
                (st_io (RMalloc q2 :: sc) (trace s) s))
    with (st_io sc (trace s) s).
  now rewrite (bind_Ret _ _ _ _ _ Hx).
Qed.

(** X24.  [GPIO_SendCmd] on a valid handle, both allocations granted, in
    terms of what the exchange returned: a response of more than four
    bytes has been stored past the four-byte block; an error of the
    exchange is returned with the caller's status word untouched; on
    success the return value is the number of response bytes, not
    [LPCUSBSIO_OK], and the status word is the response read as a
    little-endian word, or untouched when the response is empty. *)
Theorem GPIO_SendCmd_reports_reply_length
    (junk : list Z) (h : ptr) (port cmd setPins clrPins status : Z) (s : State)
    (q1 q2 : ptr) (sc : list reply) (r : Z * list Z) (s1 : State) :
  validHandle_loop h (g_devList s) = Ret 1 ->
  script s = RMalloc q1 :: RMalloc q2 :: sc -> q1 <> NULL -> q2 <> NULL ->
  SIO_SendRequest h port cmd (Some (to_le32 setPins ++ to_le32 clrPins)) 8 true true
    (st_io sc (trace s) s) = Ret (r, s1) ->
  let inLen := Z.of_nat (List.length (snd r)) in
  (4 < inLen -> GPIO_SendCmd junk h port cmd setPins clrPins status s = Fault)
  /\ (inLen <= 4 -> fst r <> LPCUSBSIO_OK ->
      GPIO_SendCmd junk h port cmd setPins clrPins status s = Ret ((fst r, status), s1))
  /\ (inLen = 4 -> fst r = LPCUSBSIO_OK ->
      GPIO_SendCmd junk h port cmd setPins clrPins status s = Ret ((4, le32 (snd r)), s1))
  /\ (inLen = 0 -> fst r = LPCUSBSIO_OK ->
      GPIO_SendCmd junk h port cmd setPins clrPins status s = Ret ((0, status), s1)).
Proof.
  intros Hv Hs Hq1 Hq2 Hx inLen.
  rewrite (GPIO_SendCmd_run junk h port cmd setPins clrPins status s q1 q2 sc r s1
             Hv Hs Hq1 Hq2 Hx).
  fold inLen. repeat split.
  - intros H. destruct (Z.ltb_spec 4 inLen); [reflexivity|lia].
  - intros H Hbad. destruct (Z.ltb_spec 4 inLen); [lia|].
    destruct (Z.eqb_spec (fst r) LPCUSBSIO_OK); [contradiction|reflexivity].
  - intros H Hok. rewrite H, Hok. cbn [Z.ltb Z.compare Z.eqb LPCUSBSIO_OK negb].
    unfold ret. do 3 f_equal.
    unfold le32. subst inLen.
    destruct (snd r) as [|a [|b [|c [|d [|? ?]]]]]; cbn in H; try lia. reflexivity.
  - intros H Hok. rewrite H, Hok. reflexivity.
Qed.

Lemma land_bit_testbit status pin :
  0 <= pin < 31 ->
  negb (Z.land status (uint32 (Z.shiftl 1 pin)) =? 0) = Z.testbit status pin.
Proof.
  intros Hp.
  assert (Hpow : 0 < 2 ^ pin < 2 ^ 32).
  { split; [apply Z.pow_pos_nonneg; lia|apply Z.pow_lt_mono_r; lia]. }
  rewrite Z.shiftl_1_l. unfold uint32. rewrite wrap_small by lia.
  destruct (Z.testbit status pin) eqn:Hb.
  - destruct (Z.eqb_spec (Z.land status (2 ^ pin)) 0) as [E|]; [|reflexivity].
    assert (Hc : Z.testbit (Z.land status (2 ^ pin)) pin = true).
    { rewrite Z.land_spec, Hb, Z.pow2_bits_true by lia. reflexivity. }
    rewrite E, Z.bits_0 in Hc. discriminate.
  - destruct (Z.eqb_spec (Z.land status (2 ^ pin)) 0) as [|Hne]; [reflexivity|].
    exfalso. apply Hne. apply Z.bits_inj'. intros n Hn.
    rewrite Z.land_spec, Z.bits_0.
    destruct (Z.eq_dec n pin) as [->|Hnp].
    + now rewrite Hb.
    + rewrite (Z.pow2_bits_false pin n) by lia. apply andb_false_r.
Qed.

(** X25.  [GPIO_GetPin] for a pin below 31: when the exchange succeeds
    with a four-byte response the result is bit [pin] of that word, 1 or
    0; when it succeeds with an empty response the result is 0, as for a
    low pin; when it fails the (negative) error is returned. *)
Theorem GPIO_GetPin_reads_one_bit
    (junk : list Z) (h : ptr) (port pin : Z) (s : State)
    (q1 q2 : ptr) (sc : list reply) (r : Z * list Z) (s1 : State) :
  validHandle_loop h (g_devList s) = Ret 1 ->
  script s = RMalloc q1 :: RMalloc q2 :: sc -> q1 <> NULL -> q2 <> NULL ->
  0 <= pin < 31 ->
  SIO_SendRequest h port HID_GPIO_REQ_PORT_VALUE (Some (to_le32 0 ++ to_le32 0)) 8 true true
    (st_io sc (trace s) s) = Ret (r, s1) ->
  (fst r = LPCUSBSIO_OK -> List.length (snd r) = 4%nat ->
   GPIO_GetPin junk h port pin s
   = Ret (if Z.testbit (le32 (snd r)) pin then 1 else 0, s1))
  /\ (fst r = LPCUSBSIO_OK -> snd r = [] ->
      GPIO_GetPin junk h port pin s = Ret (0, s1))
  /\ (fst r < 0 -> (List.length (snd r) <= 4)%nat ->
      GPIO_GetPin junk h port pin s = Ret (fst r, s1)).
Proof.
  intros Hv Hs Hq1 Hq2 Hpin Hx.
  pose proof (GPIO_SendCmd_run junk h port HID_GPIO_REQ_PORT_VALUE 0 0 0 s
                q1 q2 sc r s1 Hv Hs Hq1 Hq2 Hx) as Hrun. cbv zeta in Hrun.
  unfold GPIO_GetPin. repeat split.
  - intros Hok Hlen. rewrite Hlen, Hok in Hrun.
    change (Z.of_nat 4) with 4 in Hrun.
    cbn [Z.ltb Z.compare Pos.compare Pos.compare_cont Z.eqb LPCUSBSIO_OK negb] in Hrun.
    rewrite (bind_Ret _ _ _ _ _ Hrun). cbn [fst snd Z.gtb Z.compare].
    unfold shl1. destruct (Z.leb_spec 0 pin); [|lia]. destruct (Z.ltb_spec pin 31); [|lia].
    cbn [andb]. unfold lift, bind, ret. rewrite land_bit_testbit by lia.
    do 4 f_equal. unfold le32.
    destruct (snd r) as [|a [|b [|c [|d [|? ?]]]]]; cbn in Hlen; try lia. reflexivity.
  - intros Hok Hnil. rewrite Hnil, Hok in Hrun.
    cbn [List.length Z.of_nat Z.ltb Z.compare Z.eqb LPCUSBSIO_OK negb] in Hrun.
    rewrite (bind_Ret _ _ _ _ _ Hrun). reflexivity.
  - intros Hneg Hlen.
    destruct (Z.ltb_spec 4 (Z.of_nat (List.length (snd r)))); [lia|].
    destruct (Z.eqb_spec (fst r) LPCUSBSIO_OK) as [E|_];
      [unfold LPCUSBSIO_OK in E; lia|].
    rewrite (bind_Ret _ _ _ _ _ Hrun).
    cbn [fst snd]. destruct (Z.gtb_spec (fst r) 0); [lia|reflexivity].
Qed.

(** X26.  [I2C_DeviceRead] through an open port, the request being well
    formed and both allocations granted: the number of bytes comes from
    the device.  A response longer than [sizeToTransfer] has been stored
    past the block allocated for it; otherwise, on success, the call
    returns the number of bytes received, which may be fewer than asked
    for, and the buffer starts with them, and on failure it returns the
    error and leaves the buffer alone. *)
Theorem I2C_DeviceRead_trusts_reply_length
    (h : ptr) (s : State) (dev p : Z) (c : LPCUSBSIO_Ctrl_t)
    (deviceAddress : Z) (b : list Z) (sizeToTransfer options : Z)
    (q1 q2 : ptr) (sc : list reply) (r : Z * list Z) (s1 : State) :
  port_at h s = Some (mkPort dev p) ->
  lookup_dev dev (g_devList s) = Some c ->
  0 <= sizeToTransfer <= maxDataSize c -> deviceAddress <= 127 ->
  Z.of_nat (List.length b) = sizeToTransfer ->
  script s = RMalloc q1 :: RMalloc q2 :: sc -> q1 <> NULL -> q2 <> NULL ->
  SIO_SendRequest dev p HID_I2C_REQ_DEVICE_READ
    (Some (HID_I2C_RW_PARAMS_bytes sizeToTransfer options deviceAddress))
    (Z.of_nat (List.length (HID_I2C_RW_PARAMS_bytes sizeToTransfer options deviceAddress)))
    true true (st_io sc (trace s) s) = Ret (r, s1) ->
  let inLen := Z.of_nat (List.length (snd r)) in
  (sizeToTransfer < inLen ->
   I2C_DeviceRead h deviceAddress (Some b) sizeToTransfer options s = Fault)
  /\ (inLen <= sizeToTransfer -> fst r = LPCUSBSIO_OK ->
      I2C_DeviceRead h deviceAddress (Some b) sizeToTransfer options s
      = Ret ((inLen, Some (snd r ++ drop (List.length (snd r)) b)), s1))
  /\ (inLen <= sizeToTransfer -> fst r <> LPCUSBSIO_OK ->
      I2C_DeviceRead h deviceAddress (Some b) sizeToTransfer options s
      = Ret ((fst r, Some b), s1)).
Proof.
  intros Hp E Hsz Hadr Hb Hs Hq1 Hq2 Hx inLen.
  assert (Hv : validPortHandle h s = Ret (1, s)).
  { unfold validPortHandle. mrun. unfold port_at in Hp.
    destruct (find_slot h (g_devList s)) as [[a k]|] eqn:Hf; [|discriminate].
    now rewrite (find_slot_valid _ _ _ _ Hf). }
  assert (Hrun : I2C_DeviceRead h deviceAddress (Some b) sizeToTransfer options s
                 = (if sizeToTransfer <? inLen then fault
                    else if fst r =? LPCUSBSIO_OK then
                      if Z.of_nat (List.length b) <? inLen then fault
                      else ret (inLen, Some (snd r ++ drop (List.length (snd r)) b))
                    else ret (fst r, Some b)) s1).
  { unfold I2C_DeviceRead.
    rewrite (bind_Ret _ _ _ _ _ Hv). cbn [Z.eqb].
    rewrite (bind_Ret _ _ _ _ _ (load_port_run _ _ _ Hp)). cbn [hUsbSio portNum].
    rewrite (bind_Ret _ _ _ _ _ (load_dev_run _ _ _ E)).
    destruct (Z.gtb_spec sizeToTransfer (maxDataSize c)); [lia|].
    destruct (Z.gtb_spec deviceAddress 127); [lia|].
    cbn [is_Some_bool negb andb orb]. rewrite andb_false_r. cbn [orb].
    rewrite (bind_Ret _ _ _ _ _ (malloc_run _ _ _ Hs)).
    rewrite (bind_Ret _ _ _ _ _ (malloc_run q2 sc (st_io (RMalloc q2 :: sc) (trace s) s) eq_refl)).
    destruct (Z.eqb_spec q1 NULL); [contradiction|].
    destruct (Z.eqb_spec q2 NULL); [contradiction|]. cbn [negb andb].
    change (st_io sc (trace (st_io (RMalloc q2 :: sc) (trace s) s))
                  (st_io (RMalloc q2 :: sc) (trace s) s))
      with (st_io sc (trace s) s).
    now rewrite (bind_Ret _ _ _ _ _ Hx). }
  rewrite Hrun. repeat split.
  - intros H. destruct (Z.ltb_spec sizeToTransfer inLen); [reflexivity|lia].
  - intros H Hok. destruct (Z.ltb_spec sizeToTransfer inLen); [lia|].
    rewrite Hok. cbn [Z.eqb LPCUSBSIO_OK].
    destruct (Z.ltb_spec (Z.of_nat (List.length b)) inLen); [lia|reflexivity].
  - intros H Hbad. destruct (Z.ltb_spec sizeToTransfer inLen); [lia|].
    destruct (Z.eqb_spec (fst r) LPCUSBSIO_OK); [contradiction|reflexivity].
Qed.

End TransferFacts.

Section TransferScenarios.
#[local] Existing Instance scenario_protocol.
#[local] Existing Instance scenario_requests.
#[local] Existing Instance lp64_layout.

(** Reading a GPIO port whose value is 5. *)
Lemma GPIO_SendCmd_reports_reply_length_witness :
  exists s1,
    GPIO_SendCmd [0xAA; 0xAA; 0xAA; 0xAA] 0x1000 0 HID_GPIO_REQ_PORT_VALUE 0 0 99 (world0 gpio_script)
    = Ret ((4, 5), s1).
Proof.
  assert (Hx : exists s1,
             SIO_SendRequest 0x1000 0 HID_GPIO_REQ_PORT_VALUE (Some (to_le32 0 ++ to_le32 0)) 8
               true true
               (st_io [RLock 0; RWrite 65; RRead 64 gpio_reply; RUnlock 0]
                      (trace (world0 gpio_script)) (world0 gpio_script))
             = Ret ((LPCUSBSIO_OK, [5; 0; 0; 0]), s1)) by (eexists; vm_compute; reflexivity).
  destruct Hx as [s1 Hx]. exists s1.
  assert (Hq1 : 0x3000 <> NULL) by discriminate.
  assert (Hq2 : 0x3100 <> NULL) by discriminate.
  exact (proj1 (proj2 (proj2 (GPIO_SendCmd_reports_reply_length [0xAA; 0xAA; 0xAA; 0xAA] 0x1000 0
                  HID_GPIO_REQ_PORT_VALUE 0 0 99 (world0 gpio_script) 0x3000 0x3100
                  [RLock 0; RWrite 65; RRead 64 gpio_reply; RUnlock 0]
                  (LPCUSBSIO_OK, [5; 0; 0; 0]) s1 eq_refl eq_refl Hq1 Hq2 Hx))) eq_refl eq_refl).
Defined.

(** Pin 2 of that port is high. *)
Lemma GPIO_GetPin_reads_one_bit_witness :
  exists s1,
    GPIO_GetPin [0xAA; 0xAA; 0xAA; 0xAA] 0x1000 0 2 (world0 gpio_script) = Ret (1, s1).
Proof.
  assert (Hx : exists s1,
             SIO_SendRequest 0x1000 0 HID_GPIO_REQ_PORT_VALUE (Some (to_le32 0 ++ to_le32 0)) 8
               true true
               (st_io [RLock 0; RWrite 65; RRead 64 gpio_reply; RUnlock 0]
                      (trace (world0 gpio_script)) (world0 gpio_script))
             = Ret ((LPCUSBSIO_OK, [5; 0; 0; 0]), s1)) by (eexists; vm_compute; reflexivity).
  destruct Hx as [s1 Hx]. exists s1.
  assert (Hq1 : 0x3000 <> NULL) by discriminate.
  assert (Hq2 : 0x3100 <> NULL) by discriminate.
  assert (Hpin : 0 <= 2 < 31) by lia.
  exact (proj1 (GPIO_GetPin_reads_one_bit [0xAA; 0xAA; 0xAA; 0xAA] 0x1000 0 2
                  (world0 gpio_script) 0x3000 0x3100
                  [RLock 0; RWrite 65; RRead 64 gpio_reply; RUnlock 0]
                  (LPCUSBSIO_OK, [5; 0; 0; 0]) s1 eq_refl eq_refl Hq1 Hq2 Hpin Hx)
           eq_refl eq_refl).
Defined.

(** Four bytes asked for, three received. *)
Lemma I2C_DeviceRead_trusts_reply_length_witness :
  exists s1,
    I2C_DeviceRead port0_handle 0x50 (Some [0; 0; 0; 0]) 4 0 (world_open read_script)
    = Ret ((3, Some [7; 8; 9; 0]), s1).
Proof.
  assert (Hp : port_at port0_handle (world_open read_script) = Some (mkPort 0x1000 0))
    by reflexivity.
  assert (E : lookup_dev 0x1000 (g_devList (world_open read_script)) = Some session_open)
    by reflexivity.
  assert (Hx : exists s1,
             SIO_SendRequest 0x1000 0 HID_I2C_REQ_DEVICE_READ
               (Some (HID_I2C_RW_PARAMS_bytes 4 0 0x50))
               (Z.of_nat (List.length (HID_I2C_RW_PARAMS_bytes 4 0 0x50))) true true
               (st_io [RLock 0; RWrite 65; RRead 64 read_reply; RUnlock 0]
                      (trace (world_open read_script)) (world_open read_script))
             = Ret ((LPCUSBSIO_OK, [7; 8; 9]), s1)) by (eexists; vm_compute; reflexivity).
  destruct Hx as [s1 Hx]. exists s1.
  assert (Hq1 : 0x3000 <> NULL) by discriminate.
  assert (Hq2 : 0x3100 <> NULL) by discriminate.
  assert (Hsz : 0 <= 4 <= maxDataSize session_open) by (simpl; lia).
  assert (Hadr : 0x50 <= 127) by lia.
  exact (proj1 (proj2 (I2C_DeviceRead_trusts_reply_length port0_handle (world_open read_script)
                  0x1000 0 session_open 0x50 [0; 0; 0; 0] 4 0 0x3000 0x3100
                  [RLock 0; RWrite 65; RRead 64 read_reply; RUnlock 0]
                  (LPCUSBSIO_OK, [7; 8; 9]) s1 Hp E Hsz Hadr eq_refl eq_refl Hq1 Hq2 Hx))
           ltac:(simpl; lia) eq_refl).
Defined.

End TransferScenarios.

(** ** Session information *)

Section InfoFacts.
Context {proto : Protocol}.

(** X28.  After an exchange that ran to its end, [LPCUSBSIO_GetLastError]
    returns the status of that exchange.  [LPCUSBSIO_Error] then reads
    the session behind its handle only when that status is the transport
    failure: it returns the transport's own message for the session's
    device and faults on a handle that is not a live session, since the
    handle is not validated.  For every other status the handle is
    ignored and the text is that of [GetErrorString]; a read that timed
    out gives the time-out text. *)
Theorem LPCUSBSIO_Error_after_exchange
    (hid_error : ptr -> string)
    dev portNum req outData outDataLen inData inLen s c ws rs r v bytes rest :
  0 < HID_SIO_PACKET_DATA_SZ ->
  request_ok outData outDataLen inData inLen ->
  lookup_dev dev (g_devList s) = Some c -> sioMutex c = MutexFree ->
  Forall (fun w => 0 < w) ws ->
  List.length ws = frames_needed outDataLen ->
  Forall (fun x => keeps_reading (transId c) inLen x = true) rs ->
  ends (transId c) inLen r = Some (v, bytes) ->
  script s = RLock 0 :: map RWrite ws ++ map RRead' rs ++ RRead' r :: RUnlock 0 :: rest ->
  exists res s',
    SIO_SendRequest dev portNum req outData outDataLen inData inLen s = Ret ((v, res), s')
    /\ LPCUSBSIO_GetLastError s' = Ret (v, s')
    /\ (v = LPCUSBSIO_ERR_HID_LIB ->
        LPCUSBSIO_Error hid_error dev s' = Ret (hid_error (hidDev c), s')
        /\ forall other, lookup_dev other (g_devList s) = None ->
                         LPCUSBSIO_Error hid_error other s' = Fault)
    /\ (v <> LPCUSBSIO_ERR_HID_LIB ->
        forall any, LPCUSBSIO_Error hid_error any s' = lift (GetErrorString v) s')
    /\ (fst r = 0 ->
        forall any, LPCUSBSIO_Error hid_error any s' = Ret ("Transaction timed out."%string, s')).
Proof.
  intros Hd Hreq E Hm Hpos Hn Hkeep He Hs.
  destruct (SIO_SendRequest_outcome_state dev portNum req outData outDataLen inData inLen s c
              ws rs r v bytes rest Hd Hreq E Hm Hpos Hn Hkeep He Hs) as (tr & Hrun).
  eexists. eexists. split; [exact Hrun|].
  set (s' := mkState _ _ _ _ _).
  assert (Hother : forall v0, v0 <> LPCUSBSIO_ERR_HID_LIB -> g_lastError s' = v0 ->
                     forall any, LPCUSBSIO_Error hid_error any s' = lift (GetErrorString v0) s').
  { intros v0 Hv0 Hl any. unfold LPCUSBSIO_Error, LPCUSBSIO_GetLastError, bind. rewrite Hl.
    destruct (Z.eqb_spec LPCUSBSIO_ERR_HID_LIB v0); [congruence|reflexivity]. }
  split; [reflexivity|]. split; [|split].
  - intros ->. subst s'. split.
    + unfold LPCUSBSIO_Error, LPCUSBSIO_GetLastError. mrun. rewrite Z.eqb_refl. mrun.
      rewrite (lookup_update_eq _ _ _ _ E). reflexivity.
    + intros other Ho. unfold LPCUSBSIO_Error, LPCUSBSIO_GetLastError. mrun. rewrite Z.eqb_refl. mrun.
      destruct (Z.eq_dec dev other) as [->|Hne]; [congruence|].
      now rewrite (lookup_update_ne _ _ _ _ Hne), Ho.
  - intros Hv. now apply Hother.
  - intros Hzero any.
    assert (Hto : v = LPCUSBSIO_ERR_TIMEOUT).
    { unfold ends in He. rewrite Hzero in He. cbn in He. now inversion He. }
    rewrite (Hother v); [|rewrite Hto; discriminate|reflexivity].
    rewrite Hto. reflexivity.
Qed.

Lemma validHandle_loop_NULL l : validHandle_loop NULL l = Ret 0.
Proof.
  induction l as [|[b d] l IH]; cbn [validHandle_loop head_ptr]; [reflexivity|].
  destruct (Z.eqb_spec NULL b) as [<-|]; [reflexivity|exact IH].
Qed.

(** X29.  The four capability getters.  On the null handle each one
    records the bad-handle error and returns it converted to unsigned,
    4294967294, in the place of a count.  On a live session each returns
    the field the device reported at open time and leaves the state,
    [g_lastError] included, as it was.  On a non-null handle that is not
    a live session, with other sessions open or none, each one faults. *)
Theorem capability_getters (h : ptr) (s : State) :
  (h = NULL ->
   let bad := Ret (4294967294, st_lastError LPCUSBSIO_ERR_BAD_HANDLE s) in
   LPCUSBSIO_GetNumI2CPorts h s = bad /\ LPCUSBSIO_GetNumSPIPorts h s = bad
   /\ LPCUSBSIO_GetNumGPIOPorts h s = bad /\ LPCUSBSIO_GetMaxDataSize h s = bad)
  /\ (forall c, h <> NULL -> lookup_dev h (g_devList s) = Some c ->
        LPCUSBSIO_GetNumI2CPorts h s = Ret (maxI2CPorts c, s)
        /\ LPCUSBSIO_GetNumSPIPorts h s = Ret (maxSPIPorts c, s)
        /\ LPCUSBSIO_GetNumGPIOPorts h s = Ret (maxGPIOPorts c, s)
        /\ LPCUSBSIO_GetMaxDataSize h s = Ret (maxDataSize c, s))
  /\ (h <> NULL -> lookup_dev h (g_devList s) = None ->
        LPCUSBSIO_GetNumI2CPorts h s = Fault /\ LPCUSBSIO_GetNumSPIPorts h s = Fault
        /\ LPCUSBSIO_GetNumGPIOPorts h s = Fault /\ LPCUSBSIO_GetMaxDataSize h s = Fault).
Proof.
  unfold LPCUSBSIO_GetNumI2CPorts, LPCUSBSIO_GetNumSPIPorts, LPCUSBSIO_GetNumGPIOPorts,
    LPCUSBSIO_GetMaxDataSize.
  split; [|split].
  - intros ->. cbv zeta.
    pose proof (validHandle_run _ s _ (validHandle_loop_NULL _)) as Hv.
    repeat split; rewrite (bind_Ret _ _ _ _ _ Hv); reflexivity.
  - intros c Hh E.
    pose proof (validHandle_run _ _ _ (validHandle_member _ _ _ Hh E)) as Hv.
    repeat split; rewrite (bind_Ret _ _ _ _ _ Hv); cbn [Z.eqb];
      rewrite (bind_Ret _ _ _ _ _ (load_dev_run _ _ _ E)); reflexivity.
  - intros Hh E.
    assert (Hv : validHandle h s = Fault).
    { unfold validHandle. mrun.
      assert (Hf : validHandle_loop h (g_devList s) = Fault).
      { clear -Hh E. induction (g_devList s) as [|[b d] l IH];
          cbn [validHandle_loop head_ptr lookup_dev] in *.
        - destruct (Z.eqb_spec h NULL); [contradiction|reflexivity].
        - destruct (Z.eqb_spec h b); [discriminate|]. now apply IH. }
      now rewrite Hf. }
    unfold bind. rewrite Hv. repeat split.
Qed.

End InfoFacts.

Lemma store_chars_length buf index src b :
  store_chars buf index src = Ret b -> List.length b = List.length buf.
Proof.
  unfold store_chars. destruct (Nat.ltb_spec (List.length buf) (index + List.length src));
    [discriminate|].
  intros K. inversion K. rewrite !length_app, length_take, length_drop. lia.
Qed.

Lemma text_of_app (l : list ascii) (rest : list ascii) :
  Forall (fun c => c <> Ascii.zero) l ->
  text_of (l ++ Ascii.zero :: rest) = Ret (string_of_list_ascii l).
Proof.
  induction l as [|c l IH]; intros H; cbn [app text_of string_of_list_ascii].
  - reflexivity.
  - apply Forall_cons in H as [Hc Hl].
    destruct (Ascii.eqb_spec c Ascii.zero); [contradiction|]. now rewrite IH.
Qed.

Lemma store_chars_at (pre post src : list ascii) :
  (List.length src <= List.length post)%nat ->
  store_chars (pre ++ post) (List.length pre) src
  = Ret (pre ++ src ++ drop (List.length src) post).
Proof.
  intros Hfit. unfold store_chars. rewrite length_app.
  destruct (Nat.ltb_spec (List.length pre + List.length post)
              (List.length pre + List.length src)); [lia|].
  now rewrite take_app_length, drop_app_add.
Qed.

Lemma string_of_list_ascii_app_sep (l1 l2 : list ascii) (c : ascii) :
  string_of_list_ascii (l1 ++ c :: l2)
  = (string_of_list_ascii l1 ++ String c (string_of_list_ascii l2))%string.
Proof. induction l1 as [|x l1 IH]; cbn; [reflexivity|now rewrite IH]. Qed.

Lemma bind_lift_Ret {A B} (a : A) (k : A -> M B) (s : State) :
  bind (lift (Ret a)) k s = k a s.
Proof. reflexivity. Qed.

Lemma append_extends (s t : string) : t <> EmptyString -> (s ++ t)%string <> s.
Proof.
  intros Ht. induction s as [|a s IH]; cbn [append].
  - exact Ht.
  - intros K. injection K as K. exact (IH K).
Qed.

Section VersionFacts.
Context {proto : Protocol}.

(** X30.  [LPCUSBSIO_GetVersion] never writes a terminator.  On the
    zeroed buffer and a valid handle it leaves the library version, a
    slash and the firmware text of the session, which is what the caller
    reads; a later call with the null handle rewrites the library version
    only, so the caller still reads the firmware text of the session
    asked about before. *)
Theorem LPCUSBSIO_GetVersion_keeps_stale_text
    (g_LibVersion : string) (h : ptr) (s : State) (c : LPCUSBSIO_Ctrl_t) :
  h <> NULL -> lookup_dev h (g_devList s) = Some c ->
  let lib := list_ascii_of_string g_LibVersion in
  let fw := list_ascii_of_string (fwBuild c) in
  (List.length lib + 1 + List.length fw < 128)%nat ->
  Forall (fun x => x <> Ascii.zero) (lib ++ "/"%char :: fw) ->
  exists b,
    LPCUSBSIO_GetVersion g_LibVersion h (replicate 128 Ascii.zero) s = Ret (b, s)
    /\ text_of b = Ret (g_LibVersion ++ "/" ++ fwBuild c)%string
    /\ LPCUSBSIO_GetVersion g_LibVersion NULL b s = Ret (b, s)
    /\ text_of b <> Ret g_LibVersion.
Proof.
  intros Hh E lib fw Hlen Hnz.
  set (n := (127 - List.length lib - List.length fw)%nat).
  set (b := lib ++ ["/"%char] ++ fw ++ replicate n Ascii.zero).
  assert (H1 : store_chars (replicate 128 Ascii.zero) 0 lib
               = Ret (lib ++ replicate (128 - List.length lib) Ascii.zero)).
  { pose proof (store_chars_at [] (replicate 128 Ascii.zero) lib) as K.
    cbn [app List.length] in K. rewrite K by (rewrite length_replicate; lia).
    now rewrite drop_replicate. }
  assert (H2 : store_chars (lib ++ replicate (128 - List.length lib) Ascii.zero)
                 (List.length lib) ["/"%char]
               = Ret (lib ++ ["/"%char] ++ replicate (127 - List.length lib) Ascii.zero)).
  { rewrite store_chars_at by (rewrite length_replicate; cbn [List.length]; clear -Hlen; lia).
    rewrite drop_replicate. cbn [List.length].
    replace (128 - List.length lib - 1)%nat with (127 - List.length lib)%nat by lia.
    reflexivity. }
  assert (H3 : store_chars (lib ++ ["/"%char] ++ replicate (127 - List.length lib) Ascii.zero)
                 (S (List.length lib)) fw
               = Ret b).
  { rewrite (app_assoc lib).
    replace (S (List.length lib)) with (List.length (lib ++ ["/"%char]))
      by (rewrite length_app; cbn [List.length]; lia).
    rewrite store_chars_at by (rewrite length_replicate; lia).
    rewrite drop_replicate, <- app_assoc. subst b n. reflexivity. }
  assert (Htext : text_of b = Ret (g_LibVersion ++ "/" ++ fwBuild c)%string).
  { subst b. replace n with (S (n - 1)) by (subst n; lia). cbn [replicate].
    change (lib ++ ["/"%char] ++ fw ++ Ascii.zero :: replicate (n - 1) Ascii.zero)
      with (lib ++ "/"%char :: fw ++ Ascii.zero :: replicate (n - 1) Ascii.zero).
    rewrite (app_comm_cons fw), app_assoc.
    rewrite text_of_app by exact Hnz.
    rewrite string_of_list_ascii_app_sep. subst lib fw.
    now rewrite !string_of_list_ascii_of_string. }
  exists b. split; [|split; [exact Htext|split]].
  - unfold LPCUSBSIO_GetVersion. fold lib. rewrite H1, bind_lift_Ret.
    rewrite (bind_Ret _ _ _ _ _ (validHandle_run _ _ _ (validHandle_member _ _ _ Hh E))).
    cbn [Z.eqb negb].
    rewrite (bind_Ret _ _ _ _ _ (load_dev_run _ _ _ E)). fold fw.
    rewrite H2, bind_lift_Ret, H3. reflexivity.
  - unfold LPCUSBSIO_GetVersion. fold lib.
    pose proof (store_chars_at [] b lib) as K.
    cbn [app List.length] in K. rewrite K by (subst b; rewrite length_app; lia).
    rewrite bind_lift_Ret.
    rewrite (bind_Ret _ _ _ _ _ (validHandle_run _ s _ (validHandle_loop_NULL _))).
    cbn [Z.eqb negb]. unfold ret. subst b. now rewrite drop_app_length.
  - rewrite Htext. intros K. inversion K as [K'].
    revert K'. apply append_extends. discriminate.
Qed.

End VersionFacts.

(** ** Scenarios for the session information *)

Section InfoScenarios.
#[local] Existing Instance scenario_protocol.

(** The read fails after one stale report: the message is the transport's. *)
Lemma LPCUSBSIO_Error_after_exchange_witness :
  exists res s',
    SIO_SendRequest 0x1000 0 0 None 0 false false
      (world0 [RLock 0; RWrite 65; RRead 64 stale_report; RRead (-1) stale_report; RUnlock 0])
    = Ret ((-1, res), s')
    /\ LPCUSBSIO_GetLastError s' = Ret (-1, s')
    /\ LPCUSBSIO_Error (fun d => if d =? 0x600 then "read error"%string else "no device"%string)
         0x1000 s'
       = Ret ("read error"%string, s')
    /\ LPCUSBSIO_Error (fun d => if d =? 0x600 then "read error"%string else "no device"%string)
         0x2000 s'
       = Fault.
Proof.
  destruct (LPCUSBSIO_Error_after_exchange
              (fun d => if d =? 0x600 then "read error"%string else "no device"%string)
              0x1000 0 0 None 0 false false
              (world0 [RLock 0; RWrite 65; RRead 64 stale_report; RRead (-1) stale_report;
                       RUnlock 0])
              session0 [65] [(64, stale_report)] (-1, stale_report) (-1) [] [])
    as (res & s' & Hrun & Hlast & Hlib & _).
  - reflexivity.
  - split; [reflexivity|simpl; lia].
  - reflexivity.
  - reflexivity.
  - repeat constructor.
  - reflexivity.
  - repeat constructor.
  - reflexivity.
  - reflexivity.
  - exists res, s'. destruct (Hlib eq_refl) as [Hown Hother].
    repeat split; [exact Hrun|exact Hlast|exact Hown|apply Hother; reflexivity].
Defined.

(** The live session of [world0] and its four counts. *)
Lemma capability_getters_witness :
  LPCUSBSIO_GetNumI2CPorts 0x1000 (world0 []) = Ret (4, world0 [])
  /\ LPCUSBSIO_GetNumSPIPorts 0x1000 (world0 []) = Ret (2, world0 [])
  /\ LPCUSBSIO_GetNumGPIOPorts 0x1000 (world0 []) = Ret (1, world0 [])
  /\ LPCUSBSIO_GetMaxDataSize 0x1000 (world0 []) = Ret (1024, world0 []).
Proof.
  apply (proj1 (proj2 (capability_getters 0x1000 (world0 []))) session0).
  - discriminate.
  - reflexivity.
Defined.

(** A build of the library and the firmware text of [session0]. *)
Lemma LPCUSBSIO_GetVersion_keeps_stale_text_witness :
  exists b,
    LPCUSBSIO_GetVersion "NXP LIBUSBSIO v2.1c (Jan  1 2024 12:00:00)" 0x1000
      (replicate 128 Ascii.zero) (world0 [])
    = Ret (b, world0 [])
    /\ text_of b = Ret "NXP LIBUSBSIO v2.1c (Jan  1 2024 12:00:00)/FW 1.3"%string
    /\ LPCUSBSIO_GetVersion "NXP LIBUSBSIO v2.1c (Jan  1 2024 12:00:00)" NULL b (world0 [])
       = Ret (b, world0 [])
    /\ text_of b <> Ret "NXP LIBUSBSIO v2.1c (Jan  1 2024 12:00:00)"%string.
Proof.
  apply (LPCUSBSIO_GetVersion_keeps_stale_text
           "NXP LIBUSBSIO v2.1c (Jan  1 2024 12:00:00)" 0x1000 (world0 []) session0).
  - discriminate.
  - reflexivity.
  - vm_compute. lia.
  - repeat constructor; discriminate.
Defined.

End InfoScenarios.
